(** * ERD editor: entity graph, connect gesture, routing and view transform

    A shallow embedding of the diagram editor's canvas logic
    (components/Canvas.tsx, components/TableNode.tsx, utils/geometry.ts,
    types.ts and the import handler of App.tsx).

    Conventions of the embedding:
    - a JavaScript [number] is an exact rational ([Q]); rounding of IEEE
      doubles, NaN and the infinities are outside the model;
    - an optional property ([fieldId?: string]) is an [option]; [None] is
      [undefined];
    - React state is threaded explicitly: a handler takes the state of the
      render it was created in and returns the state after its setters ran;
    - [crypto.randomUUID()] and [Math.random()] are inputs of the handler
      that calls them. *)

From Stdlib Require Import String List Bool ZArith QArith Qabs Qminmax Qround.
From Stdlib Require Import Lia Lqa.
From Stdlib Require DecimalString.
Import ListNotations.

Open Scope string_scope.

(** ** types.ts *)

Inductive FieldType : Type :=
  | INT | VARCHAR | TEXT | BOOLEAN | DATE | TIMESTAMP | DECIMAL | UUID.

Module Field.
Record t : Type := mk {
  id : string;
  name : string;
  type : FieldType;
  isPrimaryKey : bool;
  isForeignKey : bool;
  isNullable : bool;
  description : option string
}.
End Field.

Module Table.
Record t : Type := mk {
  id : string;
  name : string;
  x : Q;
  y : Q;
  fields : list Field.t;
  description : option string;
  imageUrl : option string;
  width : option Q;
  isComplete : option bool
}.
End Table.

Inductive Cardinality : Type :=
  | OneToOne   (* '1:1' *)
  | OneToN     (* '1:N' *)
  | NToM.      (* 'N:M' *)

Module Relationship.
Record t : Type := mk {
  id : string;
  sourceTableId : string;
  sourceFieldId : option string;
  targetTableId : string;
  targetFieldId : option string;
  cardinality : Cardinality;
  label : option string;
  color : option string
}.
End Relationship.

Module Point.
Record t : Type := mk { x : Q; y : Q }.
End Point.

Module Size.
Record t : Type := mk { width : Q; height : Q }.
End Size.

Abbreviation Field := Field.t.
Abbreviation Table := Table.t.
Abbreviation Relationship := Relationship.t.
Abbreviation Point := Point.t.
Abbreviation Size := Size.t.

(** ** JavaScript comparisons on the embedded values *)

(** [a === b] on two optional strings. *)
Definition opt_eqb (a b : option string) : bool :=
  match a, b with
  | None, None => true
  | Some s, Some s' => String.eqb s s'
  | _, _ => false
  end.

(** Truthiness of an optional string: [undefined] and [''] are falsy. *)
Definition truthy (a : option string) : bool :=
  match a with
  | None => false
  | Some s => negb (String.eqb s "")
  end.

(** [a || undefined] restricted to strings: the value when it is truthy. *)
Definition truthy_val (a : option string) : option string :=
  if truthy a then a else None.

(** ** Canvas.tsx: the state the handlers read and write *)

Record ConnectionState : Type := mkConnectionState {
  cs_tableId : string;
  cs_fieldId : option string
}.

Record ContextMenuState : Type := mkContextMenuState {
  cm_x : Q;
  cm_y : Q;
  cm_color : string;
  cm_tableId : option string;
  cm_fieldId : option string;
  cm_relationshipId : option string
}.

(** The props lifted to App ([tables], [relationships], [selectedTableId],
    [zoom], [offset]) together with the Canvas' own [useState] cells. *)
Record State : Type := mkState {
  tables : list Table;
  relationships : list Relationship;
  selectedTableId : option string;
  zoom : Q;
  offset : Point;
  isDraggingCanvas : bool;
  dragStart : Point;
  draggingTableId : option string;
  connectionStart : option ConnectionState;
  highlightedColor : option string;
  contextMenu : option ContextMenuState;
  mousePos : Point
}.

Definition onTablesUpdate (ts : list Table) (st : State) : State :=
  mkState ts (relationships st) (selectedTableId st) (zoom st) (offset st)
          (isDraggingCanvas st) (dragStart st) (draggingTableId st)
          (connectionStart st) (highlightedColor st) (contextMenu st)
          (mousePos st).

Definition onRelationshipsUpdate (rs : list Relationship) (st : State) : State :=
  mkState (tables st) rs (selectedTableId st) (zoom st) (offset st)
          (isDraggingCanvas st) (dragStart st) (draggingTableId st)
          (connectionStart st) (highlightedColor st) (contextMenu st)
          (mousePos st).

Definition setZoom (f : Q -> Q) (st : State) : State :=
  mkState (tables st) (relationships st) (selectedTableId st) (f (zoom st))
          (offset st) (isDraggingCanvas st) (dragStart st)
          (draggingTableId st) (connectionStart st) (highlightedColor st)
          (contextMenu st) (mousePos st).

Definition setConnectionStart (c : option ConnectionState) (st : State) : State :=
  mkState (tables st) (relationships st) (selectedTableId st) (zoom st)
          (offset st) (isDraggingCanvas st) (dragStart st)
          (draggingTableId st) c (highlightedColor st) (contextMenu st)
          (mousePos st).

Definition setContextMenu (m : option ContextMenuState) (st : State) : State :=
  mkState (tables st) (relationships st) (selectedTableId st) (zoom st)
          (offset st) (isDraggingCanvas st) (dragStart st)
          (draggingTableId st) (connectionStart st) (highlightedColor st) m
          (mousePos st).

Definition setHighlightedColor (c : option string) (st : State) : State :=
  mkState (tables st) (relationships st) (selectedTableId st) (zoom st)
          (offset st) (isDraggingCanvas st) (dragStart st)
          (draggingTableId st) (connectionStart st) c (contextMenu st)
          (mousePos st).

(** [if (contextMenu) setContextMenu(null)] *)
Definition closeContextMenu (st : State) : State :=
  match contextMenu st with
  | Some _ => setContextMenu None st
  | None => st
  end.

(** ** Entity graph mutations *)

(** [Partial<Table>]: [None] is an absent key.  For the optional properties
    a present key may carry [undefined] ([{ imageUrl: undefined }]). *)
Record TableUpdates : Type := mkTableUpdates {
  u_id : option string;
  u_name : option string;
  u_x : option Q;
  u_y : option Q;
  u_fields : option (list Field);
  u_description : option (option string);
  u_imageUrl : option (option string);
  u_width : option (option Q);
  u_isComplete : option (option bool)
}.

Definition noUpdates : TableUpdates :=
  mkTableUpdates None None None None None None None None None.

Definition override {A : Type} (old : A) (new : option A) : A :=
  match new with Some v => v | None => old end.

(** [{ ...t, ...updates }] *)
Definition spreadTable (t : Table) (u : TableUpdates) : Table :=
  Table.mk (override (Table.id t) (u_id u))
           (override (Table.name t) (u_name u))
           (override (Table.x t) (u_x u))
           (override (Table.y t) (u_y u))
           (override (Table.fields t) (u_fields u))
           (override (Table.description t) (u_description u))
           (override (Table.imageUrl t) (u_imageUrl u))
           (override (Table.width t) (u_width u))
           (override (Table.isComplete t) (u_isComplete u)).

Definition handleTableUpdate (id : string) (updates : TableUpdates)
    (st : State) : State :=
  let newTables :=
    map (fun t => if String.eqb (Table.id t) id then spreadTable t updates else t)
        (tables st) in
  onTablesUpdate newTables st.

Definition handleTableDelete (id : string) (st : State) : State :=
  let st1 :=
    onTablesUpdate
      (filter (fun t => negb (String.eqb (Table.id t) id)) (tables st)) st in
  onRelationshipsUpdate
    (filter (fun r => negb (String.eqb (Relationship.sourceTableId r) id)
                      && negb (String.eqb (Relationship.targetTableId r) id))
            (relationships st))
    st1.

Definition handleDisconnectField (tableId fieldId : string) (st : State) : State :=
  onRelationshipsUpdate
    (filter (fun r =>
       negb ((String.eqb (Relationship.sourceTableId r) tableId
              && opt_eqb (Relationship.sourceFieldId r) (Some fieldId))
             || (String.eqb (Relationship.targetTableId r) tableId
                 && opt_eqb (Relationship.targetFieldId r) (Some fieldId))))
       (relationships st))
    st.

Definition handleRelationshipDelete (id : string) (st : State) : State :=
  onRelationshipsUpdate
    (filter (fun r => negb (String.eqb (Relationship.id r) id))
            (relationships st))
    st.

(** *** TableNode.tsx: the field handlers of the node rendered for [table].
    Each one calls the [onUpdate] prop, which Canvas binds to
    [handleTableUpdate]. *)

Definition handleRemoveField (table : Table) (fieldId : string)
    (st : State) : State :=
  handleTableUpdate (Table.id table)
    (mkTableUpdates None None None None
       (Some (filter (fun f => negb (String.eqb (Field.id f) fieldId))
                     (Table.fields table)))
       None None None None)
    st.

(** ** The connect gesture *)

(** Vibrant colors for relationships. *)
Definition CONNECTION_COLORS : list string :=
  [ "#ef4444"; "#f97316"; "#f59e0b"; "#84cc16"; "#10b981"; "#06b6d4";
    "#3b82f6"; "#8b5cf6"; "#d946ef"; "#f43f5e"; "#6366f1"; "#14b8a6" ].

(** [CONNECTION_COLORS[Math.floor(rnd * CONNECTION_COLORS.length)]], where
    [rnd] is the value [Math.random()] returned.  An index outside the array
    reads [undefined]. *)
Definition randomPaletteColor (rnd : Q) : option string :=
  let i := Qfloor (rnd * inject_Z (Z.of_nat (length CONNECTION_COLORS))) in
  if (i <? 0)%Z then None else nth_error CONNECTION_COLORS (Z.to_nat i).

(** [if (r?.color) color = r.color] *)
Definition inheritFrom (r : option Relationship) (color : option string)
    : option string :=
  match r with
  | Some r' => if truthy (Relationship.color r') then Relationship.color r'
               else color
  | None => color
  end.

(** The color block of [handleConnect] (steps 1 to 5 of its comments), with
    [start] the pending [connectionStart] and [(tableId, fieldId)] the handle
    just clicked. *)
Definition connectColor (relationships : list Relationship)
    (start : ConnectionState) (tableId : string) (fieldId : option string)
    (rnd : Q) : option string :=
  let color : option string := None in
  (* 1. source field *)
  let color :=
    if truthy (cs_fieldId start) then
      inheritFrom
        (find (fun rel =>
           (String.eqb (Relationship.sourceTableId rel) (cs_tableId start)
            && opt_eqb (Relationship.sourceFieldId rel) (cs_fieldId start))
           || (String.eqb (Relationship.targetTableId rel) (cs_tableId start)
               && opt_eqb (Relationship.targetFieldId rel) (cs_fieldId start)))
           relationships)
        color
    else color in
  (* 2. target field *)
  let color :=
    if negb (truthy color) && truthy fieldId then
      inheritFrom
        (find (fun rel =>
           (String.eqb (Relationship.sourceTableId rel) tableId
            && opt_eqb (Relationship.sourceFieldId rel) fieldId)
           || (String.eqb (Relationship.targetTableId rel) tableId
               && opt_eqb (Relationship.targetFieldId rel) fieldId))
           relationships)
        color
    else color in
  (* 3. source table *)
  let color :=
    if negb (truthy color) then
      inheritFrom
        (find (fun rel =>
           String.eqb (Relationship.sourceTableId rel) (cs_tableId start)
           || String.eqb (Relationship.targetTableId rel) (cs_tableId start))
           relationships)
        color
    else color in
  (* 4. target table *)
  let color :=
    if negb (truthy color) then
      inheritFrom
        (find (fun rel =>
           String.eqb (Relationship.sourceTableId rel) tableId
           || String.eqb (Relationship.targetTableId rel) tableId)
           relationships)
        color
    else color in
  (* 5. new random color if isolated *)
  let color :=
    if negb (truthy color) then randomPaletteColor rnd else color in
  color.

(** [handleConnect(tableId, fieldId)]; [uuid] and [rnd] are what
    [crypto.randomUUID()] and [Math.random()] return if they are called. *)
Definition handleConnect (tableId : string) (fieldId : option string)
    (uuid : string) (rnd : Q) (st0 : State) : State :=
  let st := closeContextMenu st0 in
  match connectionStart st with
  | None =>
      (* Start connection *)
      setConnectionStart (Some (mkConnectionState tableId fieldId)) st
  | Some start =>
      (* End connection *)
      if String.eqb (cs_tableId start) tableId
         && opt_eqb (cs_fieldId start) fieldId
      then setConnectionStart None st
      else
        let exists_ :=
          existsb (fun r =>
            (String.eqb (Relationship.sourceTableId r) (cs_tableId start)
             && String.eqb (Relationship.targetTableId r) tableId
             && opt_eqb (Relationship.sourceFieldId r) (cs_fieldId start)
             && opt_eqb (Relationship.targetFieldId r) fieldId)
            || (String.eqb (Relationship.sourceTableId r) tableId
                && String.eqb (Relationship.targetTableId r) (cs_tableId start)
                && opt_eqb (Relationship.sourceFieldId r) fieldId
                && opt_eqb (Relationship.targetFieldId r) (cs_fieldId start)))
            (relationships st) in
        let st1 :=
          if negb exists_ then
            let color :=
              connectColor (relationships st) start tableId fieldId rnd in
            let newRel :=
              Relationship.mk uuid (cs_tableId start) (cs_fieldId start)
                              tableId fieldId OneToN None color in
            onRelationshipsUpdate (relationships st ++ [newRel])%list st
          else st in
        setConnectionStart None st1
  end.

(** [handleColorChange(newColor)] *)
Definition handleColorChange (newColor : string) (st : State) : State :=
  match contextMenu st with
  | Some cm =>
      if truthy (cm_relationshipId cm) then
        let updated :=
          map (fun r =>
                 if opt_eqb (Some (Relationship.id r)) (cm_relationshipId cm)
                 then Relationship.mk
                        (Relationship.id r) (Relationship.sourceTableId r)
                        (Relationship.sourceFieldId r)
                        (Relationship.targetTableId r)
                        (Relationship.targetFieldId r)
                        (Relationship.cardinality r) (Relationship.label r)
                        (Some newColor)
                 else r)
              (relationships st) in
        let st1 := setContextMenu None (onRelationshipsUpdate updated st) in
        if opt_eqb (highlightedColor st) (Some (cm_color cm))
        then setHighlightedColor (Some newColor) st1
        else st1
      else st
  | None => st
  end.

(** [handleWheel(e)] with [deltaY = e.deltaY]. *)
Definition handleWheel (deltaY : Q) (st : State) : State :=
  let zoomSensitivity := 1 # 1000 in
  let delta := - deltaY * zoomSensitivity in
  (* Clamp zoom between 0.2 and 3 *)
  setZoom (fun z => Qmin (Qmax (2 # 10) (z + delta)) 3) st.

(** The interactive operations of the canvas that write the entity graph or
    the zoom, as one action type. *)
Inductive Action : Type :=
  | Connect (tableId : string) (fieldId : option string)
            (uuid : string) (rnd : Q)
  | DisconnectField (tableId fieldId : string)
  | RelationshipDelete (id : string)
  | ColorChange (newColor : string)
  | TableUpdate (id : string) (updates : TableUpdates)
  | RemoveField (table : Table) (fieldId : string)
  | TableDelete (id : string)
  | Wheel (deltaY : Q).

Definition dispatch (a : Action) (st : State) : State :=
  match a with
  | Connect tableId fieldId uuid rnd => handleConnect tableId fieldId uuid rnd st
  | DisconnectField tableId fieldId => handleDisconnectField tableId fieldId st
  | RelationshipDelete id => handleRelationshipDelete id st
  | ColorChange newColor => handleColorChange newColor st
  | TableUpdate id updates => handleTableUpdate id updates st
  | RemoveField table fieldId => handleRemoveField table fieldId st
  | TableDelete id => handleTableDelete id st
  | Wheel deltaY => handleWheel deltaY st
  end.

(** ** utils/geometry.ts *)

(** [a > b] on numbers. *)
Definition Qgtb (a b : Q) : bool := negb (Qle_bool a b).

(** Calculates the intersection point between a line (from center1 to
    center2) and the bounding rectangle of the source node (center1, size1). *)
Definition getIntersection (center1 : Point) (size1 : Size) (center2 : Point)
    : Point :=
  let dx := Point.x center2 - Point.x center1 in
  let dy := Point.y center2 - Point.y center1 in
  if Qeq_bool dx 0 && Qeq_bool dy 0 then center1
  else
    let aspect := Size.width size1 / Size.height size1 in
    let absDx := Qabs dx in
    let absDy := Qabs dy in
    let scale :=
      if Qgtb absDx (aspect * absDy)
      then (* Intersects left or right *) (Size.width size1 / 2) / absDx
      else (* Intersects top or bottom *) (Size.height size1 / 2) / absDy in
    Point.mk (Point.x center1 + dx * scale) (Point.y center1 + dy * scale).

Definition getCenter (x y width height : Q) : Point :=
  Point.mk (x + width / 2) (y + height / 2).

(** ** Canvas.tsx: geometry helpers and routing *)

Definition TABLE_SIZE : Size := Size.mk 280 200.

(** [Array.prototype.findIndex]: the first index whose element satisfies
    [p], [-1] when there is none. *)
Fixpoint findIndexFrom {A : Type} (p : A -> bool) (l : list A) (i : Z) : Z :=
  match l with
  | [] => (-1)%Z
  | a :: l' => if p a then i else findIndexFrom p l' (i + 1)%Z
  end.

Definition findIndex {A : Type} (p : A -> bool) (l : list A) : Z :=
  findIndexFrom p l 0%Z.

(** [String.prototype.length] as a number. *)
Definition strlen (s : string) : Q := inject_Z (Z.of_nat (String.length s)).

(** [Array.prototype.length] as a number. *)
Definition arrlen {A : Type} (l : list A) : Q := inject_Z (Z.of_nat (length l)).

Definition getTableDescHeight (table : Table) : Q :=
  match Table.description table with
  | Some d =>
      if truthy (Some d)
      then inject_Z (Qceiling (strlen d / 42)) * 16 + 10
      else 0
  | None => 0
  end.

Definition calculateTableHeight (table : Table) : Q :=
  let base := 40 + 8 + 35 in
  let descHeight := getTableDescHeight table in
  (* Add image height (128px for h-32) *)
  let imageHeight := if truthy (Table.imageUrl table) then 128 else 0 in
  base + (arrlen (Table.fields table) * 33) + descHeight + imageHeight.

Definition getFieldPosition (table : Table) (fieldId : option string) : Point :=
  if negb (truthy fieldId) then
    let h := calculateTableHeight table in
    getCenter (Table.x table) (Table.y table) (Size.width TABLE_SIZE) h
  else
    let fieldIndex :=
      findIndex (fun f => opt_eqb (Some (Field.id f)) fieldId)
                (Table.fields table) in
    if (fieldIndex =? -1)%Z then
      let h := calculateTableHeight table in
      getCenter (Table.x table) (Table.y table) (Size.width TABLE_SIZE) h
    else
      let headerHeight := 40 in
      let descHeight := getTableDescHeight table in
      let imageHeight := if truthy (Table.imageUrl table) then 128 else 0 in
      let fieldsPaddingTop := 8 in
      let fieldRowHeight := 33 in
      let yOffset :=
        headerHeight + descHeight + imageHeight + fieldsPaddingTop
        + (inject_Z fieldIndex * fieldRowHeight) + (fieldRowHeight / 2) in
      Point.mk (Table.x table + Size.width TABLE_SIZE) (Table.y table + yOffset).

(** The [d] attribute of the rendered path: [M start C cp1, cp2, end] or
    [M start L end]. *)
Inductive PathD : Type :=
  | CubicPath (start cp1 cp2 end_ : Point)
  | LinePath (start end_ : Point).

(** What [renderConnectionLine] paints for one relationship.  The arrow head
    is rotated by [atan2 (dy, dx)]; the record keeps the vector [(dx, dy)]. *)
Record ConnectionLine : Type := mkConnectionLine {
  cl_key : string;
  cl_pathD : PathD;
  cl_stroke : string;
  cl_opacity : Q;
  cl_arrowAt : Point;
  cl_arrowVector : Point;
  cl_mid : Point;
  cl_showFlow : bool
}.

Definition setX (p : Point) (x : Q) : Point := Point.mk x (Point.y p).

(** The [if (isFieldConnection) ... else ...] block of
    [renderConnectionLine]: the path, its [start] and [end] and the vector
    the arrow angle is taken from. *)
Definition routePath (r : Relationship) (source target : Table)
    : PathD * Point * Point * Point :=
  let isFieldConnection :=
    truthy (Relationship.sourceFieldId r)
    || truthy (Relationship.targetFieldId r) in
  if isFieldConnection then
    (* Initial Positions *)
    let p1 :=
      if truthy (Relationship.sourceFieldId r)
      then getFieldPosition source (Relationship.sourceFieldId r)
      else getCenter (Table.x source) (Table.y source)
                     (Size.width TABLE_SIZE) (calculateTableHeight source) in
    let p2 :=
      if truthy (Relationship.targetFieldId r)
      then getFieldPosition target (Relationship.targetFieldId r)
      else getCenter (Table.x target) (Table.y target)
                     (Size.width TABLE_SIZE) (calculateTableHeight target) in
    let dir1 := Point.mk 1 0 in (* Default source outgoing direction (Right) *)
    let dir2 := Point.mk 1 0 in (* Default target outgoing normal (Right) *)
    (* Adjust points and normals based on relative position *)
    let '(p1, p2, dir1, dir2) :=
      if Qgtb (Table.x target) (Table.x source) then
        (* Target is right of source. *)
        if truthy (Relationship.targetFieldId r)
        then (p1, setX p2 (Table.x target), dir1, Point.mk (-1) 0)
        else (p1, p2, dir1, dir2)
      else
        (* Target is left of source. *)
        if truthy (Relationship.sourceFieldId r)
        then (setX p1 (Table.x source), p2, Point.mk (-1) 0, dir2)
        else (p1, p2, dir1, dir2) in
    let start := p1 in
    let end_ := p2 in
    let cp1 := Point.mk (Point.x start + Point.x dir1 * 50)
                        (Point.y start + Point.y dir1 * 50) in
    let cp2 := Point.mk (Point.x end_ + Point.x dir2 * 50)
                        (Point.y end_ + Point.y dir2 * 50) in
    (* arrow angle based on tangent at end (end - cp2) *)
    (CubicPath start cp1 cp2 end_, start, end_,
     Point.mk (Point.x end_ - Point.x cp2) (Point.y end_ - Point.y cp2))
  else
    (* General Table-to-Table connection (fallback) *)
    let sourceH := calculateTableHeight source in
    let targetH := calculateTableHeight target in
    let sourceCenter :=
      getCenter (Table.x source) (Table.y source)
                (Size.width TABLE_SIZE) sourceH in
    let targetCenter :=
      getCenter (Table.x target) (Table.y target)
                (Size.width TABLE_SIZE) targetH in
    let start :=
      getIntersection sourceCenter
        (Size.mk (Size.width TABLE_SIZE) sourceH) targetCenter in
    let end_ :=
      getIntersection targetCenter
        (Size.mk (Size.width TABLE_SIZE) targetH) sourceCenter in
    (LinePath start end_, start, end_,
     Point.mk (Point.x end_ - Point.x start) (Point.y end_ - Point.y start)).

(** [renderConnectionLine(r)]; [None] is the [null] it returns. *)
Definition renderConnectionLine (st : State) (r : Relationship)
    : option ConnectionLine :=
  let source :=
    find (fun t => String.eqb (Table.id t) (Relationship.sourceTableId r))
         (tables st) in
  let target :=
    find (fun t => String.eqb (Table.id t) (Relationship.targetTableId r))
         (tables st) in
  match source, target with
  | Some source, Some target =>
      let color :=
        match truthy_val (Relationship.color r) with
        | Some c => c
        | None => "#3b82f6" (* Default to Blue if no color is set *)
        end in
      let isDimmed :=
        truthy (highlightedColor st)
        && negb (opt_eqb (Relationship.color r) (highlightedColor st)) in
      let opacity := if isDimmed then 1 # 10 else 1 in
      let '(pathD, start, end_, arrow) := routePath r source target in
      let midX := (Point.x start + Point.x end_) / 2 in
      let midY := (Point.y start + Point.y end_) / 2 in
      (* Don't show flow animation while dragging to avoid jitter *)
      let showFlow := negb (truthy (draggingTableId st)) in
      Some (mkConnectionLine (Relationship.id r) pathD color opacity end_
                             arrow (Point.mk midX midY) showFlow)
  | _, _ => None
  end.

(** [relationships.map(renderConnectionLine)]: the paths of the SVG layer;
    React paints nothing for a [null] child. *)
Definition renderedLines (st : State) : list ConnectionLine :=
  flat_map (fun r => match renderConnectionLine st r with
                     | Some l => [l]
                     | None => []
                     end)
           (relationships st).

(** ** App.tsx: import of a project file *)

(** The values [JSON.parse] produces. *)
#[local] Set Warnings "-register-all".
Inductive JSON : Type :=
  | JNull
  | JBool (b : bool)
  | JNumber (q : Q)
  | JString (s : string)
  | JArray (items : list JSON)
  | JObject (members : list (string * JSON)).

(** Truthiness of a property read; [None] is [undefined]. *)
Definition truthyJ (v : option JSON) : bool :=
  match v with
  | None => false
  | Some JNull => false
  | Some (JBool b) => b
  | Some (JNumber q) => negb (Qeq_bool q 0)
  | Some (JString s) => negb (String.eqb s "")
  | Some (JArray _) => true
  | Some (JObject _) => true
  end.

(** [Array.isArray(v)] *)
Definition isArray (v : option JSON) : bool :=
  match v with
  | Some (JArray _) => true
  | _ => false
  end.

(** [data.key] for the keys [tables] and [relationships], which no array,
    string, number or boolean carries.  The outer [None] is the TypeError
    thrown when [data] is [null]. *)
Definition getProp (data : JSON) (key : string) : option (option JSON) :=
  match data with
  | JNull => None
  | JObject members =>
      Some (match find (fun m => String.eqb (fst m) key) members with
            | Some m => Some (snd m)
            | None => None
            end)
  | _ => Some None
  end.

Definition itemsOf (v : option JSON) : list JSON :=
  match v with
  | Some (JArray items) => items
  | _ => []
  end.

Section ImportHandler.

(** [JSON.parse]; [None] when it throws a SyntaxError. *)
Variable JSON_parse : string -> option JSON.

(** How an unchecked array of parsed values is seen through the types
    [Table[]] and [Relationship[]] it is stored under. *)
Variable asTables : list JSON -> list Table.
Variable asRelationships : list JSON -> list Relationship.

(** The body of the [try] block of [reader.onload]; [None] when it throws.
    The second component lists the [alert] messages shown. *)
Definition onloadTry (content : string) (st : State)
    : option (State * list string) :=
  match JSON_parse content with
  | None => None
  | Some data =>
      match getProp data "tables" with
      | None => None
      | Some dataTables =>
          if truthyJ dataTables && isArray dataTables then
            match getProp data "relationships" with
            | None => None
            | Some dataRelationships =>
                if truthyJ dataRelationships && isArray dataRelationships
                then
                  Some (onRelationshipsUpdate
                          (asRelationships (itemsOf dataRelationships))
                          (onTablesUpdate (asTables (itemsOf dataTables)) st),
                        [])
                else
                  Some (st, ["Invalid file format. Please upload a valid JSON file."])
            end
          else
            Some (st, ["Invalid file format. Please upload a valid JSON file."])
      end
  end.

(** [reader.onload] of [handleFileChange], run on the text of the file. *)
Definition handleFileChange (content : string) (st : State)
    : State * list string :=
  match onloadTry content st with
  | Some result => result
  | None => (st, ["Failed to parse the file."])
  end.

(** A parsed value has the graph shape when [tables] and [relationships]
    are both present as arrays. *)
Definition hasGraphShape (data : JSON) : Prop :=
  exists members ts rs,
    data = JObject members
    /\ find (fun m => String.eqb (fst m) "tables") members
       = Some ("tables", JArray ts)
    /\ find (fun m => String.eqb (fst m) "relationships") members
       = Some ("relationships", JArray rs).

End ImportHandler.

(** ** Vocabulary of the properties *)

(** [Removed P l l']: [l'] is [l] with exactly the elements satisfying [P]
    taken out and every other element left in place. *)
Inductive Removed {A : Type} (P : A -> Prop) : list A -> list A -> Prop :=
  | Removed_nil : Removed P [] []
  | Removed_drop (a : A) (l l' : list A) :
      P a -> Removed P l l' -> Removed P (a :: l) l'
  | Removed_keep (a : A) (l l' : list A) :
      ~ P a -> Removed P l l' -> Removed P (a :: l) (a :: l').

(** An endpoint of a relationship: a table and, optionally, one of its
    fields. *)
Definition Endpoint : Type := (string * option string)%type.

Definition startEndpoint (c : ConnectionState) : Endpoint :=
  (cs_tableId c, cs_fieldId c).

(** [r] goes from endpoint [a] to endpoint [b]. *)
Definition connects (a b : Endpoint) (r : Relationship) : bool :=
  String.eqb (Relationship.sourceTableId r) (fst a)
  && String.eqb (Relationship.targetTableId r) (fst b)
  && opt_eqb (Relationship.sourceFieldId r) (snd a)
  && opt_eqb (Relationship.targetFieldId r) (snd b).

(** [r] joins [a] and [b], in this order or mirrored. *)
Definition between (a b : Endpoint) (r : Relationship) : bool :=
  connects a b r || connects b a r.

Definition countBetween (a b : Endpoint) (rels : list Relationship) : nat :=
  length (filter (between a b) rels).

(** The whole gesture from Idle: a click on the handle of [a], then a click
    on the handle of [b]. *)
Definition connectGesture (a b : Endpoint) (uuid : string) (rnd : Q)
    (st : State) : State :=
  handleConnect (fst b) (snd b) uuid rnd
    (handleConnect (fst a) (snd a) uuid rnd st).

(** The relationship [handleConnect] builds when it completes a gesture. *)
Definition newRelationship (rels : list Relationship) (start : ConnectionState)
    (tableId : string) (fieldId : option string) (uuid : string) (rnd : Q)
    : Relationship :=
  Relationship.mk uuid (cs_tableId start) (cs_fieldId start) tableId fieldId
                  OneToN None (connectColor rels start tableId fieldId rnd).

(** [r] touches the field [fid] of table [tid], as source or as target. *)
Definition touchesField (tid : string) (fid : option string)
    (r : Relationship) : bool :=
  (String.eqb (Relationship.sourceTableId r) tid
   && opt_eqb (Relationship.sourceFieldId r) fid)
  || (String.eqb (Relationship.targetTableId r) tid
      && opt_eqb (Relationship.targetFieldId r) fid).

(** [r] touches table [tid] at any level. *)
Definition touchesTable (tid : string) (r : Relationship) : bool :=
  String.eqb (Relationship.sourceTableId r) tid
  || String.eqb (Relationship.targetTableId r) tid.

(** The color a rule of the priority list offers: that of the first
    relationship of the collection that [touches], when it carries one. *)
Definition offeredColor (touches : Relationship -> bool)
    (rels : list Relationship) : option string :=
  match find touches rels with
  | Some r => truthy_val (Relationship.color r)
  | None => None
  end.

(** The first offer of a priority list, [fallback] when no rule offers. *)
Fixpoint firstMatch (offers : list (option string)) (fallback : option string)
    : option string :=
  match offers with
  | [] => fallback
  | Some c :: _ => Some c
  | None :: rest => firstMatch rest fallback
  end.

(** The color assignment in the words of the specification: the four
    inheritance rules in priority order, then the palette. *)
Definition colorByPriority (rels : list Relationship) (source target : Endpoint)
    (rnd : Q) : option string :=
  firstMatch
    [ if truthy (snd source)
      then offeredColor (touchesField (fst source) (snd source)) rels
      else None;
      if truthy (snd target)
      then offeredColor (touchesField (fst target) (snd target)) rels
      else None;
      offeredColor (touchesTable (fst source)) rels;
      offeredColor (touchesTable (fst target)) rels ]
    (randomPaletteColor rnd).

(** A reference of a relationship that no longer resolves: one of its table
    ids names no table, or one of its field ids names no field of the table
    it points into. *)
Definition resolvesField (st : State) (tid : string) (fid : option string)
    : bool :=
  match fid with
  | None => true
  | Some f =>
      match find (fun t => String.eqb (Table.id t) tid) (tables st) with
      | Some t => existsb (fun fl => String.eqb (Field.id fl) f) (Table.fields t)
      | None => false
      end
  end.

Definition resolvesTable (st : State) (tid : string) : bool :=
  existsb (fun t => String.eqb (Table.id t) tid) (tables st).

Definition dangling (st : State) (r : Relationship) : bool :=
  negb (resolvesTable st (Relationship.sourceTableId r)
        && resolvesTable st (Relationship.targetTableId r)
        && resolvesField st (Relationship.sourceTableId r)
                         (Relationship.sourceFieldId r)
        && resolvesField st (Relationship.targetTableId r)
                         (Relationship.targetFieldId r)).

(** The anchor of the field at index [i] of [table]. *)
Definition anchorAt (table : Table) (i : nat) : option Point :=
  match nth_error (Table.fields table) i with
  | Some f => Some (getFieldPosition table (Some (Field.id f)))
  | None => None
  end.

(** Field ids of a table are identities: pairwise distinct and not empty. *)
Definition fieldIdsWellFormed (table : Table) : Prop :=
  NoDup (map Field.id (Table.fields table))
  /\ Forall (fun f => Field.id f <> "") (Table.fields table).

(** [p] lies on the boundary of the axis-aligned rectangle of [size]
    centered at [center]: on a vertical edge or on a horizontal edge. *)
Definition onBoundary (center : Point) (size : Size) (p : Point) : Prop :=
  (Qabs (Point.x p - Point.x center) == Size.width size / 2
   /\ Qabs (Point.y p - Point.y center) <= Size.height size / 2)
  \/ (Qabs (Point.y p - Point.y center) == Size.height size / 2
      /\ Qabs (Point.x p - Point.x center) <= Size.width size / 2).

(** [p] lies on the ray that leaves [origin] toward [toward]. *)
Definition onRay (origin toward p : Point) : Prop :=
  exists s, 0 < s
    /\ Point.x p == Point.x origin + s * (Point.x toward - Point.x origin)
    /\ Point.y p == Point.y origin + s * (Point.y toward - Point.y origin).

(** The state after a sequence of wheel events, oldest first. *)
Definition wheelEvents (deltas : list Q) (st : State) : State :=
  fold_left (fun s deltaY => handleWheel deltaY s) deltas st.

(** ** A concrete diagram: the two tables and the relationship the editor
    starts with. *)

Definition usersTable : Table :=
  Table.mk "1" "Users" 100 100
    [ Field.mk "f1" "id" UUID true false false None;
      Field.mk "f2" "password" VARCHAR false false false None ]
    (Some "wingmentor portal") None None None.

Definition postsTable : Table :=
  Table.mk "2" "Posts" 500 100
    [ Field.mk "p1" "pathways" UUID false false true None;
      Field.mk "p2" "programs" UUID false false true None;
      Field.mk "p3" "systems" VARCHAR false false true None ]
    (Some "platform page") None None None.

Definition accessRel : Relationship :=
  Relationship.mk "r1" "1" (Some "f1") "2" (Some "p2") OneToN
                  (Some "access") (Some "#8b5cf6").

Definition initialState : State :=
  mkState [usersTable; postsTable] [accessRel] None 1 (Point.mk 0 0)
          false (Point.mk 0 0) None None None None (Point.mk 0 0).

(** A table whose two fields carry the same id. *)
Definition twinFieldsTable : Table :=
  Table.mk "t" "Twins" 0 0
    [ Field.mk "a" "first" INT false false true None;
      Field.mk "a" "second" INT false false true None ]
    None None None None.

(** A third table, Tags. *)
Definition tagsTable : Table :=
  Table.mk "3" "Tags" 900 100
    [ Field.mk "g1" "label" VARCHAR false false false None ]
    None None None None.

(** Two relationships on Users: the first, between the tables Users and
    Posts, carries no color (the property is optional); the second, from the
    field [f1] to Tags, is red.  A connection is pending from the field [f2]
    of Users. *)
Definition uncoloredLink : Relationship :=
  Relationship.mk "a" "1" None "2" None OneToN None None.

Definition redLink : Relationship :=
  Relationship.mk "b" "1" (Some "f1") "3" (Some "g1") OneToN None
                  (Some "#ef4444").

Definition mixedPendingState : State :=
  mkState [usersTable; postsTable; tagsTable] [uncoloredLink; redLink] None 1
          (Point.mk 0 0) false (Point.mk 0 0) None
          (Some (mkConnectionState "1" (Some "f2"))) None None
          (Point.mk 0 0).

(** The starting diagram after the field [f1] of Users was removed. *)
Definition orphanedState : State :=
  handleRemoveField usersTable "f1" initialState.

(** The starting diagram with a connection pending from the handle of
    Users.id. *)
Definition pendingState : State :=
  handleConnect "1" (Some "f1") "u0" 0 initialState.

(** The two tables without any relationship, a connection pending from the
    handle of Users.id. *)
Definition isolatedPendingState : State :=
  handleConnect "1" (Some "f1") "u0" 0
    (onRelationshipsUpdate [] initialState).

(** A stand-in for [JSON.parse] that knows two texts. *)
Definition sampleParse (content : string) : option JSON :=
  if String.eqb content "null" then Some JNull
  else if String.eqb content "[]" then Some (JArray [])
  else None.

(** ** Canvas.tsx: pointer handlers, context menu and zoom buttons *)

Definition setOffset (o : Point) (st : State) : State :=
  mkState (tables st) (relationships st) (selectedTableId st) (zoom st) o
          (isDraggingCanvas st) (dragStart st) (draggingTableId st)
          (connectionStart st) (highlightedColor st) (contextMenu st)
          (mousePos st).

Definition onSelectTable (id : option string) (st : State) : State :=
  mkState (tables st) (relationships st) id (zoom st) (offset st)
          (isDraggingCanvas st) (dragStart st) (draggingTableId st)
          (connectionStart st) (highlightedColor st) (contextMenu st)
          (mousePos st).

Definition setIsDraggingCanvas (b : bool) (st : State) : State :=
  mkState (tables st) (relationships st) (selectedTableId st) (zoom st)
          (offset st) b (dragStart st) (draggingTableId st)
          (connectionStart st) (highlightedColor st) (contextMenu st)
          (mousePos st).

Definition setDragStart (p : Point) (st : State) : State :=
  mkState (tables st) (relationships st) (selectedTableId st) (zoom st)
          (offset st) (isDraggingCanvas st) p (draggingTableId st)
          (connectionStart st) (highlightedColor st) (contextMenu st)
          (mousePos st).

Definition setDraggingTableId (id : option string) (st : State) : State :=
  mkState (tables st) (relationships st) (selectedTableId st) (zoom st)
          (offset st) (isDraggingCanvas st) (dragStart st) id
          (connectionStart st) (highlightedColor st) (contextMenu st)
          (mousePos st).

Definition setMousePos (p : Point) (st : State) : State :=
  mkState (tables st) (relationships st) (selectedTableId st) (zoom st)
          (offset st) (isDraggingCanvas st) (dragStart st)
          (draggingTableId st) (connectionStart st) (highlightedColor st)
          (contextMenu st) p.

(** What the handlers read of a [React.MouseEvent]; [inContextMenu] is
    [(e.target as HTMLElement).closest('.context-menu')] being found. *)
Record MouseEvent : Type := mkMouseEvent {
  button : Z;
  clientX : Q;
  clientY : Q;
  movementX : Q;
  movementY : Q;
  inContextMenu : bool
}.

(** What the handlers read of [canvasRef.current.getBoundingClientRect()]. *)
Record DOMRect : Type := mkDOMRect {
  rect_left : Q;
  rect_top : Q
}.

Definition handleMouseDown (e : MouseEvent) (st0 : State) : State :=
  (* Check if clicking inside context menu, if so, return *)
  if inContextMenu e then st0
  else
    (* Close context menu on any interaction outside *)
    let st := closeContextMenu st0 in
    if (button e =? 0)%Z then (* Left click *)
      setConnectionStart None
        (onSelectTable None
           (setDragStart
              (Point.mk (clientX e - Point.x (offset st0))
                        (clientY e - Point.y (offset st0)))
              (setIsDraggingCanvas true st)))
    else st.

(** [handleMouseMove(e)]; [rect] is the bounding rectangle of the canvas
    element, [None] when [canvasRef.current] is null.  Every read is of the
    render the handler belongs to ([st0]). *)
Definition handleMouseMove (e : MouseEvent) (rect : option DOMRect)
    (st0 : State) : State :=
  (* Canvas Pan *)
  let st1 :=
    if isDraggingCanvas st0 then
      setOffset (Point.mk (clientX e - Point.x (dragStart st0))
                          (clientY e - Point.y (dragStart st0))) st0
    else st0 in
  (* Table Drag *)
  let st2 :=
    if truthy (draggingTableId st0) then
      let updatedTables :=
        map (fun t =>
               if opt_eqb (Some (Table.id t)) (draggingTableId st0) then
                 Table.mk (Table.id t) (Table.name t)
                          (Table.x t + movementX e / zoom st0)
                          (Table.y t + movementY e / zoom st0)
                          (Table.fields t) (Table.description t)
                          (Table.imageUrl t) (Table.width t)
                          (Table.isComplete t)
               else t)
            (tables st0) in
      onTablesUpdate updatedTables st1
    else st1 in
  (* Track mouse for connecting line preview *)
  match connectionStart st0, rect with
  | Some _, Some rect =>
      setMousePos
        (Point.mk
           ((clientX e - rect_left rect - Point.x (offset st0)) / zoom st0)
           ((clientY e - rect_top rect - Point.y (offset st0)) / zoom st0))
        st2
  | _, _ => st2
  end.

Definition handleMouseUp (st : State) : State :=
  setDraggingTableId None (setIsDraggingCanvas false st).

(** [handleTableMouseDown(e, tableId)]; [e.stopPropagation()] keeps the
    canvas' [handleMouseDown] from running for the same event. *)
Definition handleTableMouseDown (tableId : string) (st0 : State) : State :=
  let st := closeContextMenu st0 in
  (* If we are connecting, this click might be attempting to end connection *)
  match connectionStart st0 with
  | Some _ => st
  | None => setDraggingTableId (Some tableId) (onSelectTable (Some tableId) st)
  end.

(** [r.color || '#3b82f6'] *)
Definition effectiveColor (r : Relationship) : string :=
  match truthy_val (Relationship.color r) with
  | Some c => c
  | None => "#3b82f6"
  end.

Definition handleRelationshipContextMenu (e : MouseEvent) (r : Relationship)
    (rect : option DOMRect) (st : State) : State :=
  match rect with
  | Some rect =>
      setContextMenu
        (Some (mkContextMenuState (clientX e - rect_left rect)
                                  (clientY e - rect_top rect)
                                  (effectiveColor r) None None
                                  (Some (Relationship.id r))))
        st
  | None => st
  end.

Definition handleFieldContextMenu (e : MouseEvent) (tableId fieldId : string)
    (color : string) (rect : option DOMRect) (st : State) : State :=
  (* Find relationship associated with this field to allow specific editing *)
  let rel :=
    find (fun r =>
            (String.eqb (Relationship.sourceTableId r) tableId
             && opt_eqb (Relationship.sourceFieldId r) (Some fieldId))
            || (String.eqb (Relationship.targetTableId r) tableId
                && opt_eqb (Relationship.targetFieldId r) (Some fieldId)))
         (relationships st) in
  match rect with
  | Some rect =>
      setContextMenu
        (Some (mkContextMenuState (clientX e - rect_left rect)
                                  (clientY e - rect_top rect)
                                  color (Some tableId) (Some fieldId)
                                  (match rel with
                                   | Some r => Some (Relationship.id r)
                                   | None => None
                                   end)))
        st
  | None => st
  end.

(** The zoom buttons: [setZoom(z => Math.max(0.2, z - 0.1))] and
    [setZoom(z => Math.min(2, z + 0.1))]. *)
Definition zoomOutClick (st : State) : State :=
  setZoom (fun z => Qmax (2 # 10) (z - (1 # 10))) st.

Definition zoomInClick (st : State) : State :=
  setZoom (fun z => Qmin 2 (z + (1 # 10))) st.

(** The inputs that change the zoom. *)
Inductive ZoomInput : Type :=
  | WheelBy (deltaY : Q)
  | ZoomInButton
  | ZoomOutButton.

Definition zoomStep (st : State) (i : ZoomInput) : State :=
  match i with
  | WheelBy deltaY => handleWheel deltaY st
  | ZoomInButton => zoomInClick st
  | ZoomOutButton => zoomOutClick st
  end.

(** The state after a sequence of pointer moves, oldest first. *)
Definition mouseMoves (moves : list MouseEvent) (rect : option DOMRect)
    (st : State) : State :=
  fold_left (fun s e => handleMouseMove e rect s) moves st.

(** A table moved on the screen by [(dx, dy)] at zoom [z], everything else
    of it kept. *)
Definition movedOnScreen (dx dy z : Q) (t t' : Table) : Prop :=
  (Table.x t' - Table.x t) * z == dx
  /\ (Table.y t' - Table.y t) * z == dy
  /\ Table.id t' = Table.id t
  /\ Table.name t' = Table.name t
  /\ Table.fields t' = Table.fields t
  /\ Table.description t' = Table.description t
  /\ Table.imageUrl t' = Table.imageUrl t.

(** ** Canvas.tsx and TableNode.tsx: field colors and the focus filter *)

(** A [Record<string, string>] as the list of the writes made to it, newest
    first.  The object is a plain one: [readProperty] is a read of it. *)
Definition ColorMap : Type := list (string * string).

(** [map[k] = v] *)
Definition mapSet (k v : string) (m : ColorMap) : ColorMap := (k, v) :: m.

(** The newest write of the key [k]: this is [map[k]] for every key that
    [Object.prototype] does not define; [readProperty] covers the others. *)
Fixpoint mapGet (k : string) (m : ColorMap) : option string :=
  match m with
  | [] => None
  | (k', v) :: m' => if String.eqb k' k then Some v else mapGet k m'
  end.

(** The property names that a plain object inherits from
    [Object.prototype]. *)
Definition objectPrototypeKeys : list string :=
  [ "constructor"; "hasOwnProperty"; "isPrototypeOf"; "propertyIsEnumerable";
    "toLocaleString"; "toString"; "valueOf"; "__proto__";
    "__defineGetter__"; "__defineSetter__"; "__lookupGetter__";
    "__lookupSetter__" ].

(** What [map[k]] reads: [undefined], a string written before, or a value
    inherited from [Object.prototype] (a function, or the prototype itself
    for [__proto__]), which is truthy and equal to no string. *)
Inductive PropertyRead : Type :=
  | ReadUndefined
  | ReadString (c : string)
  | ReadInherited.

(** [map[k]] on the plain object.  [__proto__] is an accessor: writing a
    string to it is dropped and reading it gives the prototype.  Any other
    inherited property is shadowed by a write. *)
Definition readProperty (k : string) (m : ColorMap) : PropertyRead :=
  if String.eqb k "__proto__" then ReadInherited
  else
    match mapGet k m with
    | Some c => ReadString c
    | None =>
        if existsb (String.eqb k) objectPrototypeKeys
        then ReadInherited else ReadUndefined
    end.

(** [read === color] for a color that is a string or [null]: only a string
    read can be identical to it. *)
Definition readIs (read : PropertyRead) (color : option string) : bool :=
  match read with
  | ReadString c => opt_eqb (Some c) color
  | ReadUndefined | ReadInherited => false
  end.

(** [if (fieldId) map[fieldId] = color] *)
Definition writeFieldColor (fieldId : option string) (color : string)
    (map : ColorMap) : ColorMap :=
  match fieldId with
  | Some f => if truthy (Some f) then mapSet f color map else map
  | None => map
  end.

(** The body of the [forEach] of [fieldColors]: the writes of one
    relationship, source field first.  Blue is used when no color is set. *)
Definition colorWrites (map : ColorMap) (r : Relationship) : ColorMap :=
  writeFieldColor (Relationship.targetFieldId r) (effectiveColor r)
    (writeFieldColor (Relationship.sourceFieldId r) (effectiveColor r) map).

(** Compute map of field ID -> Color based on active relationships. *)
Definition fieldColors (relationships : list Relationship) : ColorMap :=
  fold_left colorWrites relationships [].

(** TableNode: [highlightedColor && !hasHighlightedField]. *)
Definition isTableDimmed (table : Table) (colors : ColorMap)
    (highlighted : option string) : bool :=
  let hasHighlightedField :=
    if truthy highlighted
    then existsb (fun f => readIs (readProperty (Field.id f) colors)
                                  highlighted)
                 (Table.fields table)
    else true in
  truthy highlighted && negb hasHighlightedField.

(** TableNode: the opacity of a field row. *)
Definition fieldOpacity (fieldColor highlighted : option string) : Q :=
  if truthy highlighted then
    if opt_eqb fieldColor highlighted then 1
    else if truthy fieldColor then 2 # 10
    else 5 # 10
  else 1.

(** The field id [fid] is the source or the target field of [r]. *)
Definition referencesField (fid : string) (r : Relationship) : bool :=
  opt_eqb (Relationship.sourceFieldId r) (Some fid)
  || opt_eqb (Relationship.targetFieldId r) (Some fid).

(** The two endpoints of a relationship. *)
Definition sourceOf (r : Relationship) : Endpoint :=
  (Relationship.sourceTableId r, Relationship.sourceFieldId r).

Definition targetOf (r : Relationship) : Endpoint :=
  (Relationship.targetTableId r, Relationship.targetFieldId r).

(** [r] joins an endpoint to itself. *)
Definition selfConnected (r : Relationship) : bool :=
  String.eqb (Relationship.sourceTableId r) (Relationship.targetTableId r)
  && opt_eqb (Relationship.sourceFieldId r) (Relationship.targetFieldId r).

(** No relationship joins an endpoint to itself and no two relationships
    join the same endpoints, in the same order or mirrored. *)
Definition wellConnected (rels : list Relationship) : Prop :=
  Forall (fun r => selfConnected r = false) rels
  /\ ForallOrdPairs (fun r r' => between (sourceOf r) (targetOf r) r' = false)
                    rels.

(** The [Delete Connection] entry of the context menu, shown when the menu
    carries a relationship id. *)
Definition menuDeleteConnection (st : State) : State :=
  match contextMenu st with
  | Some cm =>
      match cm_relationshipId cm with
      | Some id =>
          if truthy (Some id)
          then setContextMenu None (handleRelationshipDelete id st)
          else st
      | None => st
      end
  | None => st
  end.

(** [{ ...r, color: newColor }] *)
Definition recolored (newColor : string) (r : Relationship) : Relationship :=
  Relationship.mk (Relationship.id r) (Relationship.sourceTableId r)
                  (Relationship.sourceFieldId r) (Relationship.targetTableId r)
                  (Relationship.targetFieldId r) (Relationship.cardinality r)
                  (Relationship.label r) (Some newColor).

(** ** Canvas.tsx: the preview line of a pending connection *)

Record PreviewLine : Type := mkPreviewLine {
  pv_start : Point;
  pv_end : Point
}.

(** [renderPreviewLine()]; [None] is the [null] it returns.  [mousePos] is
    always an object, so [!mousePos] never holds. *)
Definition renderPreviewLine (st : State) : option PreviewLine :=
  match connectionStart st with
  | None => None
  | Some start_ =>
      match find (fun t => String.eqb (Table.id t) (cs_tableId start_))
                 (tables st) with
      | None => None
      | Some source =>
          let start :=
            if truthy (cs_fieldId start_) then
              let start := getFieldPosition source (cs_fieldId start_) in
              if Qgtb (Table.x source) (Point.x (mousePos st))
              then setX start (Table.x source)
              else start
            else
              let sourceH := calculateTableHeight source in
              let sourceCenter :=
                getCenter (Table.x source) (Table.y source)
                          (Size.width TABLE_SIZE) sourceH in
              getIntersection sourceCenter
                (Size.mk (Size.width TABLE_SIZE) sourceH) (mousePos st) in
          Some (mkPreviewLine start (mousePos st))
      end
  end.

(** The rendered bounding box of a table: its center and its size. *)
Definition tableCenter (t : Table) : Point :=
  getCenter (Table.x t) (Table.y t) (Size.width TABLE_SIZE)
            (calculateTableHeight t).

Definition tableSize (t : Table) : Size :=
  Size.mk (Size.width TABLE_SIZE) (calculateTableHeight t).

(** ** App.tsx: adding a table *)

(** [handleAddTable()]; [innerWidth] and [innerHeight] are those of the
    window, [tableUuid] and [fieldUuid] what the two calls of
    [crypto.randomUUID()] return, in this order. *)
Definition handleAddTable (innerWidth innerHeight : Q)
    (tableUuid fieldUuid : string) (st : State) : State :=
  let sidebarWidth := 320 in
  let viewportWidth := innerWidth - sidebarWidth in
  let viewportHeight := innerHeight in
  let cx := viewportWidth / 2 in
  let cy := viewportHeight / 2 in
  (* World = (Screen - Offset) / Zoom *)
  let worldX := (cx - Point.x (offset st)) / zoom st in
  let worldY := (cy - Point.y (offset st)) / zoom st in
  let newTable :=
    Table.mk tableUuid "New_Table" (worldX - 140) (worldY - 100)
             [Field.mk fieldUuid "id" INT true false false None]
             (Some "") None None None in
  onSelectTable (Some (Table.id newTable))
    (onTablesUpdate (tables st ++ [newTable])%list st).

(** ** TableNode.tsx: adding and editing fields *)

(** A number in a template literal, for a natural number. *)
Definition numberToString (n : nat) : string :=
  DecimalString.NilZero.string_of_uint (Nat.to_uint n).

(** The [fields] update that [handleAddField] passes to [onUpdate]. *)
Definition addedFields (table : Table) (uuid : string) : list Field :=
  let newField :=
    Field.mk uuid
             ("field_" ++ numberToString (length (Table.fields table) + 1))
             VARCHAR false false true (Some "") in
  (Table.fields table ++ [newField])%list.

Definition handleAddField (table : Table) (uuid : string) (st : State)
    : State :=
  handleTableUpdate (Table.id table)
    (mkTableUpdates None None None None (Some (addedFields table uuid))
                    None None None None)
    st.

(** [Partial<Field>] *)
Record FieldUpdates : Type := mkFieldUpdates {
  fu_id : option string;
  fu_name : option string;
  fu_type : option FieldType;
  fu_isPrimaryKey : option bool;
  fu_isForeignKey : option bool;
  fu_isNullable : option bool;
  fu_description : option (option string)
}.

(** [{ ...f, ...updates }] *)
Definition spreadField (f : Field) (u : FieldUpdates) : Field :=
  Field.mk (override (Field.id f) (fu_id u))
           (override (Field.name f) (fu_name u))
           (override (Field.type f) (fu_type u))
           (override (Field.isPrimaryKey f) (fu_isPrimaryKey u))
           (override (Field.isForeignKey f) (fu_isForeignKey u))
           (override (Field.isNullable f) (fu_isNullable u))
           (override (Field.description f) (fu_description u)).

(** The [fields] update that [handleUpdateField] passes to [onUpdate]. *)
Definition updatedFields (table : Table) (fieldId : string)
    (updates : FieldUpdates) : list Field :=
  map (fun f => if String.eqb (Field.id f) fieldId
                then spreadField f updates else f)
      (Table.fields table).

Definition handleUpdateField (table : Table) (fieldId : string)
    (updates : FieldUpdates) (st : State) : State :=
  handleTableUpdate (Table.id table)
    (mkTableUpdates None None None None
                    (Some (updatedFields table fieldId updates))
                    None None None None)
    st.

(** [table] with its fields replaced, as [handleTableUpdate] leaves it. *)
Definition withFields (table : Table) (fields : list Field) : Table :=
  spreadTable table
    (mkTableUpdates None None None None (Some fields) None None None None).

(** ** App.tsx: the SQL export *)

(** The line feed of the template literals. *)
Definition LF : string := String (Ascii.ascii_of_nat 10) EmptyString.

(** A [FieldType] is the string of its name. *)
Definition fieldTypeName (t : FieldType) : string :=
  match t with
  | INT => "INT" | VARCHAR => "VARCHAR" | TEXT => "TEXT"
  | BOOLEAN => "BOOLEAN" | DATE => "DATE" | TIMESTAMP => "TIMESTAMP"
  | DECIMAL => "DECIMAL" | UUID => "UUID"
  end.

(** [Array.prototype.join] *)
Fixpoint join (sep : string) (l : list string) : string :=
  match l with
  | [] => ""
  | [a] => a
  | a :: l' => a ++ sep ++ join sep l'
  end.

(** The line pushed for a field. *)
Definition fieldLine (f : Field) : string :=
  let line := "  " ++ Field.name f ++ " " ++ fieldTypeName (Field.type f) in
  let line := if Field.isPrimaryKey f then line ++ " PRIMARY KEY" else line in
  let line :=
    if negb (Field.isNullable f) && negb (Field.isPrimaryKey f)
    then line ++ " NOT NULL" else line in
  match truthy_val (Field.description f) with
  | Some d => line ++ " -- " ++ d
  | None => line
  end.

(** The foreign key clause of a resolved relationship. *)
Definition foreignKeyLine (sourceField : Field) (targetTable : Table)
    (targetField : Field) : string :=
  "  FOREIGN KEY (" ++ Field.name sourceField ++ ") REFERENCES "
  ++ Table.name targetTable ++ "(" ++ Field.name targetField ++ ")".

(** The lines pushed for the relationships whose source is [t]. *)
Definition foreignKeyLines (tables : list Table)
    (relationships : list Relationship) (t : Table) : list string :=
  flat_map
    (fun r =>
       let sourceField :=
         find (fun f => opt_eqb (Some (Field.id f))
                                (Relationship.sourceFieldId r))
              (Table.fields t) in
       let targetTable :=
         find (fun tbl => String.eqb (Table.id tbl)
                                     (Relationship.targetTableId r))
              tables in
       let targetField :=
         match targetTable with
         | Some tbl =>
             find (fun f => opt_eqb (Some (Field.id f))
                                    (Relationship.targetFieldId r))
                  (Table.fields tbl)
         | None => None
         end in
       match sourceField, targetTable, targetField with
       | Some sf, Some tbl, Some tf => [foreignKeyLine sf tbl tf]
       | _, _, _ => []
       end)
    (filter (fun r =>
               String.eqb (Relationship.sourceTableId r) (Table.id t)
               && truthy (Relationship.sourceFieldId r)
               && truthy (Some (Relationship.targetTableId r))
               && truthy (Relationship.targetFieldId r))
            relationships).

(** What one iteration of [tables.forEach] appends to [sql]. *)
Definition tableSQL (tables : list Table) (relationships : list Relationship)
    (t : Table) : string :=
  "-- Table: " ++ Table.name t ++ LF
  ++ (match truthy_val (Table.description t) with
      | Some d => "-- Description: " ++ d ++ LF
      | None => ""
      end)
  ++ "CREATE TABLE " ++ Table.name t ++ " (" ++ LF
  ++ join ("," ++ LF)
          (map fieldLine (Table.fields t)
           ++ foreignKeyLines tables relationships t)%list
  ++ LF ++ ");" ++ LF ++ LF.

Definition generateSQL (st : State) : string :=
  fold_left (fun sql t => sql ++ tableSQL (tables st) (relationships st) t)
            (tables st) "".

(** Two tables with the same id, name, fields and description: what the SQL
    export reads of a table. *)
Definition sameSchema (t t' : Table) : Prop :=
  Table.id t' = Table.id t
  /\ Table.name t' = Table.name t
  /\ Table.fields t' = Table.fields t
  /\ Table.description t' = Table.description t.

(** Sample inputs: a left press on the canvas, a press inside the context
    menu, a pointer move, the canvas rectangle right of the sidebar. *)
Definition samplePress : MouseEvent := mkMouseEvent 0 300 200 0 0 false.

Definition menuPress : MouseEvent := mkMouseEvent 0 300 200 0 0 true.

Definition sampleMove : MouseEvent := mkMouseEvent 0 340 260 40 60 false.

Definition sampleRect : DOMRect := mkDOMRect 320 0.

(** The starting diagram while Users is being dragged. *)
Definition draggingState : State := handleTableMouseDown "1" initialState.

(** The starting diagram with the flow of [r1] focused. *)
Definition focusedState : State :=
  setHighlightedColor (Some "#8b5cf6") initialState.

(** The starting diagram with the third table, Tags, linked to Posts. *)
Definition tagRel : Relationship :=
  Relationship.mk "r3" "3" (Some "g1") "2" (Some "p1") OneToN None
                  (Some "#10b981").

Definition threeTableState : State :=
  onRelationshipsUpdate [accessRel; tagRel]
    (onTablesUpdate [usersTable; postsTable; tagsTable] initialState).

(** The two tables joined by one table-level relationship. *)
Definition tableLevelRel : Relationship :=
  Relationship.mk "r2" "1" None "2" None OneToN None None.

Definition tableLinkState : State :=
  onRelationshipsUpdate [tableLevelRel] initialState.

(** * Properties *)

(** ** Comparisons *)

Lemma opt_eqb_eq (a b : option string) : opt_eqb a b = true <-> a = b.
Proof.
  destruct a as [s|], b as [s'|]; simpl; try (split; congruence).
  rewrite String.eqb_eq. split; congruence.
Qed.

Lemma opt_eqb_refl (a : option string) : opt_eqb a a = true.
Proof. now apply opt_eqb_eq. Qed.

Lemma opt_eqb_neq (a b : option string) : opt_eqb a b = false <-> a <> b.
Proof.
  rewrite <- opt_eqb_eq. destruct (opt_eqb a b); split; congruence.
Qed.

(** ** Setters leave the other cells alone *)

Lemma closeContextMenu_relationships (st : State) :
  relationships (closeContextMenu st) = relationships st.
Proof. unfold closeContextMenu. now destruct (contextMenu st). Qed.

Lemma closeContextMenu_connectionStart (st : State) :
  connectionStart (closeContextMenu st) = connectionStart st.
Proof. unfold closeContextMenu. now destruct (contextMenu st). Qed.

Lemma closeContextMenu_tables (st : State) :
  tables (closeContextMenu st) = tables st.
Proof. unfold closeContextMenu. now destruct (contextMenu st). Qed.

(** ** Cascading removal *)

Lemma Removed_filter {A : Type} (P : A -> Prop) (keep : A -> bool) :
  (forall a, keep a = false <-> P a) ->
  forall l, Removed P l (filter keep l).
Proof.
  intros Hk l. induction l as [|a l IH]; simpl.
  - constructor.
  - destruct (keep a) eqn:E.
    + apply Removed_keep; [|exact IH].
      intros HP. apply Hk in HP. congruence.
    + apply Removed_drop; [|exact IH]. now apply Hk.
Qed.

Lemma Removed_In {A : Type} (P : A -> Prop) (l l' : list A) :
  Removed P l l' -> forall a, In a l' <-> In a l /\ ~ P a.
Proof.
  induction 1 as [|a l l' HP _ IH|a l l' HP _ IH]; intros b; simpl.
  - tauto.
  - rewrite IH. split.
    + tauto.
    + intros [[->|Hin] Hn]; [contradiction|tauto].
  - rewrite IH. split.
    + intros [->|[Hin Hn]]; tauto.
    + intros [[->|Hin] Hn]; tauto.
Qed.

Lemma deletedTable_keep (id : string) (t : Table) :
  negb (String.eqb (Table.id t) id) = false <-> Table.id t = id.
Proof. rewrite negb_false_iff. apply String.eqb_eq. Qed.

Lemma deletedRel_keep (id : string) (r : Relationship) :
  negb (String.eqb (Relationship.sourceTableId r) id)
  && negb (String.eqb (Relationship.targetTableId r) id) = false
  <-> Relationship.sourceTableId r = id \/ Relationship.targetTableId r = id.
Proof.
  rewrite andb_false_iff, !negb_false_iff, !String.eqb_eq. tauto.
Qed.

(** C4. Deleting the table [id] takes out of the table collection exactly
    the tables whose id is [id], and out of the relationship collection
    exactly the relationships whose source table or target table is [id];
    every other table and relationship stays, unchanged and in place, and no
    other cell of the state is written. *)
Theorem handleTableDelete_exact (id : string) (st : State) :
  let st' := handleTableDelete id st in
  Removed (fun t => Table.id t = id) (tables st) (tables st')
  /\ Removed (fun r => Relationship.sourceTableId r = id
                       \/ Relationship.targetTableId r = id)
             (relationships st) (relationships st')
  /\ (forall t, In t (tables st') <-> In t (tables st) /\ Table.id t <> id)
  /\ (forall r, In r (relationships st') <->
                In r (relationships st)
                /\ Relationship.sourceTableId r <> id
                /\ Relationship.targetTableId r <> id)
  /\ (zoom st', offset st', connectionStart st', selectedTableId st')
     = (zoom st, offset st, connectionStart st, selectedTableId st).
Proof.
  cbn zeta. unfold handleTableDelete. cbn [tables relationships
    onTablesUpdate onRelationshipsUpdate zoom offset connectionStart
    selectedTableId].
  pose proof (Removed_filter _ _ (deletedTable_keep id) (tables st)) as HT.
  pose proof (Removed_filter _ _ (deletedRel_keep id) (relationships st)) as HR.
  split; [exact HT|]. split; [exact HR|]. split; [|split].
  - intros t. apply (Removed_In _ _ _ HT).
  - intros r. rewrite (Removed_In _ _ _ HR r). tauto.
  - reflexivity.
Qed.

(** ** Field removal *)

Lemma handleTableUpdate_relationships (id : string) (u : TableUpdates)
    (st : State) :
  relationships (handleTableUpdate id u st) = relationships st.
Proof. reflexivity. Qed.

Lemma handleRemoveField_relationships (table : Table) (fieldId : string)
    (st : State) :
  relationships (handleRemoveField table fieldId st) = relationships st.
Proof. reflexivity. Qed.

(** C1. Removing the field [f1] of table Users from the starting diagram
    takes the field out of the table but leaves the relationship collection
    as it was: the relationship [r1], whose source field is [f1], is still
    there, now pointing at a field that no longer exists. *)
Theorem handleRemoveField_keeps_relationship :
  map (fun t => map Field.id (Table.fields t)) (tables orphanedState)
    = [["f2"]; ["p1"; "p2"; "p3"]]
  /\ relationships orphanedState = relationships initialState
  /\ In accessRel (relationships orphanedState)
  /\ Relationship.sourceTableId accessRel = "1"
  /\ Relationship.sourceFieldId accessRel = Some "f1"
  /\ dangling orphanedState accessRel = true.
Proof. repeat split; try reflexivity. now left. Qed.

(** ** The connect gesture *)

Lemma handleConnect_start (tableId : string) (fieldId : option string)
    (uuid : string) (rnd : Q) (st : State) :
  connectionStart st = None ->
  relationships (handleConnect tableId fieldId uuid rnd st) = relationships st
  /\ connectionStart (handleConnect tableId fieldId uuid rnd st)
     = Some (mkConnectionState tableId fieldId).
Proof.
  intros H. unfold handleConnect.
  rewrite closeContextMenu_connectionStart, H. cbn.
  now rewrite closeContextMenu_relationships.
Qed.

Lemma handleConnect_end (tableId : string) (fieldId : option string)
    (uuid : string) (rnd : Q) (st : State) (start : ConnectionState) :
  connectionStart st = Some start ->
  connectionStart (handleConnect tableId fieldId uuid rnd st) = None
  /\ relationships (handleConnect tableId fieldId uuid rnd st)
     = if String.eqb (cs_tableId start) tableId
          && opt_eqb (cs_fieldId start) fieldId
       then relationships st
       else if existsb (between (startEndpoint start) (tableId, fieldId))
                       (relationships st)
       then relationships st
       else (relationships st
             ++ [newRelationship (relationships st) start tableId fieldId
                                 uuid rnd])%list.
Proof.
  intros H. unfold handleConnect.
  rewrite closeContextMenu_connectionStart, H.
  rewrite !closeContextMenu_relationships.
  change (fun r : Relationship =>
            (String.eqb (Relationship.sourceTableId r) (cs_tableId start)
             && String.eqb (Relationship.targetTableId r) tableId
             && opt_eqb (Relationship.sourceFieldId r) (cs_fieldId start)
             && opt_eqb (Relationship.targetFieldId r) fieldId)
            || (String.eqb (Relationship.sourceTableId r) tableId
                && String.eqb (Relationship.targetTableId r) (cs_tableId start)
                && opt_eqb (Relationship.sourceFieldId r) fieldId
                && opt_eqb (Relationship.targetFieldId r) (cs_fieldId start)))
    with (between (startEndpoint start) (tableId, fieldId)).
  destruct (String.eqb (cs_tableId start) tableId
            && opt_eqb (cs_fieldId start) fieldId).
  - cbn. now rewrite closeContextMenu_relationships.
  - destruct (existsb (between (startEndpoint start) (tableId, fieldId))
                      (relationships st)); cbn.
    + now rewrite closeContextMenu_relationships.
    + split; reflexivity.
Qed.

Lemma between_sym (a b : Endpoint) (r : Relationship) :
  between a b r = between b a r.
Proof. unfold between. apply orb_comm. Qed.

Lemma existsb_between_sym (a b : Endpoint) (rels : list Relationship) :
  existsb (between a b) rels = existsb (between b a) rels.
Proof.
  induction rels as [|r rels IH]; cbn; [reflexivity|].
  now rewrite IH, between_sym.
Qed.

Lemma same_endpoint_eqb (a b : Endpoint) :
  String.eqb (fst a) (fst b) && opt_eqb (snd a) (snd b) = true <-> a = b.
Proof.
  destruct a as [ta fa], b as [tb fb]; cbn.
  rewrite andb_true_iff, String.eqb_eq, opt_eqb_eq. split.
  - intros [-> ->]. reflexivity.
  - intros E. inversion E. auto.
Qed.

Lemma countBetween_none (a b : Endpoint) (rels : list Relationship) :
  existsb (between a b) rels = false -> countBetween a b rels = 0%nat.
Proof.
  unfold countBetween. induction rels as [|r rels IH]; cbn; auto.
  rewrite orb_false_iff. intros [-> H]. auto.
Qed.

Lemma countBetween_app (a b : Endpoint) (l l' : list Relationship) :
  countBetween a b (l ++ l') = (countBetween a b l + countBetween a b l')%nat.
Proof. unfold countBetween. now rewrite filter_app, length_app. Qed.

(** What a whole gesture from Idle does to the relationship collection. *)
Lemma connectGesture_relationships (a b : Endpoint) (uuid : string) (rnd : Q)
    (st : State) :
  connectionStart st = None ->
  connectionStart (connectGesture a b uuid rnd st) = None
  /\ relationships (connectGesture a b uuid rnd st)
     = if String.eqb (fst a) (fst b) && opt_eqb (snd a) (snd b)
       then relationships st
       else if existsb (between a b) (relationships st)
       then relationships st
       else (relationships st
             ++ [newRelationship (relationships st)
                   (mkConnectionState (fst a) (snd a)) (fst b) (snd b)
                   uuid rnd])%list.
Proof.
  intros H. unfold connectGesture.
  destruct (handleConnect_start (fst a) (snd a) uuid rnd st H) as [Hr Hc].
  destruct (handleConnect_end (fst b) (snd b) uuid rnd _ _ Hc) as [Hc' Hr'].
  split; [exact Hc'|]. rewrite Hr', Hr. cbn [cs_tableId cs_fieldId].
  unfold startEndpoint. cbn [cs_tableId cs_fieldId].
  now rewrite <- !surjective_pairing.
Qed.

Lemma newRelationship_between (rels : list Relationship) (a b : Endpoint)
    (uuid : string) (rnd : Q) :
  between a b (newRelationship rels (mkConnectionState (fst a) (snd a))
                               (fst b) (snd b) uuid rnd) = true.
Proof.
  unfold between, connects, newRelationship. cbn.
  now rewrite !String.eqb_refl, !opt_eqb_refl.
Qed.

(** C3. Completing the connect gesture leaves the relationship collection
    as it is (and returns to Idle) when the handle clicked is the pending
    source handle, or when a relationship already joins the two endpoints in
    this order or mirrored.  Hence, from Idle, connecting [a] to [b] and then
    again [a] to [b] or [b] to [a] adds nothing the second time, and endpoints
    joined by at most one relationship before are joined by at most one
    after. *)
Theorem handleConnect_silent_noop :
  (forall (st : State) (start : ConnectionState) (tableId : string)
          (fieldId : option string) (uuid : string) (rnd : Q),
      connectionStart st = Some start ->
      (startEndpoint start = (tableId, fieldId)
       \/ exists r, In r (relationships st)
                    /\ between (startEndpoint start) (tableId, fieldId) r = true) ->
      relationships (handleConnect tableId fieldId uuid rnd st)
        = relationships st
      /\ connectionStart (handleConnect tableId fieldId uuid rnd st) = None)
  /\
  (forall (st : State) (a b : Endpoint) (uuid1 uuid2 : string) (rnd1 rnd2 : Q)
          (mirrored : bool),
      connectionStart st = None ->
      let st1 := connectGesture a b uuid1 rnd1 st in
      let st2 := if mirrored then connectGesture b a uuid2 rnd2 st1
                 else connectGesture a b uuid2 rnd2 st1 in
      relationships st2 = relationships st1
      /\ ((countBetween a b (relationships st) <= 1)%nat ->
          (countBetween a b (relationships st2) <= 1)%nat)).
Proof.
  split.
  - intros st start tableId fieldId uuid rnd Hs Hcase.
    destruct (handleConnect_end tableId fieldId uuid rnd st start Hs)
      as [Hc Hr].
    split; [|exact Hc]. rewrite Hr.
    destruct Hcase as [Hsame | (r & Hin & Hb)].
    + apply (same_endpoint_eqb (startEndpoint start) (tableId, fieldId)) in Hsame.
      cbn [fst snd startEndpoint] in Hsame. now rewrite Hsame.
    + destruct (_ && _); [reflexivity|].
      assert (E : existsb (between (startEndpoint start) (tableId, fieldId))
                          (relationships st) = true).
      { apply existsb_exists. eauto. }
      now rewrite E.
  - intros st a b uuid1 uuid2 rnd1 rnd2 mirrored Hs st1 st2.
    destruct (connectGesture_relationships a b uuid1 rnd1 st Hs) as [Hc1 Hr1].
    fold st1 in Hc1, Hr1.
    assert (Hr2 : relationships st2 = relationships st1).
    { subst st2. destruct mirrored.
      - destruct (connectGesture_relationships b a uuid2 rnd2 st1 Hc1)
          as [_ ->].
        destruct (String.eqb (fst b) (fst a) && opt_eqb (snd b) (snd a)) eqn:E;
          [reflexivity|].
        assert (Ex : existsb (between b a) (relationships st1) = true);
          [|now rewrite Ex].
        rewrite Hr1.
        assert (E' : String.eqb (fst a) (fst b) && opt_eqb (snd a) (snd b)
                     = false).
        { destruct (_ && _) eqn:E'; [|reflexivity].
          apply same_endpoint_eqb in E'. subst b.
          rewrite String.eqb_refl, opt_eqb_refl in E. discriminate. }
        rewrite E'.
        destruct (existsb (between a b) (relationships st)) eqn:Ex.
        + now rewrite existsb_between_sym.
        + rewrite existsb_app. cbn.
          rewrite between_sym, newRelationship_between.
          now rewrite orb_true_r.
      - destruct (connectGesture_relationships a b uuid2 rnd2 st1 Hc1)
          as [_ ->].
        destruct (String.eqb (fst a) (fst b) && opt_eqb (snd a) (snd b)) eqn:E;
          [reflexivity|].
        assert (Ex : existsb (between a b) (relationships st1) = true);
          [|now rewrite Ex].
        rewrite Hr1.
        destruct (existsb (between a b) (relationships st)) eqn:Ex; [exact Ex|].
        rewrite existsb_app. cbn. rewrite newRelationship_between.
        now rewrite orb_true_r. }
    split; [exact Hr2|]. intros Hle. rewrite Hr2, Hr1.
    destruct (String.eqb (fst a) (fst b) && opt_eqb (snd a) (snd b));
      [exact Hle|].
    destruct (existsb (between a b) (relationships st)) eqn:Ex; [exact Hle|].
    rewrite countBetween_app, (countBetween_none _ _ _ Ex).
    unfold countBetween at 1. cbn [filter].
    rewrite newRelationship_between. cbn. lia.
Qed.

(** ** Color assignment *)

Lemma randomPaletteColor_in_palette (rnd : Q) :
  0 <= rnd -> rnd < 1 ->
  exists c, randomPaletteColor rnd = Some c /\ In c CONNECTION_COLORS.
Proof.
  intros H0 H1. unfold randomPaletteColor.
  change (inject_Z (Z.of_nat (length CONNECTION_COLORS))) with 12.
  set (i := Qfloor (rnd * 12)).
  assert (Hlo : (0 <= i)%Z).
  { apply (Qfloor_resp_le 0 (rnd * 12)). lra. }
  assert (Hhi : (i < 12)%Z).
  { rewrite Zlt_Qlt. apply Qle_lt_trans with (rnd * 12).
    - apply Qfloor_le.
    - change (inject_Z 12) with 12. lra. }
  destruct (i <? 0)%Z eqn:E; [apply Z.ltb_lt in E; lia|].
  destruct (nth_error CONNECTION_COLORS (Z.to_nat i)) as [c|] eqn:Ec.
  - exists c. split; [reflexivity|]. eapply nth_error_In; eauto.
  - apply nth_error_None in Ec. cbn [length CONNECTION_COLORS] in Ec. lia.
Qed.

Ltac reduce_guards :=
  repeat (progress (change (truthy None) with false; cbn [negb andb])).

Lemma connectColor_byPriority (rels : list Relationship)
    (start : ConnectionState) (tableId : string) (fieldId : option string)
    (rnd : Q) :
  connectColor rels start tableId fieldId rnd
  = colorByPriority rels (startEndpoint start) (tableId, fieldId) rnd.
Proof.
  unfold connectColor, colorByPriority, offeredColor, inheritFrom,
    truthy_val, touchesField, touchesTable, startEndpoint.
  cbn [fst snd firstMatch].
  repeat match goal with
         | |- context [find ?p rels] =>
             let r := fresh "r" in
             destruct (find p rels) as [r|];
             [destruct (Relationship.color r) as [?c|]|]
         end;
    destruct (truthy (cs_fieldId start)), (truthy fieldId);
    reduce_guards;
    repeat (match goal with
            | |- context [truthy (Some ?c)] =>
                let E := fresh "E" in
                destruct (truthy (Some c)) eqn:E
            end;
            reduce_guards; try congruence);
    reflexivity.
Qed.

Lemma find_none_of_all_false {A : Type} (p : A -> bool) (l : list A) :
  (forall a, In a l -> p a = false) -> find p l = None.
Proof.
  induction l as [|a l IH]; cbn; intros H; [reflexivity|].
  rewrite (H a (or_introl eq_refl)). apply IH. intros b Hb. apply H. now right.
Qed.

Lemma existsb_false_of_all_false {A : Type} (p : A -> bool) (l : list A) :
  (forall a, In a l -> p a = false) -> existsb p l = false.
Proof.
  induction l as [|a l IH]; cbn; intros H; [reflexivity|].
  rewrite (H a (or_introl eq_refl)). apply IH. intros b Hb. apply H. now right.
Qed.

Lemma touchesField_touchesTable (tid : string) (fid : option string)
    (r : Relationship) :
  touchesTable tid r = false -> touchesField tid fid r = false.
Proof.
  unfold touchesTable, touchesField. rewrite !orb_false_iff.
  intros [-> ->]. auto.
Qed.

Lemma between_touchesTable (a b : Endpoint) (r : Relationship) :
  touchesTable (fst a) r = false -> between a b r = false.
Proof.
  unfold touchesTable, between, connects. rewrite !orb_false_iff.
  intros [-> ->]. cbn. now rewrite andb_false_r.
Qed.

Lemma offeredColor_sound (touches : Relationship -> bool)
    (rels : list Relationship) (c : string) :
  offeredColor touches rels = Some c ->
  exists r, In r rels /\ touches r = true /\ Relationship.color r = Some c.
Proof.
  unfold offeredColor, truthy_val.
  destruct (find touches rels) as [r|] eqn:Hf; [|discriminate].
  apply find_some in Hf. destruct Hf as [Hin Ht].
  destruct (truthy (Relationship.color r)); [|discriminate].
  intros Hc. exists r. auto.
Qed.

Lemma offeredColor_complete (touches : Relationship -> bool)
    (rels : list Relationship) :
  (forall r, In r rels -> truthy (Relationship.color r) = true) ->
  (exists r, In r rels /\ touches r = true) ->
  exists c, offeredColor touches rels = Some c.
Proof.
  intros Hcol (r & Hin & Ht). unfold offeredColor, truthy_val.
  destruct (find touches rels) as [r'|] eqn:Hf.
  - apply find_some in Hf. destruct Hf as [Hin' _].
    specialize (Hcol r' Hin'). rewrite Hcol.
    destruct (Relationship.color r') as [c|]; [eauto|discriminate].
  - pose proof (find_none _ _ Hf r Hin). congruence.
Qed.

Lemma find_first {A : Type} (p : A -> bool) (l : list A) (r : A) :
  find p l = Some r
  <-> exists l1 l2, l = (l1 ++ r :: l2)%list
                    /\ (forall x, In x l1 -> p x = false) /\ p r = true.
Proof.
  induction l as [|a l IH]; cbn [find].
  - split; [discriminate|]. intros (l1 & l2 & H & _).
    destruct l1; discriminate.
  - destruct (p a) eqn:Ea.
    + split.
      * intros H. injection H as <-. exists [], l.
        split; [reflexivity|]. split; [intros x []|exact Ea].
      * intros (l1 & l2 & H & Hl1 & Hr). destruct l1 as [|b l1].
        -- cbn in H. injection H as -> _. reflexivity.
        -- cbn in H. injection H as <- _.
           rewrite (Hl1 a (or_introl eq_refl)) in Ea. discriminate.
    + rewrite IH. split.
      * intros (l1 & l2 & -> & Hl1 & Hr). exists (a :: l1), l2.
        split; [reflexivity|]. split; [|exact Hr].
        intros x [<-|Hx]; [exact Ea|now apply Hl1].
      * intros (l1 & l2 & H & Hl1 & Hr). destruct l1 as [|b l1].
        -- cbn in H. injection H as -> _. congruence.
        -- cbn in H. injection H as <- ->. exists l1, l2.
           split; [reflexivity|]. split; [|exact Hr].
           intros x Hx. apply Hl1. now right.
Qed.

(** A rule offers [c] exactly when the first relationship that touches
    carries the non-empty color [c]. *)
Lemma offeredColor_first (touches : Relationship -> bool)
    (rels : list Relationship) (c : string) :
  offeredColor touches rels = Some c
  <-> exists l1 r l2,
        rels = (l1 ++ r :: l2)%list
        /\ (forall x, In x l1 -> touches x = false)
        /\ touches r = true
        /\ Relationship.color r = Some c /\ c <> "".
Proof.
  unfold offeredColor, truthy_val, truthy. split.
  - destruct (find touches rels) as [r|] eqn:Hf; [|discriminate].
    apply find_first in Hf. destruct Hf as (l1 & l2 & Hl & Hl1 & Hr).
    destruct (Relationship.color r) as [c'|] eqn:Hc; [|discriminate].
    destruct (String.eqb c' "") eqn:E; cbn [negb]; [discriminate|].
    intros H. injection H as ->. apply String.eqb_neq in E.
    exists l1, r, l2. auto.
  - intros (l1 & r & l2 & Hl & Hl1 & Hr & Hc & Hne).
    assert (Hf : find touches rels = Some r).
    { apply find_first. exists l1, l2. auto. }
    rewrite Hf, Hc. apply String.eqb_neq in Hne. rewrite Hne. reflexivity.
Qed.

(** C5 (amended). The color block of [handleConnect] computes the color of
    the priority list: the color offered by the source field, else by the
    target field, else by the source table, else by the target table, else a
    palette color; a rule offers the color of the first relationship of the
    collection that touches its field or table, and only when that
    relationship carries one (otherwise the rule is skipped, whatever later
    relationships touch).  A
    completed gesture that creates a relationship appends exactly one, with
    that color.  In particular, when no relationship touches either table
    (and [Math.random()] is in [0, 1)), the new relationship gets a color of
    [CONNECTION_COLORS].  A rule offers a color exactly when the first
    relationship that touches its field or table carries that color, not
    empty; so when every relationship carries a color a rule offers one as
    soon as some relationship touches. *)
Theorem handleConnect_color_priority :
  (forall (st : State) (start : ConnectionState) (tableId : string)
          (fieldId : option string) (uuid : string) (rnd : Q),
      connectionStart st = Some start ->
      startEndpoint start <> (tableId, fieldId) ->
      existsb (between (startEndpoint start) (tableId, fieldId))
              (relationships st) = false ->
      exists r,
        relationships (handleConnect tableId fieldId uuid rnd st)
          = (relationships st ++ [r])%list
        /\ Relationship.color r
           = colorByPriority (relationships st) (startEndpoint start)
                             (tableId, fieldId) rnd)
  /\
  (forall (st : State) (start : ConnectionState) (tableId : string)
          (fieldId : option string) (uuid : string) (rnd : Q),
      connectionStart st = Some start ->
      startEndpoint start <> (tableId, fieldId) ->
      (forall r, In r (relationships st) ->
                 touchesTable (cs_tableId start) r = false
                 /\ touchesTable tableId r = false) ->
      0 <= rnd -> rnd < 1 ->
      exists r c,
        relationships (handleConnect tableId fieldId uuid rnd st)
          = (relationships st ++ [r])%list
        /\ Relationship.color r = Some c
        /\ In c CONNECTION_COLORS)
  /\
  (forall (touches : Relationship -> bool) (rels : list Relationship)
          (c : string),
      offeredColor touches rels = Some c
      <-> exists l1 r l2,
            rels = (l1 ++ r :: l2)%list
            /\ (forall x, In x l1 -> touches x = false)
            /\ touches r = true
            /\ Relationship.color r = Some c /\ c <> "")
  /\
  (forall (touches : Relationship -> bool) (rels : list Relationship),
      (forall r, In r rels -> truthy (Relationship.color r) = true) ->
      (exists r, In r rels /\ touches r = true) ->
      exists c, offeredColor touches rels = Some c).
Proof.
  assert (Hnew : forall st start tableId fieldId uuid rnd,
             connectionStart st = Some start ->
             startEndpoint start <> (tableId, fieldId) ->
             existsb (between (startEndpoint start) (tableId, fieldId))
                     (relationships st) = false ->
             relationships (handleConnect tableId fieldId uuid rnd st)
             = (relationships st
                ++ [newRelationship (relationships st) start tableId fieldId
                                    uuid rnd])%list).
  { intros st start tableId fieldId uuid rnd Hs Hne Hex.
    destruct (handleConnect_end tableId fieldId uuid rnd st start Hs)
      as [_ ->].
    rewrite Hex.
    destruct (String.eqb (cs_tableId start) tableId
              && opt_eqb (cs_fieldId start) fieldId) eqn:E; [|reflexivity].
    apply (same_endpoint_eqb (startEndpoint start) (tableId, fieldId)) in E.
    contradiction. }
  split; [|split; [|split]];
    [| |exact offeredColor_first|exact offeredColor_complete].
  - intros st start tableId fieldId uuid rnd Hs Hne Hex.
    exists (newRelationship (relationships st) start tableId fieldId uuid rnd).
    split; [apply Hnew; assumption|].
    cbn [newRelationship Relationship.color]. apply connectColor_byPriority.
  - intros st start tableId fieldId uuid rnd Hs Hne Hun H0 H1.
    assert (Hex : existsb (between (startEndpoint start) (tableId, fieldId))
                          (relationships st) = false).
    { apply existsb_false_of_all_false. intros r Hr.
      apply between_touchesTable. cbn. now apply Hun. }
    destruct (randomPaletteColor_in_palette rnd H0 H1) as (c & Hc & Hin).
    exists (newRelationship (relationships st) start tableId fieldId uuid rnd).
    exists c. split; [apply Hnew; assumption|]. split; [|exact Hin].
    cbn [newRelationship Relationship.color].
    rewrite connectColor_byPriority. unfold colorByPriority, offeredColor.
    cbn [fst snd startEndpoint].
    rewrite !find_none_of_all_false.
    + destruct (truthy (cs_fieldId start)), (truthy fieldId); exact Hc.
    + intros r Hr. now apply Hun.
    + intros r Hr. now apply Hun.
    + intros r Hr. apply touchesField_touchesTable. now apply Hun.
    + intros r Hr. apply touchesField_touchesTable. now apply Hun.
Qed.

(** C5, as stated, fails.  A connection is pending from the field [f2] of
    Users and the field [p3] of Posts is clicked.  No relationship touches
    either field, and a red relationship touches the source table, so the
    third rule of the claim applies and the new relationship should be red.
    But the first relationship that touches the source table carries no
    color: the code skips the rule, and the new relationship gets the
    palette color drawn. *)
Lemma uncolored_first_touch_hides_color :
  connectionStart mixedPendingState = Some (mkConnectionState "1" (Some "f2"))
  /\ existsb (touchesField "1" (Some "f2")) (relationships mixedPendingState)
     = false
  /\ existsb (touchesField "2" (Some "p3")) (relationships mixedPendingState)
     = false
  /\ In redLink (relationships mixedPendingState)
  /\ touchesTable "1" redLink = true
  /\ Relationship.color redLink = Some "#ef4444"
  /\ relationships
       (handleConnect "2" (Some "p3") "u" (1 # 2) mixedPendingState)
     = [ uncoloredLink; redLink;
         Relationship.mk "u" "1" (Some "f2") "2" (Some "p3") OneToN None
                         (Some "#3b82f6") ].
Proof.
  repeat split; try reflexivity. right. now left.
Qed.

(** ** Cardinality of what the canvas creates *)

Lemma handleColorChange_origin (newColor : string) (st : State)
    (r' : Relationship) :
  In r' (relationships (handleColorChange newColor st)) ->
  exists r, In r (relationships st)
            /\ Relationship.id r = Relationship.id r'
            /\ Relationship.cardinality r = Relationship.cardinality r'.
Proof.
  unfold handleColorChange.
  destruct (contextMenu st) as [cm|]; [|intros H; exists r'; auto].
  destruct (truthy (cm_relationshipId cm)); [|intros H; exists r'; auto].
  intros H.
  assert (Hin : In r' (map (fun r =>
             if opt_eqb (Some (Relationship.id r)) (cm_relationshipId cm)
             then Relationship.mk
                    (Relationship.id r) (Relationship.sourceTableId r)
                    (Relationship.sourceFieldId r)
                    (Relationship.targetTableId r)
                    (Relationship.targetFieldId r)
                    (Relationship.cardinality r) (Relationship.label r)
                    (Some newColor)
             else r) (relationships st))).
  { destruct (opt_eqb (highlightedColor st) (Some (cm_color cm))); exact H. }
  apply in_map_iff in Hin. destruct Hin as (r & Hr & Hin).
  exists r. split; [exact Hin|].
  destruct (opt_eqb (Some (Relationship.id r)) (cm_relationshipId cm));
    subst r'; auto.
Qed.

Lemma handleConnect_appends (tableId : string) (fieldId : option string)
    (uuid : string) (rnd : Q) (st : State) :
  relationships (handleConnect tableId fieldId uuid rnd st) = relationships st
  \/ exists r,
       relationships (handleConnect tableId fieldId uuid rnd st)
         = (relationships st ++ [r])%list
       /\ Relationship.id r = uuid
       /\ Relationship.cardinality r = OneToN.
Proof.
  destruct (connectionStart st) as [start|] eqn:Hs.
  - destruct (handleConnect_end tableId fieldId uuid rnd st start Hs)
      as [_ ->].
    destruct (_ && _); [now left|].
    destruct (existsb _ _); [now left|].
    right. eexists. split; [reflexivity|]. split; reflexivity.
  - left. now apply handleConnect_start.
Qed.

(** C10. A gesture completed on a handle other than the pending one, with
    no relationship yet between the two endpoints, creates a relationship: it
    appends exactly one, from the pending endpoint to the clicked one, under
    the fresh id and with cardinality '1:N'.  In every case [handleConnect]
    either leaves the relationship collection as it is or appends one
    relationship, whose cardinality is '1:N'.  After any operation of the
    canvas, every
    relationship of the collection has cardinality '1:N' or is one that was
    there before (same id) with the cardinality it had: no operation creates
    a '1:1' or 'N:M' relationship or changes a cardinality. *)
Theorem canvas_creates_only_OneToN :
  (forall (st : State) (start : ConnectionState) (tableId : string)
          (fieldId : option string) (uuid : string) (rnd : Q),
      connectionStart st = Some start ->
      startEndpoint start <> (tableId, fieldId) ->
      existsb (between (startEndpoint start) (tableId, fieldId))
              (relationships st) = false ->
      exists r,
        relationships (handleConnect tableId fieldId uuid rnd st)
          = (relationships st ++ [r])%list
        /\ Relationship.cardinality r = OneToN
        /\ Relationship.id r = uuid
        /\ Relationship.sourceTableId r = cs_tableId start
        /\ Relationship.sourceFieldId r = cs_fieldId start
        /\ Relationship.targetTableId r = tableId
        /\ Relationship.targetFieldId r = fieldId)
  /\
  (forall (tableId : string) (fieldId : option string) (uuid : string)
          (rnd : Q) (st : State),
      relationships (handleConnect tableId fieldId uuid rnd st)
        = relationships st
      \/ exists r,
           relationships (handleConnect tableId fieldId uuid rnd st)
             = (relationships st ++ [r])%list
           /\ Relationship.cardinality r = OneToN)
  /\
  (forall (a : Action) (st : State) (r' : Relationship),
      In r' (relationships (dispatch a st)) ->
      Relationship.cardinality r' = OneToN
      \/ exists r, In r (relationships st)
                   /\ Relationship.id r = Relationship.id r'
                   /\ Relationship.cardinality r = Relationship.cardinality r').
Proof.
  split.
  { intros st start tableId fieldId uuid rnd Hs Hne Hex.
    destruct (handleConnect_end tableId fieldId uuid rnd st start Hs)
      as [_ Hr].
    rewrite Hex in Hr.
    destruct (String.eqb (cs_tableId start) tableId
              && opt_eqb (cs_fieldId start) fieldId) eqn:E.
    - apply (same_endpoint_eqb (startEndpoint start) (tableId, fieldId)) in E.
      contradiction.
    - exists (newRelationship (relationships st) start tableId fieldId
                              uuid rnd).
      split; [exact Hr|]. repeat split; reflexivity. }
  split.
  - intros tableId fieldId uuid rnd st.
    destruct (handleConnect_appends tableId fieldId uuid rnd st)
      as [H | (r & H & _ & Hc)]; [now left|right; eauto].
  - intros a st r' Hin.
    assert (Hold : In r' (relationships st) ->
                   Relationship.cardinality r' = OneToN
                   \/ exists r, In r (relationships st)
                        /\ Relationship.id r = Relationship.id r'
                        /\ Relationship.cardinality r
                           = Relationship.cardinality r').
    { intros H. right. exists r'. auto. }
    destruct a as [tableId fieldId uuid rnd | tableId fieldId | id | newColor
                  | id updates | table fieldId | id | deltaY];
      cbn [dispatch] in Hin.
    + destruct (handleConnect_appends tableId fieldId uuid rnd st)
        as [H | (r & H & _ & Hc)]; rewrite H in Hin; [auto|].
      apply in_app_or in Hin. destruct Hin as [Hin | [<- | []]]; auto.
    + apply filter_In in Hin. apply Hold, Hin.
    + apply filter_In in Hin. apply Hold, Hin.
    + right. now apply handleColorChange_origin with (newColor := newColor).
    + auto.
    + auto.
    + apply filter_In in Hin. apply Hold, Hin.
    + auto.
Qed.

(** ** Zoom *)

Lemma handleWheel_zoom (deltaY : Q) (st : State) :
  zoom (handleWheel deltaY st)
  = Qmin (Qmax (2 # 10) (zoom st + - deltaY * (1 # 1000))) 3.
Proof. reflexivity. Qed.

Lemma clamp_bounds (z : Q) : 2 # 10 <= Qmin (Qmax (2 # 10) z) 3 <= 3.
Proof.
  split.
  - apply Q.min_glb; [apply Q.le_max_l|lra].
  - apply Q.le_min_r.
Qed.

Lemma clamp_inside (z : Q) :
  2 # 10 <= z <= 3 -> Qmin (Qmax (2 # 10) z) 3 == z.
Proof.
  intros [Hlo Hhi].
  assert (E : Qmax (2 # 10) z == z) by (apply Q.max_r; exact Hlo).
  rewrite Q.min_l; [exact E|]. rewrite E. exact Hhi.
Qed.

(** C7. From a zoom in [0.2, 3], any finite sequence of wheel events leaves
    the zoom in [0.2, 3].  One event adds [-deltaY * 0.001] to the zoom
    whenever the sum stays in the range, and clamps it otherwise. *)
Theorem handleWheel_zoom_in_range (deltas : list Q) (st : State) :
  2 # 10 <= zoom st <= 3 ->
  2 # 10 <= zoom (wheelEvents deltas st) <= 3
  /\ (forall deltaY,
         2 # 10 <= zoom st + - deltaY * (1 # 1000) <= 3 ->
         zoom (handleWheel deltaY st) == zoom st + - deltaY * (1 # 1000)).
Proof.
  intros Hst. split.
  - revert st Hst. induction deltas as [|d deltas IH]; intros st Hst.
    + exact Hst.
    + cbn [wheelEvents fold_left]. apply IH.
      rewrite handleWheel_zoom. apply clamp_bounds.
  - intros deltaY Hin. rewrite handleWheel_zoom. now apply clamp_inside.
Qed.

(** ** Geometry *)

Lemma Qpos_of_mul (a b : Q) : 0 < b -> 0 < a * b -> 0 < a.
Proof.
  intros Hb Hab. destruct (Qlt_le_dec 0 a) as [H|H]; [exact H|].
  exfalso. assert (a * b <= 0 * b) by (apply Qmult_le_compat_r; lra). lra.
Qed.
Lemma Qle_of_mul (a b c : Q) : 0 < c -> a * c <= b * c -> a <= b.
Proof. intros Hc H. now apply Qmult_le_r in H. Qed.

Lemma Qhalf (a : Q) : a / 2 == a * (1 # 2).
Proof. reflexivity. Qed.

Lemma exit_vertical (w h A B s aspect : Q) :
  0 < w -> 0 < h -> 0 <= B -> aspect * h == w -> aspect * B < A ->
  s * A == w / 2 -> 0 < A /\ 0 < s /\ B * s <= h / 2.
Proof.
  rewrite !Qhalf. intros Hw Hh HB Ha Hlt Hs.
  assert (Hasp : 0 < aspect).
  { apply Qpos_of_mul with h; [exact Hh|]. rewrite Ha. exact Hw. }
  assert (HaB : 0 <= aspect * B) by (apply Qmult_le_0_compat; lra).
  assert (HA : 0 < A) by (eapply Qle_lt_trans; eassumption).
  assert (Hs0 : 0 < s).
  { apply Qpos_of_mul with A; [exact HA|]. rewrite Hs. clear - Hw. lra. }
  repeat split; try assumption.
  apply Qle_of_mul with A; [exact HA|].
  assert (E : B * s * A == aspect * B * h * (1 # 2)).
  { rewrite <- Qmult_assoc, Hs, <- Ha. ring. }
  rewrite E.
  assert (H : aspect * B * h <= A * h).
  { apply Qmult_le_compat_r; [apply Qlt_le_weak; exact Hlt|apply Qlt_le_weak; exact Hh]. }
  clear - H. lra.
Qed.
Lemma exit_horizontal (w h A B s aspect : Q) :
  0 < w -> 0 < h -> 0 < B -> aspect * h == w -> A <= aspect * B ->
  s * B == h / 2 -> 0 < s /\ A * s <= w / 2.
Proof.
  rewrite !Qhalf. intros Hw Hh HB Ha Hle Hs.
  assert (Hs0 : 0 < s).
  { apply Qpos_of_mul with B; [exact HB|]. rewrite Hs. clear - Hh. lra. }
  split; [exact Hs0|].
  apply Qle_of_mul with B; [exact HB|].
  assert (E : A * s * B == A * h * (1 # 2)).
  { rewrite <- Qmult_assoc, Hs. ring. }
  rewrite E.
  assert (E2 : w * (1 # 2) * B == aspect * B * h * (1 # 2)).
  { rewrite <- Ha. ring. }
  rewrite E2.
  assert (H : A * h <= aspect * B * h).
  { apply Qmult_le_compat_r; [exact Hle|apply Qlt_le_weak; exact Hh]. }
  clear - H. lra.
Qed.

Lemma Qabs_zero (a : Q) : Qabs a == 0 -> a == 0.
Proof. apply Qabs_case; intros; lra. Qed.

Lemma Qabs_scaled (d s : Q) : 0 < s -> Qabs (d * s) == Qabs d * s.
Proof.
  intros Hs. rewrite Qabs_Qmult, (Qabs_pos s); [reflexivity|].
  now apply Qlt_le_weak.
Qed.

(** C8. For a rectangle of positive width and height centered at [center1]
    and a [center2] different from [center1], [getIntersection] returns a
    point on the boundary of the rectangle that lies on the ray from
    [center1] toward [center2] (whatever the signs of the two offsets, hence
    in all four quadrants).  When the two centers coincide it returns
    [center1] itself. *)
Theorem getIntersection_boundary_ray :
  (forall (center1 : Point) (size1 : Size) (center2 : Point),
      0 < Size.width size1 -> 0 < Size.height size1 ->
      ~ (Point.x center2 == Point.x center1
         /\ Point.y center2 == Point.y center1) ->
      onBoundary center1 size1 (getIntersection center1 size1 center2)
      /\ onRay center1 center2 (getIntersection center1 size1 center2))
  /\
  (forall (center1 : Point) (size1 : Size) (center2 : Point),
      Point.x center2 == Point.x center1 ->
      Point.y center2 == Point.y center1 ->
      getIntersection center1 size1 center2 = center1).
Proof.
  split.
  - intros c1 sz c2 Hw Hh Hne. unfold getIntersection, onBoundary, onRay.
    set (dx := Point.x c2 - Point.x c1). set (dy := Point.y c2 - Point.y c1).
    set (w := Size.width sz) in *. set (h := Size.height sz) in *.
    destruct (Qeq_bool dx 0 && Qeq_bool dy 0) eqn:E.
    { exfalso. apply andb_true_iff in E. destruct E as [Ex Ey].
      apply Qeq_bool_iff in Ex, Ey. apply Hne. subst dx dy. split; lra. }
    assert (Hasp : w / h * h == w) by (field; lra).
    assert (Hasp0 : 0 < w / h) by (apply Qlt_shift_div_l; lra).
    destruct (Qgtb (Qabs dx) (w / h * Qabs dy)) eqn:G; cbn [Point.x Point.y].
    + unfold Qgtb in G. apply negb_true_iff in G.
      assert (Hlt : w / h * Qabs dy < Qabs dx).
      { apply Qnot_le_lt. intros Hle. apply Qle_bool_iff in Hle. congruence. }
      assert (HA : 0 < Qabs dx).
      { eapply Qle_lt_trans; [|exact Hlt].
        apply Qmult_le_0_compat; [lra|apply Qabs_nonneg]. }
      set (s := w / 2 / Qabs dx).
      assert (Hs : s * Qabs dx == w / 2) by (unfold s; field; lra).
      destruct (exit_vertical w h (Qabs dx) (Qabs dy) s (w / h) Hw Hh
                  (Qabs_nonneg dy) Hasp Hlt Hs) as (_ & Hs0 & Hy).
      split.
      * left.
        setoid_replace (Point.x c1 + dx * s - Point.x c1) with (dx * s) by ring.
        setoid_replace (Point.y c1 + dy * s - Point.y c1) with (dy * s) by ring.
        rewrite !Qabs_scaled by exact Hs0. split; [|exact Hy].
        rewrite Qmult_comm. exact Hs.
      * exists s. repeat split; [exact Hs0|ring|ring].
    + unfold Qgtb in G. apply negb_false_iff in G. apply Qle_bool_iff in G.
      assert (HB : 0 < Qabs dy).
      { destruct (Qlt_le_dec 0 (Qabs dy)) as [H|H]; [exact H|exfalso].
        assert (Hy0 : Qabs dy == 0) by (pose proof (Qabs_nonneg dy); lra).
        assert (Hx0 : Qabs dx == 0).
        { rewrite Hy0 in G. pose proof (Qabs_nonneg dx). lra. }
        apply Qabs_zero in Hx0, Hy0.
        apply Qeq_bool_iff in Hx0, Hy0. rewrite Hx0, Hy0 in E. discriminate. }
      set (s := h / 2 / Qabs dy).
      assert (Hs : s * Qabs dy == h / 2) by (unfold s; field; lra).
      destruct (exit_horizontal w h (Qabs dx) (Qabs dy) s (w / h) Hw Hh
                  HB Hasp G Hs) as (Hs0 & Hx).
      split.
      * right.
        setoid_replace (Point.x c1 + dx * s - Point.x c1) with (dx * s) by ring.
        setoid_replace (Point.y c1 + dy * s - Point.y c1) with (dy * s) by ring.
        rewrite !Qabs_scaled by exact Hs0. split; [|exact Hx].
        rewrite Qmult_comm. exact Hs.
      * exists s. repeat split; [exact Hs0|ring|ring].
  - intros c1 sz c2 Hx Hy. unfold getIntersection.
    assert (Ex : Qeq_bool (Point.x c2 - Point.x c1) 0 = true)
      by (apply Qeq_bool_iff; lra).
    assert (Ey : Qeq_bool (Point.y c2 - Point.y c1) 0 = true)
      by (apply Qeq_bool_iff; lra).
    now rewrite Ex, Ey.
Qed.

(** ** Field anchors *)

Lemma findIndexFrom_nth (fields : list Field) :
  NoDup (map Field.id fields) ->
  forall (k : nat) (f : Field) (i : Z),
    nth_error fields k = Some f ->
    findIndexFrom (fun g => opt_eqb (Some (Field.id g)) (Some (Field.id f)))
                  fields i
    = (i + Z.of_nat k)%Z.
Proof.
  induction fields as [|g fields IH]; intros Hnd k f i Hk.
  - destruct k; discriminate.
  - cbn [map] in Hnd. inversion Hnd as [|? ? Hnotin Hnd']; subst.
    destruct k as [|k]; cbn [nth_error] in Hk.
    + injection Hk as ->. cbn [findIndexFrom].
      rewrite opt_eqb_refl. lia.
    + cbn [findIndexFrom].
      destruct (opt_eqb (Some (Field.id g)) (Some (Field.id f))) eqn:E.
      * exfalso. apply opt_eqb_eq in E. injection E as E.
        apply Hnotin. rewrite E.
        apply in_map. eapply nth_error_In; eauto.
      * rewrite (IH Hnd' k f (i + 1)%Z Hk). lia.
Qed.

Lemma getTableDescHeight_nonneg (table : Table) :
  0 <= getTableDescHeight table.
Proof.
  unfold getTableDescHeight.
  destruct (Table.description table) as [d|]; [|lra].
  destruct (truthy (Some d)); [|lra].
  assert (H : (0 <= Qceiling (strlen d / 42))%Z).
  { apply (Qceiling_resp_le 0 (strlen d / 42)).
    apply Qle_shift_div_l; [reflexivity|].
    unfold strlen. rewrite Qmult_0_l.
    change 0 with (inject_Z 0). rewrite <- Zle_Qle. lia. }
  rewrite Zle_Qle in H. change (inject_Z 0) with 0 in H.
  set (c := inject_Z (Qceiling (strlen d / 42))) in *. lra.
Qed.

Lemma imageHeight_nonneg (table : Table) :
  0 <= (if truthy (Table.imageUrl table) then 128 else 0).
Proof. destruct (truthy (Table.imageUrl table)); lra. Qed.

Lemma calculateTableHeight_pos (t : Table) : 0 < calculateTableHeight t.
Proof.
  unfold calculateTableHeight, arrlen.
  pose proof (getTableDescHeight_nonneg t) as Hd.
  pose proof (imageHeight_nonneg t) as Him.
  assert (Hn : 0 <= inject_Z (Z.of_nat (length (Table.fields t)))).
  { change 0 with (inject_Z 0). rewrite <- Zle_Qle. lia. }
  set (d := getTableDescHeight t) in *.
  set (im := if truthy (Table.imageUrl t) then 128 else 0) in *.
  set (n := inject_Z (Z.of_nat (length (Table.fields t)))) in *.
  lra.
Qed.

Lemma findIndexFrom_range {A : Type} (p : A -> bool) (l : list A) :
  forall i0 : Z,
    findIndexFrom p l i0 = (-1)%Z
    \/ (i0 <= findIndexFrom p l i0 < i0 + Z.of_nat (length l))%Z.
Proof.
  induction l as [|a l IH]; intros i0; cbn [findIndexFrom length].
  - now left.
  - destruct (p a); [right; lia|].
    destruct (IH (i0 + 1)%Z) as [H|H]; [now left|right; lia].
Qed.

Lemma center_in_box (table : Table) :
  let p := getCenter (Table.x table) (Table.y table) (Size.width TABLE_SIZE)
                     (calculateTableHeight table) in
  Table.x table <= Point.x p <= Table.x table + Size.width TABLE_SIZE
  /\ Table.y table <= Point.y p
     <= Table.y table + calculateTableHeight table.
Proof.
  cbn zeta. pose proof (calculateTableHeight_pos table) as Hh.
  unfold getCenter. cbn [Point.x Point.y Size.width TABLE_SIZE].
  set (h := calculateTableHeight table) in *.
  unfold Qdiv. change (/ 2) with (1 # 2). repeat split; lra.
Qed.

(** Whatever the field id, [getFieldPosition] stays in the rendered box. *)
Lemma getFieldPosition_in_box (table : Table) (fieldId : option string) :
  let p := getFieldPosition table fieldId in
  Table.x table <= Point.x p <= Table.x table + Size.width TABLE_SIZE
  /\ Table.y table <= Point.y p
     <= Table.y table + calculateTableHeight table.
Proof.
  cbn zeta. unfold getFieldPosition.
  destruct (negb (truthy fieldId)); [apply center_in_box|].
  unfold findIndex.
  destruct (findIndexFrom_range
              (fun f => opt_eqb (Some (Field.id f)) fieldId)
              (Table.fields table) 0%Z) as [H|H].
  - rewrite H. cbn [Z.eqb Pos.eqb]. apply center_in_box.
  - set (k := findIndexFrom (fun f => opt_eqb (Some (Field.id f)) fieldId)
                            (Table.fields table) 0%Z) in *.
    destruct (k =? -1)%Z eqn:E; [apply Z.eqb_eq in E; lia|].
    cbn [Point.x Point.y Size.width TABLE_SIZE].
    assert (Hk0 : 0 <= inject_Z k).
    { change 0 with (inject_Z 0). rewrite <- Zle_Qle. lia. }
    assert (Hk1 : inject_Z k + 1
                  <= inject_Z (Z.of_nat (length (Table.fields table)))).
    { change 1 with (inject_Z 1). rewrite <- inject_Z_plus, <- Zle_Qle. lia. }
    pose proof (getTableDescHeight_nonneg table) as Hd.
    pose proof (imageHeight_nonneg table) as Him.
    unfold calculateTableHeight, arrlen.
    set (d := getTableDescHeight table) in *.
    set (im := if truthy (Table.imageUrl table) then 128 else 0) in *.
    set (qk := inject_Z k) in *.
    set (qn := inject_Z (Z.of_nat (length (Table.fields table)))) in *.
    unfold Qdiv. change (/ 2) with (1 # 2).
    repeat split; lra.
Qed.

(** The anchor of the field at index [k], computed. *)
Lemma anchorAt_eq (table : Table) (k : nat) (f : Field) :
  fieldIdsWellFormed table ->
  nth_error (Table.fields table) k = Some f ->
  anchorAt table k
  = Some (Point.mk
            (Table.x table + Size.width TABLE_SIZE)
            (Table.y table
             + (40 + getTableDescHeight table
                + (if truthy (Table.imageUrl table) then 128 else 0) + 8
                + inject_Z (Z.of_nat k) * 33 + 33 / 2))).
Proof.
  intros [Hnd Hne] Hk. unfold anchorAt. rewrite Hk. f_equal.
  unfold getFieldPosition.
  assert (Ht : truthy (Some (Field.id f)) = true).
  { cbn. apply negb_true_iff, String.eqb_neq.
    rewrite Forall_forall in Hne. apply Hne. eapply nth_error_In; eauto. }
  rewrite Ht. cbn [negb]. unfold findIndex.
  rewrite (findIndexFrom_nth _ Hnd k f 0%Z Hk). cbn [Z.add].
  destruct (Z.of_nat k =? -1)%Z eqn:E; [apply Z.eqb_eq in E; lia|].
  reflexivity.
Qed.

(** C9 (amended). In every table, every index below the number of fields
    has an anchor, and the anchor lies in the rendered bounding box of the
    table (x within [x, x + 280], y within [y, y + calculateTableHeight]).
    In a table whose field ids are pairwise distinct and not empty, the
    anchor of a higher index is strictly lower on the screen (larger y). *)
Theorem field_anchor_increasing_in_box (table : Table) :
  (forall i, (i < length (Table.fields table))%nat ->
             exists p, anchorAt table i = Some p)
  /\ (forall i p, anchorAt table i = Some p ->
        Table.x table <= Point.x p <= Table.x table + Size.width TABLE_SIZE
        /\ Table.y table <= Point.y p
           <= Table.y table + calculateTableHeight table)
  /\ (fieldIdsWellFormed table ->
      forall i j p q,
        (i < j)%nat ->
        anchorAt table i = Some p -> anchorAt table j = Some q ->
        Point.y p < Point.y q).
Proof.
  split; [|split].
  - intros i Hi. unfold anchorAt.
    destruct (nth_error (Table.fields table) i) as [f|] eqn:Hf; [eauto|].
    apply nth_error_None in Hf. lia.
  - intros i p Hp. unfold anchorAt in Hp.
    destruct (nth_error (Table.fields table) i) as [f|]; [|discriminate].
    injection Hp as <-. apply getFieldPosition_in_box.
  - intros Hwf i j p q Hij Hp Hq.
    destruct (nth_error (Table.fields table) i) as [f|] eqn:Hf;
      [|unfold anchorAt in Hp; rewrite Hf in Hp; discriminate].
    destruct (nth_error (Table.fields table) j) as [g|] eqn:Hg;
      [|unfold anchorAt in Hq; rewrite Hg in Hq; discriminate].
    rewrite (anchorAt_eq table i f Hwf Hf) in Hp. injection Hp as <-.
    rewrite (anchorAt_eq table j g Hwf Hg) in Hq. injection Hq as <-.
    cbn [Point.y].
    assert (Hlt : inject_Z (Z.of_nat i) < inject_Z (Z.of_nat j)).
    { rewrite <- Zlt_Qlt. lia. }
    set (d := getTableDescHeight table).
    set (im := if truthy (Table.imageUrl table) then 128 else 0).
    set (qi := inject_Z (Z.of_nat i)) in *.
    set (qj := inject_Z (Z.of_nat j)) in *.
    lra.
Qed.

(** C9, as stated, fails: in a table whose two fields carry the same id
    both indices have the same anchor, so the anchor of the higher index is
    not strictly lower. *)
Lemma duplicate_field_ids_share_anchor :
  (0 < 1 < length (Table.fields twinFieldsTable))%nat
  /\ exists p,
       anchorAt twinFieldsTable 0 = Some p
       /\ anchorAt twinFieldsTable 1 = Some p
       /\ Point.x p == 280 /\ Point.y p == 129 # 2
       /\ ~ Point.y p < Point.y p.
Proof.
  split; [cbn; lia|].
  eexists. split; [reflexivity|]. split; [reflexivity|].
  split; [reflexivity|]. split; [reflexivity|]. apply Qlt_irrefl.
Qed.

(** ** Routing of relationships with dangling references *)

Lemma find_none_existsb {A : Type} (p : A -> bool) (l : list A) :
  find p l = None <-> existsb p l = false.
Proof.
  induction l as [|a l IH]; cbn; [tauto|].
  destruct (p a); cbn; [split; discriminate|exact IH].
Qed.

Lemma findIndexFrom_none {A : Type} (p : A -> bool) (l : list A) (i : Z) :
  existsb p l = false -> findIndexFrom p l i = (-1)%Z.
Proof.
  revert i. induction l as [|a l IH]; intros i; cbn; [reflexivity|].
  destruct (p a); cbn; [discriminate|apply IH].
Qed.

Lemma getFieldPosition_unresolved (table : Table) (fieldId : string) :
  existsb (fun f => String.eqb (Field.id f) fieldId) (Table.fields table)
    = false ->
  getFieldPosition table (Some fieldId)
  = getCenter (Table.x table) (Table.y table) (Size.width TABLE_SIZE)
              (calculateTableHeight table).
Proof.
  intros H. unfold getFieldPosition.
  destruct (negb (truthy (Some fieldId))); [reflexivity|].
  unfold findIndex.
  rewrite findIndexFrom_none; [reflexivity|].
  rewrite <- H. clear H.
  induction (Table.fields table) as [|f l IH]; cbn [existsb];
    [reflexivity|].
  rewrite IH. reflexivity.
Qed.

(** C2 (amended). [renderConnectionLine] returns [null], and so paints no
    path, exactly when the source table id or the target table id of the
    relationship names no table.  A field id that names no field of its
    table does not exclude the relationship: that end is anchored by
    [getFieldPosition] at the center of the table. *)
Theorem renderConnectionLine_null_iff_table_unresolved :
  (forall (st : State) (r : Relationship),
      renderConnectionLine st r = None
      <-> resolvesTable st (Relationship.sourceTableId r) = false
          \/ resolvesTable st (Relationship.targetTableId r) = false)
  /\
  (forall (table : Table) (fieldId : string),
      existsb (fun f => String.eqb (Field.id f) fieldId) (Table.fields table)
        = false ->
      getFieldPosition table (Some fieldId)
      = getCenter (Table.x table) (Table.y table) (Size.width TABLE_SIZE)
                  (calculateTableHeight table)).
Proof.
  split; [|exact getFieldPosition_unresolved].
  intros st r. unfold renderConnectionLine, resolvesTable.
  rewrite <- !find_none_existsb.
  destruct (find _ (tables st)) as [source|];
    [destruct (find _ (tables st)) as [target|]|].
  - destruct (routePath r source target) as [[[pathD start] end_] arrow].
    split; [discriminate|]. intros [H|H]; discriminate.
  - split; auto.
  - split; auto.
Qed.

(** C2, as stated, fails: in the starting diagram with the field [f1] of
    Users removed, the source field id of [r1] resolves to no field, yet
    [renderConnectionLine] returns a path for it, which starts at the center
    of the Users table. *)
Lemma dangling_field_is_routed :
  dangling orphanedState accessRel = true
  /\ renderConnectionLine orphanedState accessRel <> None
  /\ exists line,
       renderedLines orphanedState = [line]
       /\ cl_pathD line
          = CubicPath (Point.mk (480 # 2) (342 # 2)) (Point.mk (580 # 2) (342 # 2))
                      (Point.mk 450 (447 # 2)) (Point.mk 500 (447 # 2)).
Proof.
  split; [reflexivity|]. split; [discriminate|].
  eexists. split; vm_compute; reflexivity.
Qed.

(** ** Import *)

Section ImportProperties.

Variable JSON_parse : string -> option JSON.
Variable asTables : list JSON -> list Table.
Variable asRelationships : list JSON -> list Relationship.

Lemma find_key (key : string) (members : list (string * JSON))
    (k : string) (v : JSON) :
  find (fun m => String.eqb (fst m) key) members = Some (k, v) -> k = key.
Proof.
  intros H. apply find_some in H. destruct H as [_ H]. cbn in H.
  now apply String.eqb_eq.
Qed.

(** C6. On the text of an import file, [handleFileChange] either finds
    that the text parses to an object whose [tables] and [relationships]
    members are both arrays, and then replaces the two collections by them
    without an alert; or else (the text does not parse, or does not parse to
    such an object) it shows exactly one alert and returns the state it
    started from, tables and relationships untouched. *)
Lemma truthy_array (v : option JSON) : truthyJ v && isArray v = isArray v.
Proof.
  destruct v as [[|b|q|s|items|members]|]; cbn;
    auto using andb_false_r.
Qed.

Theorem handleFileChange_accepts_or_preserves (content : string) (st : State) :
  let result :=
    handleFileChange JSON_parse asTables asRelationships content st in
  (exists members ts rs,
      JSON_parse content = Some (JObject members)
      /\ find (fun m => String.eqb (fst m) "tables") members
         = Some ("tables", JArray ts)
      /\ find (fun m => String.eqb (fst m) "relationships") members
         = Some ("relationships", JArray rs)
      /\ result = (onRelationshipsUpdate (asRelationships rs)
                     (onTablesUpdate (asTables ts) st), []))
  \/ ((forall data, JSON_parse content = Some data -> ~ hasGraphShape data)
      /\ fst result = st
      /\ (snd result = ["Invalid file format. Please upload a valid JSON file."]
          \/ snd result = ["Failed to parse the file."])).
Proof.
  cbn zeta. unfold handleFileChange, onloadTry.
  destruct (JSON_parse content) as [data|] eqn:Hp.
  2:{ right. split; [intros data Hd; discriminate|].
      split; [reflexivity|right; reflexivity]. }
  assert (Hrej : ~ hasGraphShape data ->
                 forall d, Some data = Some d -> ~ hasGraphShape d).
  { intros Hn d Hd. injection Hd as <-. exact Hn. }
  destruct data as [|b|q|s|items|members];
    try (right; split;
         [apply Hrej; intros (m & ts & rs & Hd & _); discriminate
         |split; [reflexivity|auto]]).
  cbn [getProp]. rewrite !truthy_array.
  destruct (find (fun m => String.eqb (fst m) "tables") members)
    as [[k1 v1]|] eqn:Ht.
  2:{ right. split; [|split; [reflexivity|auto]].
      apply Hrej. intros (m & ts & rs & Hd & H1 & _).
      injection Hd as <-. congruence. }
  pose proof (find_key _ _ _ _ Ht) as ->. cbn [snd].
  destruct v1 as [|b|q|s|ts|ms];
    try (right; split;
         [apply Hrej; intros (m & ts & rs & Hd & H1 & _);
          injection Hd as <-; congruence
         |split; [reflexivity|auto]]).
  cbn [isArray].
  destruct (find (fun m => String.eqb (fst m) "relationships") members)
    as [[k2 v2]|] eqn:Hr.
  2:{ right. split; [|split; [reflexivity|auto]].
      apply Hrej. intros (m & ts' & rs & Hd & _ & H2).
      injection Hd as <-. congruence. }
  pose proof (find_key _ _ _ _ Hr) as ->. cbn [snd].
  destruct v2 as [|b|q|s|rs|ms];
    try (right; split;
         [apply Hrej; intros (m & ts' & rs & Hd & _ & H2);
          injection Hd as <-; congruence
         |split; [reflexivity|auto]]).
  left. exists members, ts, rs. repeat split; auto.
Qed.

End ImportProperties.

(** * The theorems at concrete inputs *)

Lemma handleTableDelete_exact_witness :
  Removed (fun t => Table.id t = "1") (tables initialState)
          (tables (handleTableDelete "1" initialState))
  /\ relationships (handleTableDelete "1" initialState) = [].
Proof.
  destruct (handleTableDelete_exact "1" initialState) as (HT & _).
  split; [exact HT|reflexivity].
Defined.

Lemma handleConnect_silent_noop_witness :
  (relationships (handleConnect "2" (Some "p2") "u1" 0 pendingState)
     = relationships pendingState
   /\ connectionStart (handleConnect "2" (Some "p2") "u1" 0 pendingState)
      = None)
  /\ (countBetween ("1", Some "f2") ("2", Some "p3")
        (relationships
           (connectGesture ("2", Some "p3") ("1", Some "f2") "u2" 0
              (connectGesture ("1", Some "f2") ("2", Some "p3") "u1" 0
                 initialState))) <= 1)%nat.
Proof.
  split.
  - apply (proj1 handleConnect_silent_noop pendingState
             (mkConnectionState "1" (Some "f1")) "2" (Some "p2") "u1" 0).
    + reflexivity.
    + right. exists accessRel. split; [now left|reflexivity].
  - destruct (proj2 handleConnect_silent_noop initialState
                ("1", Some "f2") ("2", Some "p3") "u1" "u2" 0 0 true eq_refl)
      as [_ H].
    apply H. vm_compute. lia.
Defined.

Lemma handleConnect_color_priority_witness :
  (exists r,
      relationships (handleConnect "2" (Some "p3") "u1" (1 # 2) pendingState)
        = (relationships pendingState ++ [r])%list
      /\ Relationship.color r
         = colorByPriority (relationships pendingState) ("1", Some "f1")
                           ("2", Some "p3") (1 # 2))
  /\ (exists r c,
        relationships
          (handleConnect "2" (Some "p3") "u1" (1 # 2) isolatedPendingState)
          = (relationships isolatedPendingState ++ [r])%list
        /\ Relationship.color r = Some c
        /\ In c CONNECTION_COLORS)
  /\ (exists l1 r l2,
        [accessRel] = (l1 ++ r :: l2)%list
        /\ (forall x, In x l1 -> touchesTable "2" x = false)
        /\ touchesTable "2" r = true
        /\ Relationship.color r = Some "#8b5cf6" /\ "#8b5cf6" <> "")
  /\ (exists c, offeredColor (touchesTable "2") [accessRel] = Some c).
Proof.
  split; [|split; [|split]].
  - apply (proj1 handleConnect_color_priority pendingState
             (mkConnectionState "1" (Some "f1")) "2" (Some "p3") "u1" (1 # 2)).
    + reflexivity.
    + discriminate.
    + reflexivity.
  - apply (proj1 (proj2 handleConnect_color_priority) isolatedPendingState
             (mkConnectionState "1" (Some "f1")) "2" (Some "p3") "u1" (1 # 2)).
    + reflexivity.
    + discriminate.
    + intros r [].
    + discriminate.
    + reflexivity.
  - apply (proj1 (proj1 (proj2 (proj2 handleConnect_color_priority))
                    (touchesTable "2") [accessRel] "#8b5cf6")).
    reflexivity.
  - apply (proj2 (proj2 (proj2 handleConnect_color_priority))
             (touchesTable "2") [accessRel]).
    + intros r [<-|[]]. reflexivity.
    + exists accessRel. split; [now left|reflexivity].
Defined.

Lemma canvas_creates_only_OneToN_witness :
  (exists r,
      relationships (handleConnect "2" (Some "p3") "u1" (1 # 2) pendingState)
        = (relationships pendingState ++ [r])%list
      /\ Relationship.cardinality r = OneToN
      /\ Relationship.id r = "u1"
      /\ Relationship.sourceTableId r = "1"
      /\ Relationship.sourceFieldId r = Some "f1"
      /\ Relationship.targetTableId r = "2"
      /\ Relationship.targetFieldId r = Some "p3")
  /\ (Relationship.cardinality
        (newRelationship (relationships pendingState)
           (mkConnectionState "1" (Some "f1")) "2" (Some "p3") "u1" (1 # 2))
      = OneToN
      \/ exists r,
           In r (relationships pendingState)
           /\ Relationship.id r
              = Relationship.id
                  (newRelationship (relationships pendingState)
                     (mkConnectionState "1" (Some "f1")) "2" (Some "p3")
                     "u1" (1 # 2))
           /\ Relationship.cardinality r
              = Relationship.cardinality
                  (newRelationship (relationships pendingState)
                     (mkConnectionState "1" (Some "f1")) "2" (Some "p3")
                     "u1" (1 # 2))).
Proof.
  split.
  - apply (proj1 canvas_creates_only_OneToN pendingState
             (mkConnectionState "1" (Some "f1")) "2" (Some "p3") "u1" (1 # 2)).
    + reflexivity.
    + discriminate.
    + reflexivity.
  - apply (proj2 (proj2 canvas_creates_only_OneToN)
             (Connect "2" (Some "p3") "u1" (1 # 2)) pendingState).
    right. left. reflexivity.
Defined.

Lemma handleWheel_zoom_in_range_witness :
  2 # 10 <= zoom (wheelEvents [-500; 4000; -100000] initialState) <= 3.
Proof.
  apply (handleWheel_zoom_in_range [-500; 4000; -100000] initialState).
  split; discriminate.
Defined.

Lemma getIntersection_boundary_ray_witness :
  onBoundary (Point.mk 0 0) (Size.mk 280 200)
             (getIntersection (Point.mk 0 0) (Size.mk 280 200)
                              (Point.mk (-100) 300))
  /\ onRay (Point.mk 0 0) (Point.mk (-100) 300)
           (getIntersection (Point.mk 0 0) (Size.mk 280 200)
                            (Point.mk (-100) 300)).
Proof.
  apply (proj1 getIntersection_boundary_ray (Point.mk 0 0) (Size.mk 280 200)
           (Point.mk (-100) 300)).
  - reflexivity.
  - reflexivity.
  - intros [H _]. discriminate H.
Defined.

Lemma field_anchor_increasing_in_box_witness :
  exists p q,
    anchorAt postsTable 0 = Some p /\ anchorAt postsTable 2 = Some q
    /\ Point.y p < Point.y q
    /\ Point.y q <= Table.y postsTable + calculateTableHeight postsTable.
Proof.
  assert (Hwf : fieldIdsWellFormed postsTable).
  { split.
    - cbn. repeat constructor; cbn; intuition discriminate.
    - cbn. repeat constructor; discriminate. }
  destruct (field_anchor_increasing_in_box postsTable)
    as (Hex & Hbox & Hmono).
  destruct (Hex 0%nat) as [p Hp]; [cbn; lia|].
  destruct (Hex 2%nat) as [q Hq]; [cbn; lia|].
  exists p, q. split; [exact Hp|]. split; [exact Hq|]. split.
  - apply (Hmono Hwf 0%nat 2%nat p q); [lia|exact Hp|exact Hq].
  - apply (Hbox 2%nat q Hq).
Defined.

Lemma renderConnectionLine_null_iff_table_unresolved_witness :
  renderConnectionLine (handleTableDelete "2" initialState) accessRel = None
  /\ getFieldPosition postsTable (Some "f1")
     = getCenter (Table.x postsTable) (Table.y postsTable)
                 (Size.width TABLE_SIZE) (calculateTableHeight postsTable).
Proof.
  split.
  - apply (proj1 renderConnectionLine_null_iff_table_unresolved).
    right. reflexivity.
  - apply (proj2 renderConnectionLine_null_iff_table_unresolved).
    reflexivity.
Defined.

Lemma handleFileChange_accepts_or_preserves_witness :
  fst (handleFileChange sampleParse (fun _ => []) (fun _ => []) "[]"
                        initialState)
  = initialState.
Proof.
  destruct (handleFileChange_accepts_or_preserves sampleParse (fun _ => [])
              (fun _ => []) "[]" initialState)
    as [(m & ts & rs & H & _) | (_ & H & _)].
  - discriminate H.
  - exact H.
Defined.

(** * Further properties of the canvas *)

(** ** Panning, dragging and the preview point *)

Lemma handleMouseMove_keeps (e : MouseEvent) (rect : option DOMRect)
    (st : State) :
  let st' := handleMouseMove e rect st in
  isDraggingCanvas st' = isDraggingCanvas st
  /\ dragStart st' = dragStart st
  /\ draggingTableId st' = draggingTableId st
  /\ connectionStart st' = connectionStart st
  /\ relationships st' = relationships st
  /\ zoom st' = zoom st.
Proof.
  cbn zeta. unfold handleMouseMove.
  destruct (isDraggingCanvas st) eqn:E1, (truthy (draggingTableId st)),
    (connectionStart st) eqn:E2, rect; cbn; rewrite ?E1, ?E2;
    repeat split; reflexivity.
Qed.

Lemma handleMouseMove_offset (e : MouseEvent) (rect : option DOMRect)
    (st : State) :
  offset (handleMouseMove e rect st)
  = if isDraggingCanvas st
    then Point.mk (clientX e - Point.x (dragStart st))
                  (clientY e - Point.y (dragStart st))
    else offset st.
Proof.
  unfold handleMouseMove.
  destruct (isDraggingCanvas st), (truthy (draggingTableId st)),
    (connectionStart st), rect; reflexivity.
Qed.

Lemma handleMouseMove_tables (e : MouseEvent) (rect : option DOMRect)
    (st : State) :
  tables (handleMouseMove e rect st)
  = if truthy (draggingTableId st)
    then map (fun t =>
                if opt_eqb (Some (Table.id t)) (draggingTableId st) then
                  Table.mk (Table.id t) (Table.name t)
                           (Table.x t + movementX e / zoom st)
                           (Table.y t + movementY e / zoom st)
                           (Table.fields t) (Table.description t)
                           (Table.imageUrl t) (Table.width t)
                           (Table.isComplete t)
                else t)
             (tables st)
    else tables st.
Proof.
  unfold handleMouseMove.
  destruct (isDraggingCanvas st), (truthy (draggingTableId st)),
    (connectionStart st), rect; reflexivity.
Qed.

Lemma mouseMoves_keeps (moves : list MouseEvent) (rect : option DOMRect)
    (st : State) :
  isDraggingCanvas (mouseMoves moves rect st) = isDraggingCanvas st
  /\ dragStart (mouseMoves moves rect st) = dragStart st.
Proof.
  revert st. induction moves as [|e moves IH]; intros st; [split; reflexivity|].
  cbn [mouseMoves fold_left].
  destruct (IH (handleMouseMove e rect st)) as [H1 H2].
  destruct (handleMouseMove_keeps e rect st) as (K1 & K2 & _).
  unfold mouseMoves in H1, H2. rewrite H1, H2. auto.
Qed.

(** X1. After a left press on the empty canvas, whatever pointer moves
    follow, the pan offset after the last move is the offset at the press
    plus the displacement of the pointer since the press: the canvas tracks
    the pointer without drift. *)
Theorem pan_tracks_pointer (down : MouseEvent) (moves : list MouseEvent)
    (last : MouseEvent) (rect : option DOMRect) (st : State) :
  inContextMenu down = false ->
  button down = 0%Z ->
  let st' :=
    handleMouseMove last rect
      (mouseMoves moves rect (handleMouseDown down st)) in
  Point.x (offset st') == Point.x (offset st) + (clientX last - clientX down)
  /\ Point.y (offset st') == Point.y (offset st) + (clientY last - clientY down).
Proof.
  intros Hm Hb. cbn zeta.
  rewrite handleMouseMove_offset.
  destruct (mouseMoves_keeps moves rect (handleMouseDown down st)) as [-> ->].
  unfold handleMouseDown. rewrite Hm, Hb. cbn. split; ring.
Qed.

(** X2. Once the pointer is released (or leaves the canvas), a pointer move
    pans nothing and drags nothing: offset, tables and relationships stay as
    they are. *)
Theorem release_ends_pan_and_drag (e : MouseEvent) (rect : option DOMRect)
    (st : State) :
  let st' := handleMouseMove e rect (handleMouseUp st) in
  offset st' = offset st
  /\ tables st' = tables st
  /\ relationships st' = relationships st.
Proof.
  cbn zeta. rewrite handleMouseMove_offset, handleMouseMove_tables.
  destruct (handleMouseMove_keeps e rect (handleMouseUp st))
    as (_ & _ & _ & _ & -> & _).
  repeat split; reflexivity.
Qed.

Lemma Forall2_map_self {A : Type} (R : A -> A -> Prop) (f : A -> A)
    (l : list A) :
  (forall a, In a l -> R a (f a)) -> Forall2 R l (map f l).
Proof.
  induction l as [|a l IH]; intros H; cbn; constructor.
  - apply H. now left.
  - apply IH. intros b Hb. apply H. now right.
Qed.

(** X3. While a table is being dragged, a pointer move displaces that table
    so that its displacement times the zoom is the pointer's movement (the
    drag is 1:1 on the screen at any zoom), keeps its id, name, fields,
    description and image, and leaves every other table and all
    relationships as they are. *)
Theorem drag_moves_only_dragged_table (e : MouseEvent)
    (rect : option DOMRect) (id : string) (st : State) :
  draggingTableId st = Some id ->
  id <> "" ->
  ~ zoom st == 0 ->
  let st' := handleMouseMove e rect st in
  Forall2 (fun t t' =>
             if String.eqb (Table.id t) id
             then movedOnScreen (movementX e) (movementY e) (zoom st) t t'
             else t' = t)
          (tables st) (tables st')
  /\ relationships st' = relationships st.
Proof.
  intros Hd Hne Hz. cbn zeta. split.
  - rewrite handleMouseMove_tables, Hd.
    assert (Ht : truthy (Some id) = true).
    { cbn. now apply negb_true_iff, String.eqb_neq. }
    rewrite Ht. apply Forall2_map_self. intros t _.
    cbn [opt_eqb]. destruct (String.eqb (Table.id t) id); [|reflexivity].
    unfold movedOnScreen. cbn. repeat split; field; exact Hz.
  - apply handleMouseMove_keeps.
Qed.

(** X4. While a connection is pending, a press on a table body neither
    selects nor starts dragging it: the pending connection stays, and a
    following pointer move moves no table. *)
Theorem pending_connection_blocks_drag (tableId : string) (e : MouseEvent)
    (rect : option DOMRect) (c : ConnectionState) (st : State) :
  connectionStart st = Some c ->
  draggingTableId st = None ->
  let st1 := handleTableMouseDown tableId st in
  connectionStart st1 = Some c
  /\ selectedTableId st1 = selectedTableId st
  /\ draggingTableId st1 = None
  /\ tables (handleMouseMove e rect st1) = tables st.
Proof.
  intros Hc Hd. cbn zeta.
  assert (E : handleTableMouseDown tableId st = closeContextMenu st).
  { unfold handleTableMouseDown. now rewrite Hc. }
  rewrite E, handleMouseMove_tables.
  assert (Hd' : draggingTableId (closeContextMenu st) = None).
  { unfold closeContextMenu. destruct (contextMenu st); exact Hd. }
  rewrite Hd', closeContextMenu_connectionStart, closeContextMenu_tables.
  repeat split; auto.
  unfold closeContextMenu. destruct (contextMenu st); reflexivity.
Qed.

(** X5. A left press on the empty canvas cancels a pending connection and
    clears the selection without touching the graph, so the next handle
    click starts a new connection instead of completing the old one.  A press
    inside the context menu changes nothing at all. *)
Theorem background_press_cancels_connection (e : MouseEvent) (st : State) :
  (inContextMenu e = false -> button e = 0%Z ->
   let st1 := handleMouseDown e st in
   connectionStart st1 = None
   /\ selectedTableId st1 = None
   /\ contextMenu st1 = None
   /\ tables st1 = tables st
   /\ relationships st1 = relationships st
   /\ forall tableId fieldId uuid rnd,
        connectionStart (handleConnect tableId fieldId uuid rnd st1)
          = Some (mkConnectionState tableId fieldId)
        /\ relationships (handleConnect tableId fieldId uuid rnd st1)
           = relationships st)
  /\ (inContextMenu e = true -> handleMouseDown e st = st).
Proof.
  split.
  - intros Hm Hb. cbn zeta.
    assert (Hc : connectionStart (handleMouseDown e st) = None).
    { unfold handleMouseDown. now rewrite Hm, Hb. }
    assert (Hr : relationships (handleMouseDown e st) = relationships st).
    { unfold handleMouseDown. rewrite Hm, Hb. cbn.
      apply closeContextMenu_relationships. }
    split; [exact Hc|]. split.
    { unfold handleMouseDown. now rewrite Hm, Hb. }
    split.
    { unfold handleMouseDown, closeContextMenu. rewrite Hm, Hb.
      destruct (contextMenu st) eqn:E; cbn; [reflexivity|exact E]. }
    split.
    { unfold handleMouseDown. rewrite Hm, Hb. cbn.
      apply closeContextMenu_tables. }
    split; [exact Hr|].
    intros tableId fieldId uuid rnd.
    destruct (handleConnect_start tableId fieldId uuid rnd _ Hc) as [H1 H2].
    split; [exact H2|]. now rewrite H1.
  - intros Hm. unfold handleMouseDown. now rewrite Hm.
Qed.

(** X6. While a connection is pending, a pointer move stores as preview
    point the world position of the pointer: mapped back to the screen
    (times zoom, plus offset) it is the pointer position relative to the
    canvas element. *)
Theorem preview_point_round_trip (e : MouseEvent) (rect : DOMRect)
    (c : ConnectionState) (st : State) :
  connectionStart st = Some c ->
  ~ zoom st == 0 ->
  let st' := handleMouseMove e (Some rect) st in
  Point.x (mousePos st') * zoom st + Point.x (offset st)
    == clientX e - rect_left rect
  /\ Point.y (mousePos st') * zoom st + Point.y (offset st)
     == clientY e - rect_top rect.
Proof.
  intros Hc Hz. cbn zeta. unfold handleMouseMove. rewrite Hc.
  destruct (isDraggingCanvas st), (truthy (draggingTableId st));
    cbn; split; field; exact Hz.
Qed.

(** ** Zoom buttons *)

Lemma zoomStep_bounds (st : State) (i : ZoomInput) :
  2 # 10 <= zoom st <= 3 -> 2 # 10 <= zoom (zoomStep st i) <= 3.
Proof.
  intros [Hlo Hhi]. destruct i as [deltaY| |]; cbn [zoomStep].
  - rewrite handleWheel_zoom. apply clamp_bounds.
  - cbn [zoomInClick setZoom zoom]. split.
    + apply Q.min_glb; lra.
    + apply Qle_trans with 2; [apply Q.le_min_l|lra].
  - cbn [zoomOutClick setZoom zoom]. split.
    + apply Q.le_max_l.
    + apply Q.max_lub; lra.
Qed.

(** X7. From a zoom in [0.2, 3], any sequence of wheel events and zoom
    button clicks leaves the zoom in [0.2, 3].  The zoom-in button never
    leaves the zoom above 2: pressed at a zoom of 1.9 or more (the wheel
    reaches 3) it sets the zoom to 2. *)
Theorem zoom_inputs_in_range (inputs : list ZoomInput) (st : State) :
  2 # 10 <= zoom st <= 3 ->
  2 # 10 <= zoom (fold_left zoomStep inputs st) <= 3
  /\ zoom (zoomInClick st) <= 2
  /\ (19 # 10 <= zoom st -> zoom (zoomInClick st) == 2).
Proof.
  intros Hst. split; [|split].
  - revert st Hst. induction inputs as [|i inputs IH]; intros st Hst.
    + exact Hst.
    + cbn [fold_left]. apply IH. now apply zoomStep_bounds.
  - cbn [zoomInClick setZoom zoom]. apply Q.le_min_l.
  - intros H. cbn [zoomInClick setZoom zoom]. apply Q.min_l. lra.
Qed.

(** ** Field colors and the focus filter *)

Lemma opt_eqb_sym (a b : option string) : opt_eqb a b = opt_eqb b a.
Proof.
  destruct a as [s|], b as [s'|]; cbn; auto using String.eqb_sym.
Qed.

Lemma effectiveColor_nonempty (r : Relationship) : effectiveColor r <> "".
Proof.
  unfold effectiveColor, truthy_val.
  destruct (Relationship.color r) as [c|]; cbn; [|discriminate].
  destruct (String.eqb c "") eqn:E; cbn; [discriminate|].
  now apply String.eqb_neq.
Qed.

Lemma mapGet_writeFieldColor (fid : string) (f : option string) (c : string)
    (m : ColorMap) :
  mapGet fid (writeFieldColor f c m)
  = if opt_eqb f (Some fid) && negb (String.eqb fid "")
    then Some c else mapGet fid m.
Proof.
  destruct f as [f|]; cbn [writeFieldColor opt_eqb truthy andb];
    [|reflexivity].
  destruct (String.eqb f fid) eqn:E.
  - apply String.eqb_eq in E. subst f.
    destruct (String.eqb fid ""); cbn; [reflexivity|].
    now rewrite String.eqb_refl.
  - destruct (String.eqb f ""); cbn; [reflexivity|]. now rewrite E.
Qed.

Lemma mapGet_colorWrites (fid : string) (r : Relationship) (m : ColorMap) :
  mapGet fid (colorWrites m r)
  = if referencesField fid r && negb (String.eqb fid "")
    then Some (effectiveColor r)
    else mapGet fid m.
Proof.
  unfold colorWrites, referencesField. rewrite !mapGet_writeFieldColor.
  destruct (opt_eqb (Relationship.sourceFieldId r) (Some fid)),
    (opt_eqb (Relationship.targetFieldId r) (Some fid)),
    (String.eqb fid ""); reflexivity.
Qed.

Lemma mapGet_fold_some (fid : string) (rels : list Relationship) :
  forall (m : ColorMap) (c : string),
    mapGet fid (fold_left colorWrites rels m) = Some c ->
    (fid <> "" /\ exists r, In r rels /\ referencesField fid r = true
                            /\ effectiveColor r = c)
    \/ mapGet fid m = Some c.
Proof.
  induction rels as [|r rels IH]; intros m c H; cbn [fold_left] in H.
  - now right.
  - apply IH in H. destruct H as [(Hne & r' & Hin & Hr')|H].
    + left. split; [exact Hne|]. exists r'. split; [now right|exact Hr'].
    + rewrite mapGet_colorWrites in H.
      destruct (referencesField fid r && negb (String.eqb fid "")) eqn:E;
        [|now right].
      apply andb_true_iff in E. destruct E as [E1 E2].
      apply negb_true_iff, String.eqb_neq in E2. injection H as <-.
      left. split; [exact E2|]. exists r. split; [now left|auto].
Qed.

Lemma mapGet_fold_none (fid : string) (rels : list Relationship) :
  forall m : ColorMap,
    mapGet fid (fold_left colorWrites rels m) = None <->
    mapGet fid m = None
    /\ forall r, In r rels ->
                 referencesField fid r && negb (String.eqb fid "") = false.
Proof.
  induction rels as [|r rels IH]; intros m; cbn [fold_left].
  - split; [intros H; split; [exact H|intros r []]|tauto].
  - rewrite IH, mapGet_colorWrites. split.
    + intros [H1 H2].
      destruct (referencesField fid r && negb (String.eqb fid "")) eqn:E;
        [discriminate|].
      split; [exact H1|]. intros r' [<-|Hr']; auto.
    + intros [H1 H2]. rewrite (H2 r (or_introl eq_refl)).
      split; [exact H1|]. intros r' Hr'. apply H2. now right.
Qed.

Lemma fieldColors_entries_aux (rels : list Relationship) (fid : string) :
  (forall c, mapGet fid (fieldColors rels) = Some c ->
             exists r, In r rels /\ referencesField fid r = true
                       /\ effectiveColor r = c)
  /\ (mapGet fid (fieldColors rels) = None <->
      fid = "" \/ forall r, In r rels -> referencesField fid r = false).
Proof.
  unfold fieldColors. split.
  - intros c H.
    destruct (mapGet_fold_some fid rels [] c H)
      as [(Hne & r & Hin & Hr & Hc)|H']; [eauto|discriminate].
  - rewrite mapGet_fold_none. cbn [mapGet]. split.
    + intros [_ H].
      destruct (String.eqb fid "") eqn:E; [left; now apply String.eqb_eq|].
      right. intros r Hr. specialize (H r Hr).
      now rewrite andb_true_r in H.
    + intros [->|H]; (split; [reflexivity|]); intros r Hr.
      * apply andb_false_r.
      * now rewrite (H r Hr).
Qed.

Lemma readProperty_string (k : string) (m : ColorMap) (c : string) :
  readProperty k m = ReadString c -> mapGet k m = Some c.
Proof.
  unfold readProperty. destruct (String.eqb k "__proto__"); [discriminate|].
  destruct (mapGet k m) as [c'|]; [congruence|].
  destruct (existsb (String.eqb k) objectPrototypeKeys); discriminate.
Qed.

Lemma objectPrototypeKey_spec (k : string) :
  existsb (String.eqb k) objectPrototypeKeys = true
  <-> In k objectPrototypeKeys.
Proof.
  rewrite existsb_exists. split.
  - intros (k' & Hin & E). apply String.eqb_eq in E. now subst k'.
  - intros Hin. exists k. split; [exact Hin|apply String.eqb_refl].
Qed.

(** X8. Reading the color map at a field id gives a string exactly when
    the id is not empty, is not [__proto__], and some relationship has it as
    source or target field; the string is then the display color
    ([r.color || '#3b82f6']) of such a relationship, never an empty string.
    The read gives [undefined] exactly when the id is not a property name of
    [Object.prototype] and is empty or the field of no relationship; in the
    remaining cases it gives an inherited value, which is no string. *)
Theorem fieldColors_entries (rels : list Relationship) (fid : string) :
  (forall c, readProperty fid (fieldColors rels) = ReadString c ->
             c <> ""
             /\ exists r, In r rels /\ referencesField fid r = true
                          /\ effectiveColor r = c)
  /\ ((exists c, readProperty fid (fieldColors rels) = ReadString c) <->
      fid <> "" /\ fid <> "__proto__"
      /\ exists r, In r rels /\ referencesField fid r = true)
  /\ (readProperty fid (fieldColors rels) = ReadUndefined <->
      ~ In fid objectPrototypeKeys
      /\ (fid = "" \/ forall r, In r rels -> referencesField fid r = false)).
Proof.
  assert (Hstr : forall c, readProperty fid (fieldColors rels) = ReadString c ->
                 fid <> "" /\ c <> ""
                 /\ exists r, In r rels /\ referencesField fid r = true
                              /\ effectiveColor r = c).
  { intros c H. apply readProperty_string in H. unfold fieldColors in H.
    destruct (mapGet_fold_some fid rels [] c H)
      as [(Hne & r & Hin & Hr & Hc)|H']; [|discriminate].
    split; [exact Hne|]. split; [|eauto].
    subst c. apply effectiveColor_nonempty. }
  split; [|split].
  - intros c H. apply Hstr in H. tauto.
  - split.
    + intros [c H]. destruct (Hstr c H) as (Hne & _ & r & Hin & Hr & _).
      split; [exact Hne|]. split; [|eauto].
      intros ->. discriminate H.
    + intros (Hne & Hp & r & Hin & Hr). unfold readProperty.
      apply String.eqb_neq in Hp. rewrite Hp.
      destruct (mapGet fid (fieldColors rels)) as [c|] eqn:Hg; [eauto|].
      apply (proj1 (proj2 (fieldColors_entries_aux rels fid))) in Hg.
      destruct Hg as [Hg|Hg]; [contradiction|].
      rewrite (Hg r Hin) in Hr. discriminate.
  - unfold readProperty.
    destruct (String.eqb fid "__proto__") eqn:Ep.
    + apply String.eqb_eq in Ep. subst fid.
      split; [discriminate|]. intros [Hn _]. exfalso. apply Hn.
      cbn. tauto.
    + destruct (mapGet fid (fieldColors rels)) as [c'|] eqn:Hg.
      * split; [discriminate|]. intros [_ Hno].
        apply (proj2 (fieldColors_entries_aux rels fid)) in Hno. congruence.
      * apply (proj1 (proj2 (fieldColors_entries_aux rels fid))) in Hg.
        destruct (existsb (String.eqb fid) objectPrototypeKeys) eqn:Ek.
        -- apply objectPrototypeKey_spec in Ek.
           split; [discriminate|]. intros [Hn _]. contradiction.
        -- split; [|reflexivity]. intros _. split; [|exact Hg].
           intros Hin. apply objectPrototypeKey_spec in Hin. congruence.
Qed.

Lemma renderConnectionLine_opacity (st : State) (r : Relationship)
    (line : ConnectionLine) :
  renderConnectionLine st r = Some line ->
  cl_opacity line
  = if truthy (highlightedColor st)
       && negb (opt_eqb (Relationship.color r) (highlightedColor st))
    then 1 # 10 else 1.
Proof.
  unfold renderConnectionLine.
  destruct (find _ (tables st)) as [source|]; [|discriminate].
  destruct (find _ (tables st)) as [target|]; [|discriminate].
  destruct (routePath r source target) as [[[pathD start] end_] arrow].
  intros H. injection H as <-. reflexivity.
Qed.

(** X9. Without a highlighted color no table is dimmed and every rendered
    relationship has full opacity.  With a highlighted color, a rendered
    relationship has full opacity exactly when its stored color is that
    color, and a table that is not dimmed has a field that is the source or
    target field of a relationship whose display color is that color. *)
Theorem focus_filter (rels : list Relationship) (table : Table)
    (st : State) (r : Relationship) (line : ConnectionLine) :
  renderConnectionLine st r = Some line ->
  isTableDimmed table (fieldColors rels) None = false
  /\ (highlightedColor st = None -> cl_opacity line = 1)
  /\ (forall hc, hc <> "" ->
        highlightedColor st = Some hc ->
        (cl_opacity line = 1 <-> Relationship.color r = Some hc))
  /\ (forall hc, hc <> "" ->
        isTableDimmed table (fieldColors rels) (Some hc) = false ->
        exists f r', In f (Table.fields table) /\ In r' rels
                     /\ referencesField (Field.id f) r' = true
                     /\ effectiveColor r' = hc).
Proof.
  intros Hline. apply renderConnectionLine_opacity in Hline.
  split; [reflexivity|]. split; [|split].
  - intros Hn. now rewrite Hline, Hn.
  - intros hc Hne Hh. rewrite Hline, Hh.
    assert (Ht : truthy (Some hc) = true).
    { cbn. now apply negb_true_iff, String.eqb_neq. }
    rewrite Ht. cbn [andb].
    destruct (opt_eqb (Relationship.color r) (Some hc)) eqn:E; cbn [negb].
    + apply opt_eqb_eq in E. tauto.
    + apply opt_eqb_neq in E. split; [discriminate|contradiction].
  - intros hc Hne Hd. unfold isTableDimmed in Hd.
    assert (Ht : truthy (Some hc) = true).
    { cbn. now apply negb_true_iff, String.eqb_neq. }
    rewrite Ht in Hd. cbn [andb] in Hd. apply negb_false_iff in Hd.
    apply existsb_exists in Hd. destruct Hd as (f & Hf & He).
    destruct (readProperty (Field.id f) (fieldColors rels)) as [|c|] eqn:Hr;
      try discriminate.
    cbn [readIs] in He. apply opt_eqb_eq in He. injection He as ->.
    apply readProperty_string in Hr. rename Hr into He.
    destruct (proj1 (fieldColors_entries_aux rels (Field.id f)) hc He)
      as (r' & Hin & Hr & Hc).
    exists f, r'. auto.
Qed.

(** ** Recoloring and deleting through the context menu *)

Lemma handleColorChange_active (newColor : string) (cm : ContextMenuState)
    (st : State) :
  contextMenu st = Some cm ->
  truthy (cm_relationshipId cm) = true ->
  let st' := handleColorChange newColor st in
  relationships st'
  = map (fun r => if opt_eqb (Some (Relationship.id r)) (cm_relationshipId cm)
                  then recolored newColor r else r)
        (relationships st)
  /\ tables st' = tables st
  /\ contextMenu st' = None
  /\ highlightedColor st'
     = (if opt_eqb (highlightedColor st) (Some (cm_color cm))
        then Some newColor else highlightedColor st).
Proof.
  intros Hm Ht. cbn zeta. unfold handleColorChange. rewrite Hm, Ht.
  destruct (opt_eqb (highlightedColor st) (Some (cm_color cm)));
    repeat split; reflexivity.
Qed.

(** X10. Choosing a color in the context menu writes nothing but colors:
    tables stay, the relationship collection keeps its length, order, ids,
    endpoints, cardinalities and labels, the relationships whose id is the
    menu's relationship id get the new color and all others stay as they are;
    the menu closes.  When the menu is closed or carries no relationship id
    the state does not change at all. *)
Theorem handleColorChange_only_recolors (newColor : string) (st : State) :
  let st' := handleColorChange newColor st in
  tables st' = tables st
  /\ (forall cm,
        contextMenu st = Some cm ->
        truthy (cm_relationshipId cm) = true ->
        contextMenu st' = None
        /\ Forall2 (fun r r' =>
                      if opt_eqb (Some (Relationship.id r))
                                 (cm_relationshipId cm)
                      then r' = recolored newColor r
                      else r' = r)
                   (relationships st) (relationships st'))
  /\ ((contextMenu st = None
       \/ exists cm, contextMenu st = Some cm
                     /\ truthy (cm_relationshipId cm) = false) ->
      st' = st).
Proof.
  cbn zeta. split; [|split].
  - unfold handleColorChange.
    destruct (contextMenu st) as [cm|]; [|reflexivity].
    destruct (truthy (cm_relationshipId cm)); [|reflexivity].
    destruct (opt_eqb (highlightedColor st) (Some (cm_color cm)));
      reflexivity.
  - intros cm Hm Ht.
    destruct (handleColorChange_active newColor cm st Hm Ht)
      as (Hr & _ & Hc & _).
    split; [exact Hc|]. rewrite Hr. apply Forall2_map_self.
    intros r _.
    destruct (opt_eqb (Some (Relationship.id r)) (cm_relationshipId cm));
      reflexivity.
  - unfold handleColorChange. intros [->|(cm & -> & ->)]; reflexivity.
Qed.

(** X11. Focus follows a recolor: when the flow of a relationship [r] is
    focused (the highlighted color is the display color of [r]) and the user
    opens the context menu on [r] and picks a new color, the highlighted
    color becomes the new color, every relationship with the id of [r] has
    the new color and is rendered at full opacity, and every relationship
    with another id is one that was there before. *)
Theorem focus_follows_recolor (e : MouseEvent) (r : Relationship)
    (rect : DOMRect) (newColor : string) (st : State) :
  Relationship.id r <> "" ->
  newColor <> "" ->
  highlightedColor st = Some (effectiveColor r) ->
  let st' :=
    handleColorChange newColor
      (handleRelationshipContextMenu e r (Some rect) st) in
  highlightedColor st' = Some newColor
  /\ (forall r', In r' (relationships st') ->
        Relationship.id r' = Relationship.id r ->
        Relationship.color r' = Some newColor
        /\ forall line, renderConnectionLine st' r' = Some line ->
                        cl_opacity line = 1)
  /\ (forall r', In r' (relationships st') ->
        Relationship.id r' <> Relationship.id r ->
        In r' (relationships st)).
Proof.
  intros Hid Hnc Hh. cbn zeta.
  set (st1 := handleRelationshipContextMenu e r (Some rect) st).
  set (cm := mkContextMenuState (clientX e - rect_left rect)
               (clientY e - rect_top rect) (effectiveColor r) None None
               (Some (Relationship.id r))).
  assert (Hm : contextMenu st1 = Some cm) by reflexivity.
  assert (Ht : truthy (cm_relationshipId cm) = true).
  { cbn. now apply negb_true_iff, String.eqb_neq. }
  destruct (handleColorChange_active newColor cm st1 Hm Ht)
    as (Hr & _ & _ & Hhl).
  assert (Hhl' : highlightedColor (handleColorChange newColor st1)
                 = Some newColor).
  { rewrite Hhl. change (highlightedColor st1) with (highlightedColor st).
    rewrite Hh. cbn [cm_color cm]. now rewrite opt_eqb_refl. }
  split; [exact Hhl'|]. split.
  - intros r' Hin Heq. rewrite Hr in Hin. apply in_map_iff in Hin.
    destruct Hin as (r0 & Hr0 & _). cbn [cm cm_relationshipId opt_eqb] in Hr0.
    assert (Hc : Relationship.color r' = Some newColor).
    { destruct (String.eqb (Relationship.id r0) (Relationship.id r)) eqn:E.
      - now subst r'.
      - subst r'. apply String.eqb_neq in E. contradiction. }
    split; [exact Hc|]. intros line Hl.
    apply renderConnectionLine_opacity in Hl.
    rewrite Hl, Hhl', Hc, opt_eqb_refl. now rewrite andb_false_r.
  - intros r' Hin Hne. rewrite Hr in Hin. apply in_map_iff in Hin.
    destruct Hin as (r0 & Hr0 & Hin0). cbn [cm cm_relationshipId opt_eqb] in Hr0.
    destruct (String.eqb (Relationship.id r0) (Relationship.id r)) eqn:E.
    + apply String.eqb_eq in E. subst r'. cbn in Hne. contradiction.
    + now subst r'.
Qed.

(** X12. Disconnecting a field removes exactly the relationships that touch
    that field of that table (as source or target) and keeps all others in
    place; afterwards no relationship touches the field, the tables are as
    before, and disconnecting again changes nothing. *)
Theorem handleDisconnectField_exact (tableId fieldId : string) (st : State) :
  let st' := handleDisconnectField tableId fieldId st in
  Removed (fun r => touchesField tableId (Some fieldId) r = true)
          (relationships st) (relationships st')
  /\ (forall r, In r (relationships st') ->
                touchesField tableId (Some fieldId) r = false)
  /\ tables st' = tables st
  /\ relationships (handleDisconnectField tableId fieldId st')
     = relationships st'.
Proof.
  cbn zeta. unfold handleDisconnectField.
  cbn [relationships tables onRelationshipsUpdate].
  change (fun r : Relationship =>
            negb ((String.eqb (Relationship.sourceTableId r) tableId
                   && opt_eqb (Relationship.sourceFieldId r) (Some fieldId))
                  || (String.eqb (Relationship.targetTableId r) tableId
                      && opt_eqb (Relationship.targetFieldId r)
                                 (Some fieldId))))
    with (fun r => negb (touchesField tableId (Some fieldId) r)).
  split; [|split; [|split]].
  - apply Removed_filter. intros r. apply negb_false_iff.
  - intros r Hr. apply filter_In in Hr. destruct Hr as [_ Hr].
    now apply negb_true_iff.
  - reflexivity.
  - induction (relationships st) as [|r l IH]; cbn [filter]; [reflexivity|].
    destruct (negb (touchesField tableId (Some fieldId) r)) eqn:E;
      cbn [filter]; [rewrite E; now f_equal|exact IH].
Qed.

(** X13. [Delete Connection] after a right click on a relationship [r]
    removes exactly the relationships with the id of [r], keeps all others
    in place, leaves the tables and closes the menu. *)
Theorem menu_delete_removes_relationship (e : MouseEvent) (r : Relationship)
    (rect : DOMRect) (st : State) :
  Relationship.id r <> "" ->
  let st' :=
    menuDeleteConnection (handleRelationshipContextMenu e r (Some rect) st) in
  Removed (fun r' => Relationship.id r' = Relationship.id r)
          (relationships st) (relationships st')
  /\ tables st' = tables st
  /\ contextMenu st' = None.
Proof.
  intros Hid. cbn zeta. unfold menuDeleteConnection.
  cbn [handleRelationshipContextMenu contextMenu setContextMenu
         cm_relationshipId].
  assert (Ht : truthy (Some (Relationship.id r)) = true).
  { cbn. now apply negb_true_iff, String.eqb_neq. }
  rewrite Ht. split; [|split; reflexivity].
  cbn. apply Removed_filter. intros r'.
  rewrite negb_false_iff. apply String.eqb_eq.
Qed.

(** ** What every canvas operation keeps *)

Lemma FOP_filter {A : Type} (R : A -> A -> Prop) (p : A -> bool)
    (l : list A) :
  ForallOrdPairs R l -> ForallOrdPairs R (filter p l).
Proof.
  induction 1 as [|a l Ha _ IH]; cbn; [constructor|].
  destruct (p a); [|exact IH]. constructor; [|exact IH].
  rewrite Forall_forall in *. intros b Hb. apply Ha.
  now apply filter_In in Hb.
Qed.

Lemma FOP_map {A : Type} (R : A -> A -> Prop) (f : A -> A) (l : list A) :
  (forall a b, R a b -> R (f a) (f b)) ->
  ForallOrdPairs R l -> ForallOrdPairs R (map f l).
Proof.
  intros Hf. induction 1 as [|a l Ha _ IH]; cbn; constructor; [|exact IH].
  rewrite Forall_forall in *. intros b Hb. apply in_map_iff in Hb.
  destruct Hb as (b0 & <- & Hb0). auto.
Qed.

Lemma FOP_snoc {A : Type} (R : A -> A -> Prop) (l : list A) (x : A) :
  ForallOrdPairs R l -> Forall (fun a => R a x) l ->
  ForallOrdPairs R (l ++ [x]).
Proof.
  induction 1 as [|a l Ha _ IH]; intros Hx; cbn.
  - repeat constructor.
  - inversion Hx as [|? ? Hax Hx']; subst. constructor; [|now apply IH].
    apply Forall_app. split; [exact Ha|]. now constructor.
Qed.

Lemma between_swap (a x : Relationship) :
  between (sourceOf a) (targetOf a) x = between (sourceOf x) (targetOf x) a.
Proof.
  unfold between, connects, sourceOf, targetOf. cbn [fst snd].
  rewrite (String.eqb_sym (Relationship.sourceTableId a)
                          (Relationship.sourceTableId x)).
  rewrite (String.eqb_sym (Relationship.targetTableId a)
                          (Relationship.targetTableId x)).
  rewrite (String.eqb_sym (Relationship.sourceTableId a)
                          (Relationship.targetTableId x)).
  rewrite (String.eqb_sym (Relationship.targetTableId a)
                          (Relationship.sourceTableId x)).
  rewrite (opt_eqb_sym (Relationship.sourceFieldId a)
                       (Relationship.sourceFieldId x)).
  rewrite (opt_eqb_sym (Relationship.targetFieldId a)
                       (Relationship.targetFieldId x)).
  rewrite (opt_eqb_sym (Relationship.sourceFieldId a)
                       (Relationship.targetFieldId x)).
  rewrite (opt_eqb_sym (Relationship.targetFieldId a)
                       (Relationship.sourceFieldId x)).
  repeat match goal with
         | |- context [String.eqb ?u ?v] => destruct (String.eqb u v)
         | |- context [opt_eqb ?u ?v] => destruct (opt_eqb u v)
         end; reflexivity.
Qed.

Lemma wellConnected_filter (p : Relationship -> bool)
    (rels : list Relationship) :
  wellConnected rels -> wellConnected (filter p rels).
Proof.
  intros [Hs Hd]. split; [|now apply FOP_filter].
  rewrite Forall_forall in *. intros r Hr. apply Hs.
  now apply filter_In in Hr.
Qed.

Lemma wellConnected_recolor (f : Relationship -> Relationship)
    (rels : list Relationship) :
  (forall r, sourceOf (f r) = sourceOf r /\ targetOf (f r) = targetOf r) ->
  wellConnected rels -> wellConnected (map f rels).
Proof.
  intros Hf [Hs Hd].
  assert (Hsel : forall r, selfConnected (f r) = selfConnected r).
  { intros r. destruct (Hf r) as [H1 H2].
    unfold sourceOf, targetOf in H1, H2. unfold selfConnected.
    injection H1 as -> ->. injection H2 as -> ->. reflexivity. }
  assert (Hbt : forall a b r, between a b (f r) = between a b r).
  { intros a b r. destruct (Hf r) as [H1 H2].
    unfold sourceOf, targetOf in H1, H2. unfold between, connects.
    injection H1 as -> ->. injection H2 as -> ->. reflexivity. }
  split.
  - rewrite Forall_forall in *. intros r Hr. apply in_map_iff in Hr.
    destruct Hr as (r0 & <- & Hr0). rewrite Hsel. auto.
  - apply FOP_map; [|exact Hd]. intros a b Hab.
    destruct (Hf a) as [-> ->]. now rewrite Hbt.
Qed.

(** X14. Every operation of the canvas keeps the relationship collection
    well connected: if no relationship joins an endpoint to itself and no two
    relationships join the same pair of endpoints (in either order), the same
    holds after the operation. *)
Theorem dispatch_keeps_wellConnected (a : Action) (st : State) :
  wellConnected (relationships st) ->
  wellConnected (relationships (dispatch a st)).
Proof.
  intros Hw.
  destruct a as [tableId fieldId uuid rnd | tableId fieldId | id | newColor
                | id updates | table fieldId | id | deltaY];
    cbn [dispatch].
  - destruct (connectionStart st) as [start|] eqn:Hs.
    + destruct (handleConnect_end tableId fieldId uuid rnd st start Hs)
        as [_ ->].
      destruct (String.eqb (cs_tableId start) tableId
                && opt_eqb (cs_fieldId start) fieldId) eqn:Esame;
        [exact Hw|].
      destruct (existsb (between (startEndpoint start) (tableId, fieldId))
                        (relationships st)) eqn:Eex; [exact Hw|].
      destruct Hw as [Hself Hdup]. split.
      * apply Forall_app. split; [exact Hself|].
        constructor; [exact Esame|constructor].
      * apply FOP_snoc; [exact Hdup|].
        rewrite Forall_forall. intros r Hr. rewrite between_swap.
        change (between (startEndpoint start) (tableId, fieldId) r = false).
        destruct (between (startEndpoint start) (tableId, fieldId) r) eqn:Eb;
          [|reflexivity].
        assert (Ex : existsb (between (startEndpoint start)
                                      (tableId, fieldId))
                             (relationships st) = true).
        { apply existsb_exists. exists r. split; [exact Hr|exact Eb]. }
        congruence.
    + destruct (handleConnect_start tableId fieldId uuid rnd st Hs) as [-> _].
      exact Hw.
  - now apply wellConnected_filter.
  - now apply wellConnected_filter.
  - unfold handleColorChange.
    destruct (contextMenu st) as [cm|]; [|exact Hw].
    destruct (truthy (cm_relationshipId cm)); [|exact Hw].
    assert (Hmap : wellConnected
              (map (fun r =>
                      if opt_eqb (Some (Relationship.id r))
                                 (cm_relationshipId cm)
                      then recolored newColor r else r)
                   (relationships st))).
    { apply wellConnected_recolor; [|exact Hw]. intros r.
      destruct (opt_eqb (Some (Relationship.id r)) (cm_relationshipId cm));
        split; reflexivity. }
    destruct (opt_eqb (highlightedColor st) (Some (cm_color cm)));
      exact Hmap.
  - exact Hw.
  - exact Hw.
  - now apply wellConnected_filter.
  - exact Hw.
Qed.

(** ** Table deletion and the routes of what remains *)

Lemma find_after_delete (id k : string) (l : list Table) :
  k <> id ->
  find (fun t => String.eqb (Table.id t) k)
       (filter (fun t => negb (String.eqb (Table.id t) id)) l)
  = find (fun t => String.eqb (Table.id t) k) l.
Proof.
  intros Hk. induction l as [|t l IH]; cbn [filter find]; [reflexivity|].
  destruct (String.eqb (Table.id t) id) eqn:E; cbn [negb find].
  - apply String.eqb_eq in E.
    destruct (String.eqb (Table.id t) k) eqn:E'; [|exact IH].
    apply String.eqb_eq in E'. congruence.
  - now rewrite IH.
Qed.

Lemma existsb_after_delete (id k : string) (l : list Table) :
  k <> id ->
  existsb (fun t => String.eqb (Table.id t) k)
          (filter (fun t => negb (String.eqb (Table.id t) id)) l)
  = existsb (fun t => String.eqb (Table.id t) k) l.
Proof.
  intros Hk. induction l as [|t l IH]; cbn [filter existsb]; [reflexivity|].
  destruct (String.eqb (Table.id t) id) eqn:E; cbn [negb existsb].
  - apply String.eqb_eq in E.
    destruct (String.eqb (Table.id t) k) eqn:E'; [|exact IH].
    apply String.eqb_eq in E'. congruence.
  - now rewrite IH.
Qed.

(** X15. Deleting a table changes nothing for the relationships that
    remain: each of them is rendered exactly as before (same path, or still
    not rendered), and it is dangling after the deletion only if it was
    dangling before. *)
Theorem handleTableDelete_keeps_routes (id : string) (st : State)
    (r : Relationship) :
  In r (relationships (handleTableDelete id st)) ->
  renderConnectionLine (handleTableDelete id st) r = renderConnectionLine st r
  /\ dangling (handleTableDelete id st) r = dangling st r.
Proof.
  intros Hin. unfold handleTableDelete in Hin.
  cbn [relationships onRelationshipsUpdate onTablesUpdate] in Hin.
  apply filter_In in Hin. destruct Hin as [_ Hne].
  apply andb_true_iff in Hne. destruct Hne as [Hs Ht].
  apply negb_true_iff, String.eqb_neq in Hs, Ht.
  split.
  - unfold renderConnectionLine, handleTableDelete.
    cbn [tables highlightedColor draggingTableId onRelationshipsUpdate
           onTablesUpdate].
    now rewrite !find_after_delete.
  - unfold dangling, resolvesTable, resolvesField, handleTableDelete.
    cbn [tables onRelationshipsUpdate onTablesUpdate].
    rewrite !existsb_after_delete by assumption.
    destruct (Relationship.sourceFieldId r), (Relationship.targetFieldId r);
      rewrite ?find_after_delete by assumption; reflexivity.
Qed.

Lemma renderConnectionLine_no_source (st : State) (r : Relationship) :
  find (fun t => String.eqb (Table.id t) (Relationship.sourceTableId r))
       (tables st) = None ->
  renderConnectionLine st r = None.
Proof. intros H. unfold renderConnectionLine. now rewrite H. Qed.

Lemma find_deleted (id : string) (l : list Table) :
  find (fun t => String.eqb (Table.id t) id)
       (filter (fun t => negb (String.eqb (Table.id t) id)) l) = None.
Proof.
  induction l as [|t l IH]; cbn [filter find]; [reflexivity|].
  destruct (String.eqb (Table.id t) id) eqn:E; cbn [negb find];
    [exact IH|now rewrite E].
Qed.

(** X16. Deleting a table does not cancel a connection that is pending
    from one of its handles: the pending state survives the deletion, and
    completing the gesture on another handle appends a relationship whose
    source table is the deleted one, which is never rendered. *)
Theorem pending_connection_survives_delete (id : string)
    (start : ConnectionState) (tableId : string) (fieldId : option string)
    (uuid : string) (rnd : Q) (st : State) :
  connectionStart st = Some start ->
  cs_tableId start = id ->
  startEndpoint start <> (tableId, fieldId) ->
  let st1 := handleTableDelete id st in
  let st2 := handleConnect tableId fieldId uuid rnd st1 in
  connectionStart st1 = Some start
  /\ exists r,
       relationships st2 = (relationships st1 ++ [r])%list
       /\ Relationship.sourceTableId r = id
       /\ renderConnectionLine st2 r = None.
Proof.
  intros Hs Hid Hne. cbn zeta.
  set (st1 := handleTableDelete id st).
  assert (Hs1 : connectionStart st1 = Some start) by exact Hs.
  split; [exact Hs1|].
  destruct (handleConnect_end tableId fieldId uuid rnd st1 start Hs1)
    as [_ Hr].
  assert (Esame : String.eqb (cs_tableId start) tableId
                  && opt_eqb (cs_fieldId start) fieldId = false).
  { destruct (_ && _) eqn:E; [|reflexivity].
    apply (same_endpoint_eqb (startEndpoint start) (tableId, fieldId)) in E.
    contradiction. }
  assert (Eex : existsb (between (startEndpoint start) (tableId, fieldId))
                        (relationships st1) = false).
  { apply existsb_false_of_all_false. intros r Hin.
    apply between_touchesTable. cbn [fst startEndpoint]. rewrite Hid.
    unfold st1, handleTableDelete in Hin.
    cbn [relationships onRelationshipsUpdate onTablesUpdate] in Hin.
    apply filter_In in Hin. destruct Hin as [_ Hk].
    unfold touchesTable. apply andb_true_iff in Hk.
    destruct Hk as [K1 K2]. apply negb_true_iff in K1, K2.
    now rewrite K1, K2. }
  rewrite Esame, Eex in Hr.
  exists (newRelationship (relationships st1) start tableId fieldId uuid rnd).
  split; [exact Hr|]. split; [exact Hid|].
  apply renderConnectionLine_no_source.
  cbn [newRelationship Relationship.sourceTableId]. rewrite Hid.
  assert (Ht : tables (handleConnect tableId fieldId uuid rnd st1)
               = tables st1).
  { unfold handleConnect. rewrite closeContextMenu_connectionStart, Hs1.
    rewrite Esame.
    change (fun r : Relationship =>
            (String.eqb (Relationship.sourceTableId r) (cs_tableId start)
             && String.eqb (Relationship.targetTableId r) tableId
             && opt_eqb (Relationship.sourceFieldId r) (cs_fieldId start)
             && opt_eqb (Relationship.targetFieldId r) fieldId)
            || (String.eqb (Relationship.sourceTableId r) tableId
                && String.eqb (Relationship.targetTableId r) (cs_tableId start)
                && opt_eqb (Relationship.sourceFieldId r) fieldId
                && opt_eqb (Relationship.targetFieldId r) (cs_fieldId start)))
      with (between (startEndpoint start) (tableId, fieldId)).
    rewrite closeContextMenu_relationships, Eex. cbn.
    apply closeContextMenu_tables. }
  rewrite Ht. apply find_deleted.
Qed.

(** ** Straight routes and the preview line *)

Lemma getIntersection_meets :
  forall (center1 : Point) (size1 : Size) (center2 : Point),
    0 < Size.width size1 -> 0 < Size.height size1 ->
    ~ (Point.x center2 == Point.x center1
       /\ Point.y center2 == Point.y center1) ->
    onBoundary center1 size1 (getIntersection center1 size1 center2)
    /\ onRay center1 center2 (getIntersection center1 size1 center2).
Proof.
  intros c1 sz c2 Hw Hh Hne. unfold getIntersection, onBoundary, onRay.
  set (dx := Point.x c2 - Point.x c1). set (dy := Point.y c2 - Point.y c1).
  set (w := Size.width sz) in *. set (h := Size.height sz) in *.
  destruct (Qeq_bool dx 0 && Qeq_bool dy 0) eqn:E.
  { exfalso. apply andb_true_iff in E. destruct E as [Ex Ey].
    apply Qeq_bool_iff in Ex, Ey. apply Hne. subst dx dy. split; lra. }
  assert (Hasp : w / h * h == w) by (field; lra).
  assert (Hasp0 : 0 < w / h) by (apply Qlt_shift_div_l; lra).
  destruct (Qgtb (Qabs dx) (w / h * Qabs dy)) eqn:G; cbn [Point.x Point.y].
  + unfold Qgtb in G. apply negb_true_iff in G.
    assert (Hlt : w / h * Qabs dy < Qabs dx).
    { apply Qnot_le_lt. intros Hle. apply Qle_bool_iff in Hle. congruence. }
    assert (HA : 0 < Qabs dx).
    { eapply Qle_lt_trans; [|exact Hlt].
      apply Qmult_le_0_compat; [lra|apply Qabs_nonneg]. }
    set (s := w / 2 / Qabs dx).
    assert (Hs : s * Qabs dx == w / 2) by (unfold s; field; lra).
    destruct (exit_vertical w h (Qabs dx) (Qabs dy) s (w / h) Hw Hh
                (Qabs_nonneg dy) Hasp Hlt Hs) as (_ & Hs0 & Hy).
    split.
    * left.
      setoid_replace (Point.x c1 + dx * s - Point.x c1) with (dx * s) by ring.
      setoid_replace (Point.y c1 + dy * s - Point.y c1) with (dy * s) by ring.
      rewrite !Qabs_scaled by exact Hs0. split; [|exact Hy].
      rewrite Qmult_comm. exact Hs.
    * exists s. repeat split; [exact Hs0|ring|ring].
  + unfold Qgtb in G. apply negb_false_iff in G. apply Qle_bool_iff in G.
    assert (HB : 0 < Qabs dy).
    { destruct (Qlt_le_dec 0 (Qabs dy)) as [H|H]; [exact H|exfalso].
      assert (Hy0 : Qabs dy == 0) by (pose proof (Qabs_nonneg dy); lra).
      assert (Hx0 : Qabs dx == 0).
      { rewrite Hy0 in G. pose proof (Qabs_nonneg dx). lra. }
      apply Qabs_zero in Hx0, Hy0.
      apply Qeq_bool_iff in Hx0, Hy0. rewrite Hx0, Hy0 in E. discriminate. }
    set (s := h / 2 / Qabs dy).
    assert (Hs : s * Qabs dy == h / 2) by (unfold s; field; lra).
    destruct (exit_horizontal w h (Qabs dx) (Qabs dy) s (w / h) Hw Hh
                HB Hasp G Hs) as (Hs0 & Hx).
    split.
    * right.
      setoid_replace (Point.x c1 + dx * s - Point.x c1) with (dx * s) by ring.
      setoid_replace (Point.y c1 + dy * s - Point.y c1) with (dy * s) by ring.
      rewrite !Qabs_scaled by exact Hs0. split; [|exact Hx].
      rewrite Qmult_comm. exact Hs.
    * exists s. repeat split; [exact Hs0|ring|ring].
Qed.

(** X17. A relationship between two whole tables (no field on either end)
    whose tables both exist, with different centers, is drawn as a straight
    line: it starts on the boundary of the source table's box on the ray
    toward the target's center, and ends, where the arrow head is put, on the
    boundary of the target table's box on the ray toward the source's
    center. *)
Theorem table_route_joins_boundaries (st : State) (r : Relationship)
    (source target : Table) :
  find (fun t => String.eqb (Table.id t) (Relationship.sourceTableId r))
       (tables st) = Some source ->
  find (fun t => String.eqb (Table.id t) (Relationship.targetTableId r))
       (tables st) = Some target ->
  truthy (Relationship.sourceFieldId r) = false ->
  truthy (Relationship.targetFieldId r) = false ->
  ~ (Point.x (tableCenter target) == Point.x (tableCenter source)
     /\ Point.y (tableCenter target) == Point.y (tableCenter source)) ->
  exists line start end_,
    renderConnectionLine st r = Some line
    /\ cl_pathD line = LinePath start end_
    /\ cl_arrowAt line = end_
    /\ onBoundary (tableCenter source) (tableSize source) start
    /\ onRay (tableCenter source) (tableCenter target) start
    /\ onBoundary (tableCenter target) (tableSize target) end_
    /\ onRay (tableCenter target) (tableCenter source) end_.
Proof.
  intros Hs Ht Hsf Htf Hne.
  unfold renderConnectionLine. rewrite Hs, Ht.
  unfold routePath. rewrite Hsf, Htf. cbn [orb].
  eexists. eexists. eexists.
  split; [reflexivity|]. cbn [cl_pathD cl_arrowAt].
  split; [reflexivity|]. split; [reflexivity|].
  fold (tableCenter source) (tableCenter target)
       (tableSize source) (tableSize target).
  destruct (getIntersection_meets (tableCenter source) (tableSize source)
              (tableCenter target)) as [B1 R1].
  { reflexivity. }
  { apply calculateTableHeight_pos. }
  { exact Hne. }
  destruct (getIntersection_meets (tableCenter target) (tableSize target)
              (tableCenter source)) as [B2 R2].
  { reflexivity. }
  { apply calculateTableHeight_pos. }
  { intros [Hx Hy]. apply Hne. split; symmetry; assumption. }
  repeat split; assumption.
Qed.

Lemma findIndexFrom_found {A : Type} (p : A -> bool) (l : list A) :
  existsb p l = true -> forall i, (i <= findIndexFrom p l i)%Z.
Proof.
  induction l as [|a l IH]; cbn; [discriminate|].
  intros H i. destruct (p a); [lia|].
  specialize (IH H (i + 1)%Z). lia.
Qed.

Lemma getFieldPosition_resolved (table : Table) (fieldId : string) :
  fieldId <> "" ->
  existsb (fun f => String.eqb (Field.id f) fieldId) (Table.fields table)
    = true ->
  Point.x (getFieldPosition table (Some fieldId))
  = Table.x table + Size.width TABLE_SIZE.
Proof.
  intros Hne Hex. unfold getFieldPosition.
  assert (Ht : truthy (Some fieldId) = true).
  { cbn. now apply negb_true_iff, String.eqb_neq. }
  rewrite Ht. cbn [negb].
  assert (Hi : (0 <= findIndex (fun f => opt_eqb (Some (Field.id f))
                                                 (Some fieldId))
                               (Table.fields table))%Z).
  { apply findIndexFrom_found. rewrite <- Hex. clear Hex.
    induction (Table.fields table) as [|f l IH]; cbn [existsb];
      [reflexivity|]. rewrite IH. reflexivity. }
  destruct (_ =? -1)%Z eqn:E; [apply Z.eqb_eq in E; lia|reflexivity].
Qed.

(** X18. A relationship between two fields that both exist in their tables
    is drawn as a cubic curve between the facing edges: with the target
    table to the right it leaves the source at its right edge and enters the
    target at its left edge, otherwise it leaves at the left edge and enters
    at the right edge.  Both ends keep the height of their field anchor, each
    control point is 50 units straight out of its edge, and the arrow vector
    is horizontal, pointing into the target. *)
Theorem field_route_facing_edges (st : State) (r : Relationship)
    (source target : Table) (sf tf : string) :
  find (fun t => String.eqb (Table.id t) (Relationship.sourceTableId r))
       (tables st) = Some source ->
  find (fun t => String.eqb (Table.id t) (Relationship.targetTableId r))
       (tables st) = Some target ->
  Relationship.sourceFieldId r = Some sf -> sf <> "" ->
  Relationship.targetFieldId r = Some tf -> tf <> "" ->
  existsb (fun f => String.eqb (Field.id f) sf) (Table.fields source) = true ->
  existsb (fun f => String.eqb (Field.id f) tf) (Table.fields target) = true ->
  exists line start cp1 cp2 end_,
    renderConnectionLine st r = Some line
    /\ cl_pathD line = CubicPath start cp1 cp2 end_
    /\ Point.y start = Point.y (getFieldPosition source (Some sf))
    /\ Point.y end_ = Point.y (getFieldPosition target (Some tf))
    /\ Point.y cp1 == Point.y start
    /\ Point.y cp2 == Point.y end_
    /\ Point.y (cl_arrowVector line) == 0
    /\ (Table.x source < Table.x target ->
        Point.x start == Table.x source + 280
        /\ Point.x end_ == Table.x target
        /\ Point.x cp1 == Point.x start + 50
        /\ Point.x cp2 == Point.x end_ - 50
        /\ Point.x (cl_arrowVector line) == 50)
    /\ (Table.x target <= Table.x source ->
        Point.x start == Table.x source
        /\ Point.x end_ == Table.x target + 280
        /\ Point.x cp1 == Point.x start - 50
        /\ Point.x cp2 == Point.x end_ + 50
        /\ Point.x (cl_arrowVector line) == - (50)).
Proof.
  intros Hs Ht Hsf Hsne Htf Htne Hse Hte.
  assert (Ts : truthy (Some sf) = true).
  { cbn. now apply negb_true_iff, String.eqb_neq. }
  assert (Tt : truthy (Some tf) = true).
  { cbn. now apply negb_true_iff, String.eqb_neq. }
  pose proof (getFieldPosition_resolved source sf Hsne Hse) as Xs.
  pose proof (getFieldPosition_resolved target tf Htne Hte) as Xt.
  unfold renderConnectionLine. rewrite Hs, Ht.
  unfold routePath. rewrite Hsf, Htf, Ts, Tt. cbn [orb].
  destruct (Qgtb (Table.x target) (Table.x source)) eqn:G.
  - assert (Hlt : Table.x source < Table.x target).
    { unfold Qgtb in G. apply negb_true_iff in G. apply Qnot_le_lt.
      intros H. apply Qle_bool_iff in H. congruence. }
    do 5 eexists. split; [reflexivity|]. cbn [cl_pathD cl_arrowVector].
    split; [reflexivity|]. cbn [Point.x Point.y setX].
    split; [reflexivity|]. split; [reflexivity|].
    split; [ring|]. split; [ring|]. split; [ring|]. split.
    + intros _. rewrite Xs. cbn [Size.width TABLE_SIZE].
      repeat split; try reflexivity; ring.
    + intros Hle. exfalso. lra.
  - assert (Hle : Table.x target <= Table.x source).
    { unfold Qgtb in G. apply negb_false_iff in G.
      now apply Qle_bool_iff. }
    do 5 eexists. split; [reflexivity|]. cbn [cl_pathD cl_arrowVector].
    split; [reflexivity|]. cbn [Point.x Point.y setX].
    split; [reflexivity|]. split; [reflexivity|].
    split; [ring|]. split; [ring|]. split; [ring|]. split.
    + intros Hlt. exfalso. lra.
    + intros _. rewrite Xt. cbn [Size.width TABLE_SIZE].
      repeat split; try reflexivity; ring.
Qed.

(** X19. The preview line of a pending connection ends at the preview
    point; it is not drawn exactly when nothing is pending or the pending
    source table no longer exists.  From a whole-table handle it starts on
    the boundary of the table's box on the ray toward the preview point; from
    a field handle it starts at the height of the field's anchor, on the
    table's left edge when the preview point is left of the table and where
    [getFieldPosition] puts the anchor otherwise. *)
Theorem preview_line_start (st : State) :
  (renderPreviewLine st = None <->
   connectionStart st = None
   \/ exists c, connectionStart st = Some c
                /\ find (fun t => String.eqb (Table.id t) (cs_tableId c))
                        (tables st) = None)
  /\ (forall p, renderPreviewLine st = Some p -> pv_end p = mousePos st)
  /\ (forall c source,
        connectionStart st = Some c ->
        find (fun t => String.eqb (Table.id t) (cs_tableId c)) (tables st)
          = Some source ->
        truthy (cs_fieldId c) = false ->
        ~ (Point.x (mousePos st) == Point.x (tableCenter source)
           /\ Point.y (mousePos st) == Point.y (tableCenter source)) ->
        exists p, renderPreviewLine st = Some p
                  /\ onBoundary (tableCenter source) (tableSize source)
                                (pv_start p)
                  /\ onRay (tableCenter source) (mousePos st) (pv_start p))
  /\ (forall c source,
        connectionStart st = Some c ->
        find (fun t => String.eqb (Table.id t) (cs_tableId c)) (tables st)
          = Some source ->
        truthy (cs_fieldId c) = true ->
        exists p, renderPreviewLine st = Some p
                  /\ Point.y (pv_start p)
                     = Point.y (getFieldPosition source (cs_fieldId c))
                  /\ (Point.x (mousePos st) < Table.x source ->
                      Point.x (pv_start p) = Table.x source)
                  /\ (Table.x source <= Point.x (mousePos st) ->
                      Point.x (pv_start p)
                      = Point.x (getFieldPosition source (cs_fieldId c)))).
Proof.
  split; [|split; [|split]].
  - unfold renderPreviewLine.
    destruct (connectionStart st) as [c|]; [|split; auto].
    destruct (find _ (tables st)) as [source|] eqn:Hf.
    + split; [discriminate|].
      intros [H|(c' & H & H')]; [discriminate|].
      injection H as <-. congruence.
    + split; [|reflexivity]. intros _. right. exists c. auto.
  - intros p. unfold renderPreviewLine.
    destruct (connectionStart st) as [c|]; [|discriminate].
    destruct (find _ (tables st)) as [source|]; [|discriminate].
    intros H. injection H as <-. reflexivity.
  - intros c source Hc Hf Ht Hne. unfold renderPreviewLine.
    rewrite Hc, Hf, Ht. eexists. split; [reflexivity|]. cbn [pv_start].
    apply (getIntersection_meets (tableCenter source) (tableSize source)
             (mousePos st)).
    + reflexivity.
    + apply calculateTableHeight_pos.
    + exact Hne.
  - intros c source Hc Hf Ht. unfold renderPreviewLine.
    rewrite Hc, Hf, Ht. eexists. split; [reflexivity|]. cbn [pv_start].
    destruct (Qgtb (Table.x source) (Point.x (mousePos st))) eqn:G.
    + split; [reflexivity|]. split; [reflexivity|].
      intros Hle. unfold Qgtb in G. apply negb_true_iff in G.
      apply Qle_bool_iff in Hle. congruence.
    + split; [reflexivity|]. split; [|reflexivity].
      intros Hlt. unfold Qgtb in G. apply negb_false_iff in G.
      apply Qle_bool_iff in G. lra.
Qed.

(** ** Adding a table *)

(** X20. A new table is appended to the table collection and selected; the
    relationships and the existing tables stay.  Its nominal center (140
    right of and 100 below its corner) is, on the screen, the center of the
    viewport left of the 320 wide sidebar, whatever the pan and zoom. *)
Theorem handleAddTable_centered (innerWidth innerHeight : Q)
    (tableUuid fieldUuid : string) (st : State) :
  ~ zoom st == 0 ->
  let st' := handleAddTable innerWidth innerHeight tableUuid fieldUuid st in
  exists t,
    tables st' = (tables st ++ [t])%list
    /\ Table.id t = tableUuid
    /\ map Field.id (Table.fields t) = [fieldUuid]
    /\ map Field.isPrimaryKey (Table.fields t) = [true]
    /\ (Table.x t + 140) * zoom st + Point.x (offset st)
       == (innerWidth - 320) / 2
    /\ (Table.y t + 100) * zoom st + Point.y (offset st) == innerHeight / 2
    /\ relationships st' = relationships st
    /\ selectedTableId st' = Some tableUuid.
Proof.
  intros Hz. cbn zeta. unfold handleAddTable. eexists.
  split; [reflexivity|]. cbn.
  repeat split; try reflexivity; field; exact Hz.
Qed.

Lemma filter_all {A : Type} (p : A -> bool) (l : list A) :
  (forall a, In a l -> p a = true) -> filter p l = l.
Proof.
  induction l as [|a l IH]; intros H; cbn; [reflexivity|].
  rewrite (H a (or_introl eq_refl)). f_equal. apply IH.
  intros b Hb. apply H. now right.
Qed.

(** X21. Adding a table under an id that no table and no relationship uses
    and deleting it again gives back the table collection and the
    relationship collection as they were. *)
Theorem add_then_delete_table (innerWidth innerHeight : Q)
    (tableUuid fieldUuid : string) (st : State) :
  (forall t, In t (tables st) -> Table.id t <> tableUuid) ->
  (forall r, In r (relationships st) ->
             Relationship.sourceTableId r <> tableUuid
             /\ Relationship.targetTableId r <> tableUuid) ->
  let st' :=
    handleTableDelete tableUuid
      (handleAddTable innerWidth innerHeight tableUuid fieldUuid st) in
  tables st' = tables st /\ relationships st' = relationships st.
Proof.
  intros Ht Hr. cbn zeta. unfold handleTableDelete, handleAddTable.
  cbn [tables relationships onTablesUpdate onRelationshipsUpdate
         onSelectTable Table.id].
  split.
  - rewrite filter_app. cbn [filter Table.id].
    rewrite String.eqb_refl. cbn [negb]. rewrite app_nil_r.
    apply filter_all. intros t Hin.
    apply negb_true_iff, String.eqb_neq. now apply Ht.
  - apply filter_all. intros r Hin. destruct (Hr r Hin) as [H1 H2].
    apply andb_true_iff. split; apply negb_true_iff, String.eqb_neq;
      assumption.
Qed.

(** ** Adding, editing and removing fields *)

Lemma findIndexFrom_app {A : Type} (p : A -> bool) (l l' : list A) :
  existsb p l = true ->
  forall i, findIndexFrom p (l ++ l') i = findIndexFrom p l i.
Proof.
  induction l as [|a l IH]; cbn; [discriminate|].
  intros H i. destruct (p a); [reflexivity|]. now apply IH.
Qed.

Lemma arrlen_snoc {A : Type} (l : list A) (x : A) :
  arrlen (l ++ [x]) == arrlen l + 1.
Proof.
  unfold arrlen. rewrite length_app. cbn [length].
  change 1 with (inject_Z 1). rewrite <- inject_Z_plus.
  apply inject_Z_injective. lia.
Qed.

Lemma handleTableUpdate_tables (id : string) (u : TableUpdates) (st : State) :
  Forall2 (fun t t' => if String.eqb (Table.id t) id
                       then t' = spreadTable t u else t' = t)
          (tables st) (tables (handleTableUpdate id u st)).
Proof.
  unfold handleTableUpdate. cbn [tables onTablesUpdate].
  apply Forall2_map_self. intros t _.
  destruct (String.eqb (Table.id t) id); reflexivity.
Qed.

Lemma withFields_fields (t : Table) (fs : list Field) :
  Table.fields (withFields t fs) = fs.
Proof. reflexivity. Qed.

Lemma withFields_desc (t : Table) (fs : list Field) :
  getTableDescHeight (withFields t fs) = getTableDescHeight t.
Proof. reflexivity. Qed.

Lemma withFields_image (t : Table) (fs : list Field) :
  Table.imageUrl (withFields t fs) = Table.imageUrl t.
Proof. reflexivity. Qed.

Lemma withFields_xy (t : Table) (fs : list Field) :
  Table.x (withFields t fs) = Table.x t
  /\ Table.y (withFields t fs) = Table.y t.
Proof. split; reflexivity. Qed.

(** X22. Adding a field appends it to the fields of the table of that id
    and writes nothing else: other tables and all relationships stay.  The
    table grows by one row of 33, and the anchor of every field the table
    already had stays where it was, so no existing connection moves. *)
Theorem handleAddField_keeps_anchors (table : Table) (uuid : string)
    (st : State) :
  let table' := withFields table (addedFields table uuid) in
  Forall2 (fun t t' =>
             if String.eqb (Table.id t) (Table.id table)
             then t' = withFields t (addedFields table uuid)
             else t' = t)
          (tables st) (tables (handleAddField table uuid st))
  /\ relationships (handleAddField table uuid st) = relationships st
  /\ calculateTableHeight table' == calculateTableHeight table + 33
  /\ (forall fieldId,
        fieldId <> "" ->
        existsb (fun f => String.eqb (Field.id f) fieldId)
                (Table.fields table) = true ->
        getFieldPosition table' (Some fieldId)
        = getFieldPosition table (Some fieldId)).
Proof.
  cbn zeta. split; [|split; [reflexivity|split]].
  - apply handleTableUpdate_tables.
  - unfold calculateTableHeight.
    rewrite withFields_fields, withFields_desc, withFields_image.
    unfold addedFields. rewrite arrlen_snoc. ring.
  - intros fieldId Hne Hex. unfold getFieldPosition.
    assert (Ht : truthy (Some fieldId) = true).
    { cbn. now apply negb_true_iff, String.eqb_neq. }
    rewrite Ht. cbn [negb].
    rewrite withFields_fields, withFields_desc, withFields_image.
    destruct (withFields_xy table (addedFields table uuid)) as [-> ->].
    unfold findIndex, addedFields.
    rewrite findIndexFrom_app by exact Hex.
    pose proof (findIndexFrom_found _ _ Hex 0%Z) as Hi.
    change (fun f : Field => String.eqb (Field.id f) fieldId)
      with (fun f : Field => opt_eqb (Some (Field.id f)) (Some fieldId)) in Hi.
    destruct (_ =? -1)%Z eqn:E; [apply Z.eqb_eq in E; lia|reflexivity].
Qed.

Lemma findIndexFrom_ids (k : option string) (l l' : list Field) :
  map Field.id l' = map Field.id l ->
  forall i,
    findIndexFrom (fun f => opt_eqb (Some (Field.id f)) k) l' i
    = findIndexFrom (fun f => opt_eqb (Some (Field.id f)) k) l i.
Proof.
  revert l'. induction l as [|f l IH]; intros [|f' l'] H i;
    try discriminate; [reflexivity|].
  cbn [map] in H. injection H as Hf Hl. cbn [findIndexFrom].
  rewrite Hf. destruct (opt_eqb (Some (Field.id f)) k); [reflexivity|].
  now apply IH.
Qed.

Lemma updatedFields_ids (table : Table) (fieldId : string)
    (updates : FieldUpdates) :
  fu_id updates = None ->
  map Field.id (updatedFields table fieldId updates)
  = map Field.id (Table.fields table).
Proof.
  intros Hu. unfold updatedFields. rewrite map_map. apply map_ext.
  intros f. destruct (String.eqb (Field.id f) fieldId); [|reflexivity].
  unfold spreadField. cbn. now rewrite Hu.
Qed.

(** X23. Editing a field without changing its id (name, type, flags,
    description) keeps the number and the ids of the table's fields, hence
    the table's height and the position [getFieldPosition] gives for any
    field id; fields with another id are not touched, and other tables and
    all relationships stay. *)
Theorem handleUpdateField_keeps_layout (table : Table) (fieldId : string)
    (updates : FieldUpdates) (st : State) :
  fu_id updates = None ->
  let table' := withFields table (updatedFields table fieldId updates) in
  Forall2 (fun f f' =>
             Field.id f' = Field.id f
             /\ (Field.id f <> fieldId -> f' = f))
          (Table.fields table) (Table.fields table')
  /\ calculateTableHeight table' = calculateTableHeight table
  /\ (forall k, getFieldPosition table' k = getFieldPosition table k)
  /\ Forall2 (fun t t' =>
                if String.eqb (Table.id t) (Table.id table)
                then t' = withFields t (updatedFields table fieldId updates)
                else t' = t)
             (tables st)
             (tables (handleUpdateField table fieldId updates st))
  /\ relationships (handleUpdateField table fieldId updates st)
     = relationships st.
Proof.
  intros Hu. cbn zeta.
  pose proof (updatedFields_ids table fieldId updates Hu) as Hids.
  assert (Hh : calculateTableHeight
                 (withFields table (updatedFields table fieldId updates))
               = calculateTableHeight table).
  { unfold calculateTableHeight.
    rewrite withFields_fields, withFields_desc, withFields_image.
    unfold arrlen. do 4 f_equal. do 2 f_equal.
    rewrite <- (length_map Field.id), Hids. apply length_map. }
  split; [|split; [exact Hh|split; [|split; [|reflexivity]]]].
  - rewrite withFields_fields. unfold updatedFields.
    apply Forall2_map_self. intros f _.
    destruct (String.eqb (Field.id f) fieldId) eqn:E.
    + split; [unfold spreadField; cbn; now rewrite Hu|].
      intros Hne. apply String.eqb_eq in E. contradiction.
    + split; [reflexivity|auto].
  - intros k. unfold getFieldPosition. rewrite Hh.
    rewrite withFields_fields, withFields_desc, withFields_image.
    destruct (withFields_xy table (updatedFields table fieldId updates))
      as [-> ->].
    unfold findIndex. now rewrite (findIndexFrom_ids k _ _ Hids).
  - apply handleTableUpdate_tables.
Qed.






(** ** The SQL export *)

Lemma find_sameSchema (k : string) (ts ts' : list Table) :
  Forall2 sameSchema ts ts' ->
  match find (fun t => String.eqb (Table.id t) k) ts,
        find (fun t => String.eqb (Table.id t) k) ts' with
  | Some a, Some b => sameSchema a b
  | None, None => True
  | _, _ => False
  end.
Proof.
  induction 1 as [|a b ts ts' Hab _ IH]; cbn [find]; [exact I|].
  destruct Hab as (Hid & Hrest). rewrite Hid.
  destruct (String.eqb (Table.id a) k); [|exact IH].
  split; assumption.
Qed.

Lemma foreignKeyLines_sameSchema (ts ts' : list Table)
    (rels : list Relationship) (t t' : Table) :
  Forall2 sameSchema ts ts' -> sameSchema t t' ->
  foreignKeyLines ts' rels t' = foreignKeyLines ts rels t.
Proof.
  intros Hts (Hid & _ & Hf & _). unfold foreignKeyLines. rewrite Hid, Hf.
  apply flat_map_ext. intros r.
  pose proof (find_sameSchema (Relationship.targetTableId r) ts ts' Hts) as H.
  destruct (find _ (Table.fields t)) as [sf|]; [|reflexivity].
  destruct (find _ ts) as [a|], (find _ ts') as [b|]; try contradiction;
    [|reflexivity].
  destruct H as (_ & Hn & Hfs & _). rewrite Hfs.
  destruct (find _ (Table.fields a)) as [tf|]; [|reflexivity].
  unfold foreignKeyLine. now rewrite Hn.
Qed.

Lemma tableSQL_sameSchema (ts ts' : list Table) (rels : list Relationship)
    (t t' : Table) :
  Forall2 sameSchema ts ts' -> sameSchema t t' ->
  tableSQL ts' rels t' = tableSQL ts rels t.
Proof.
  intros Hts Ht. unfold tableSQL.
  rewrite (foreignKeyLines_sameSchema ts ts' rels t t' Hts Ht).
  destruct Ht as (_ & -> & -> & ->). reflexivity.
Qed.

Lemma fold_tableSQL_sameSchema (ts ts' : list Table)
    (rels : list Relationship) :
  Forall2 sameSchema ts ts' ->
  forall l l', Forall2 sameSchema l l' ->
  forall sql,
    fold_left (fun sql t => sql ++ tableSQL ts' rels t) l' sql
    = fold_left (fun sql t => sql ++ tableSQL ts rels t) l sql.
Proof.
  intros Hts. induction 1 as [|t t' l l' Ht _ IH]; intros sql;
    cbn [fold_left]; [reflexivity|].
  rewrite (tableSQL_sameSchema _ _ _ _ _ Hts Ht). apply IH.
Qed.

Lemma generateSQL_sameSchema (st st' : State) :
  relationships st' = relationships st ->
  Forall2 sameSchema (tables st) (tables st') ->
  generateSQL st' = generateSQL st.
Proof.
  intros Hr Hts. unfold generateSQL. rewrite Hr.
  now apply fold_tableSQL_sameSchema.
Qed.

Lemma Forall2_same {A : Type} (R : A -> A -> Prop) (l : list A) :
  (forall a, R a a) -> Forall2 R l l.
Proof. intros H. induction l; constructor; auto. Qed.

(** X25. The SQL export does not depend on the view or on where the tables
    are: no pointer move (panning, dragging a table, moving the preview
    point) and no wheel event changes the generated text. *)
Theorem generateSQL_ignores_layout (st : State) :
  (forall e rect, generateSQL (handleMouseMove e rect st) = generateSQL st)
  /\ (forall deltaY, generateSQL (handleWheel deltaY st) = generateSQL st).
Proof.
  split; [|reflexivity].
  intros e rect. apply generateSQL_sameSchema.
  - apply handleMouseMove_keeps.
  - rewrite handleMouseMove_tables.
    destruct (truthy (draggingTableId st)).
    + apply Forall2_map_self. intros t _.
      destruct (opt_eqb (Some (Table.id t)) (draggingTableId st));
        repeat split; reflexivity.
    + apply Forall2_same. intros t. repeat split; reflexivity.
Qed.

(** X26. Every foreign key clause that the export emits for a table comes
    from a relationship whose source is that table and whose source field,
    target table and target field all exist; it names exactly those.  A
    relationship with a reference that does not resolve contributes no
    clause. *)
Theorem foreignKeyLines_resolved (st : State) (t : Table) (line : string) :
  In line (foreignKeyLines (tables st) (relationships st) t) ->
  exists r sf tbl tf,
    In r (relationships st)
    /\ Relationship.sourceTableId r = Table.id t
    /\ In sf (Table.fields t)
    /\ Relationship.sourceFieldId r = Some (Field.id sf)
    /\ In tbl (tables st)
    /\ Relationship.targetTableId r = Table.id tbl
    /\ In tf (Table.fields tbl)
    /\ Relationship.targetFieldId r = Some (Field.id tf)
    /\ line = foreignKeyLine sf tbl tf.
Proof.
  unfold foreignKeyLines. intros Hin. apply in_flat_map in Hin.
  destruct Hin as (r & Hr & Hl). apply filter_In in Hr.
  destruct Hr as [Hr Hcond].
  repeat (apply andb_true_iff in Hcond; destruct Hcond as [Hcond ?]).
  apply String.eqb_eq in Hcond.
  destruct (find _ (Table.fields t)) as [sf|] eqn:Hsf; [|destruct Hl].
  destruct (find _ (tables st)) as [tbl|] eqn:Htb; [|destruct Hl].
  destruct (find _ (Table.fields tbl)) as [tf|] eqn:Htf; [|destruct Hl].
  destruct Hl as [<-|[]].
  apply find_some in Hsf, Htb, Htf.
  destruct Hsf as [Hsf1 Hsf2], Htb as [Htb1 Htb2], Htf as [Htf1 Htf2].
  apply opt_eqb_eq in Hsf2, Htf2. apply String.eqb_eq in Htb2.
  exists r, sf, tbl, tf. repeat split; auto.
Qed.

(** * The further properties at concrete inputs *)

Lemma pan_tracks_pointer_witness :
  Point.x (offset (handleMouseMove sampleMove None
                     (mouseMoves [samplePress] None
                        (handleMouseDown samplePress initialState))))
  == Point.x (offset initialState)
     + (clientX sampleMove - clientX samplePress).
Proof.
  destruct (pan_tracks_pointer samplePress [samplePress] sampleMove None
              initialState eq_refl eq_refl) as [H _].
  exact H.
Defined.

Lemma drag_moves_only_dragged_table_witness :
  relationships (handleMouseMove sampleMove None draggingState)
  = relationships draggingState.
Proof.
  destruct (drag_moves_only_dragged_table sampleMove None "1" draggingState)
    as [_ H].
  - reflexivity.
  - discriminate.
  - intros H. discriminate H.
  - exact H.
Defined.

Lemma pending_connection_blocks_drag_witness :
  tables (handleMouseMove sampleMove None
            (handleTableMouseDown "2" pendingState))
  = tables pendingState.
Proof.
  destruct (pending_connection_blocks_drag "2" sampleMove None
              (mkConnectionState "1" (Some "f1")) pendingState
              eq_refl eq_refl) as (_ & _ & _ & H).
  exact H.
Defined.

Lemma background_press_cancels_connection_witness :
  connectionStart (handleMouseDown samplePress pendingState) = None
  /\ handleMouseDown menuPress pendingState = pendingState.
Proof.
  split.
  - destruct (proj1 (background_press_cancels_connection samplePress
                       pendingState) eq_refl eq_refl) as [H _].
    exact H.
  - apply (proj2 (background_press_cancels_connection menuPress
                    pendingState)).
    reflexivity.
Defined.

Lemma preview_point_round_trip_witness :
  Point.x (mousePos (handleMouseMove sampleMove (Some sampleRect)
                       pendingState))
  * zoom pendingState + Point.x (offset pendingState)
  == clientX sampleMove - rect_left sampleRect.
Proof.
  destruct (preview_point_round_trip sampleMove sampleRect
              (mkConnectionState "1" (Some "f1")) pendingState eq_refl)
    as [H _].
  - intros H. discriminate H.
  - exact H.
Defined.

Lemma zoom_inputs_in_range_witness :
  2 # 10 <= zoom (fold_left zoomStep
                    [WheelBy (-5000); ZoomInButton; ZoomOutButton]
                    initialState) <= 3
  /\ zoom (zoomInClick (handleWheel (-5000) initialState)) == 2.
Proof.
  split.
  - destruct (zoom_inputs_in_range
                [WheelBy (-5000); ZoomInButton; ZoomOutButton] initialState)
      as [H _]; [split; discriminate|exact H].
  - destruct (zoom_inputs_in_range [] (handleWheel (-5000) initialState))
      as (_ & _ & H); [split; discriminate|].
    apply H. discriminate.
Defined.

Lemma fieldColors_entries_witness :
  "#8b5cf6" <> ""
  /\ exists r, In r [accessRel] /\ referencesField "f1" r = true
               /\ effectiveColor r = "#8b5cf6".
Proof.
  apply (proj1 (fieldColors_entries [accessRel] "f1") "#8b5cf6").
  reflexivity.
Defined.

Lemma focus_filter_witness :
  exists line,
    renderConnectionLine focusedState accessRel = Some line
    /\ cl_opacity line = 1.
Proof.
  destruct (renderConnectionLine focusedState accessRel) as [line|] eqn:E;
    [|vm_compute in E; discriminate E].
  exists line. split; [reflexivity|].
  destruct (focus_filter [accessRel] usersTable focusedState accessRel line E)
    as (_ & _ & H & _).
  apply (H "#8b5cf6"); [discriminate|reflexivity|reflexivity].
Defined.

Lemma handleColorChange_only_recolors_witness :
  tables (handleColorChange "#ef4444"
            (handleRelationshipContextMenu samplePress accessRel
               (Some sampleRect) initialState))
  = tables initialState
  /\ contextMenu (handleColorChange "#ef4444"
                    (handleRelationshipContextMenu samplePress accessRel
                       (Some sampleRect) initialState))
     = None.
Proof.
  destruct (handleColorChange_only_recolors "#ef4444"
              (handleRelationshipContextMenu samplePress accessRel
                 (Some sampleRect) initialState)) as (H1 & H2 & _).
  split; [exact H1|].
  destruct (H2 _ eq_refl eq_refl) as [H _]. exact H.
Defined.

Lemma focus_follows_recolor_witness :
  highlightedColor
    (handleColorChange "#ef4444"
       (handleRelationshipContextMenu samplePress accessRel
          (Some sampleRect) focusedState))
  = Some "#ef4444".
Proof.
  destruct (focus_follows_recolor samplePress accessRel sampleRect "#ef4444"
              focusedState) as [H _].
  - discriminate.
  - discriminate.
  - reflexivity.
  - exact H.
Defined.

Lemma handleDisconnectField_exact_witness :
  tables (handleDisconnectField "1" "f1" initialState) = tables initialState
  /\ relationships (handleDisconnectField "1" "f1"
                      (handleDisconnectField "1" "f1" initialState))
     = relationships (handleDisconnectField "1" "f1" initialState).
Proof.
  destruct (handleDisconnectField_exact "1" "f1" initialState)
    as (_ & _ & H1 & H2).
  split; [exact H1|exact H2].
Defined.

Lemma menu_delete_removes_relationship_witness :
  contextMenu
    (menuDeleteConnection
       (handleRelationshipContextMenu samplePress accessRel
          (Some sampleRect) initialState))
  = None.
Proof.
  destruct (menu_delete_removes_relationship samplePress accessRel sampleRect
              initialState) as (_ & _ & H).
  - discriminate.
  - exact H.
Defined.

Lemma dispatch_keeps_wellConnected_witness :
  wellConnected
    (relationships (dispatch (Connect "2" (Some "p3") "u1" 0) pendingState)).
Proof.
  apply dispatch_keeps_wellConnected. split.
  - constructor; [reflexivity|constructor].
  - constructor; [constructor|constructor].
Defined.

Lemma handleTableDelete_keeps_routes_witness :
  map Table.id (tables (handleTableDelete "3" threeTableState)) = ["1"; "2"]
  /\ relationships (handleTableDelete "3" threeTableState) = [accessRel]
  /\ renderConnectionLine (handleTableDelete "3" threeTableState) accessRel
     = renderConnectionLine threeTableState accessRel
  /\ dangling (handleTableDelete "3" threeTableState) accessRel
     = dangling threeTableState accessRel.
Proof.
  split; [reflexivity|]. split; [reflexivity|].
  apply (handleTableDelete_keeps_routes "3" threeTableState accessRel).
  now left.
Defined.

Lemma pending_connection_survives_delete_witness :
  connectionStart (handleTableDelete "1" pendingState)
  = Some (mkConnectionState "1" (Some "f1")).
Proof.
  destruct (pending_connection_survives_delete "1"
              (mkConnectionState "1" (Some "f1")) "2" (Some "p1") "u1" 0
              pendingState) as [H _].
  - reflexivity.
  - reflexivity.
  - discriminate.
  - exact H.
Defined.

Lemma table_route_joins_boundaries_witness :
  exists line start end_,
    renderConnectionLine tableLinkState tableLevelRel = Some line
    /\ cl_pathD line = LinePath start end_
    /\ cl_arrowAt line = end_
    /\ onBoundary (tableCenter usersTable) (tableSize usersTable) start
    /\ onRay (tableCenter usersTable) (tableCenter postsTable) start
    /\ onBoundary (tableCenter postsTable) (tableSize postsTable) end_
    /\ onRay (tableCenter postsTable) (tableCenter usersTable) end_.
Proof.
  apply (table_route_joins_boundaries tableLinkState tableLevelRel
           usersTable postsTable).
  - reflexivity.
  - reflexivity.
  - reflexivity.
  - reflexivity.
  - intros [H _]. vm_compute in H. discriminate H.
Defined.

Lemma field_route_facing_edges_witness :
  exists line, renderConnectionLine initialState accessRel = Some line.
Proof.
  destruct (field_route_facing_edges initialState accessRel usersTable
              postsTable "f1" "p2")
    as (line & _ & _ & _ & _ & H & _).
  - reflexivity.
  - reflexivity.
  - reflexivity.
  - discriminate.
  - reflexivity.
  - discriminate.
  - reflexivity.
  - reflexivity.
  - exists line. exact H.
Defined.

Lemma preview_line_start_witness :
  renderPreviewLine initialState = None
  /\ exists p, renderPreviewLine pendingState = Some p
               /\ Point.y (pv_start p)
                  = Point.y (getFieldPosition usersTable (Some "f1")).
Proof.
  destruct (preview_line_start initialState) as (H & _).
  split; [apply H; now left|].
  destruct (preview_line_start pendingState) as (_ & _ & _ & H4).
  destruct (H4 (mkConnectionState "1" (Some "f1")) usersTable
              eq_refl eq_refl eq_refl) as (p & Hp & Hy & _).
  exists p. split; [exact Hp|exact Hy].
Defined.

Lemma handleAddTable_centered_witness :
  exists t,
    tables (handleAddTable 1600 900 "t3" "f9" initialState)
    = (tables initialState ++ [t])%list
    /\ Table.id t = "t3".
Proof.
  destruct (handleAddTable_centered 1600 900 "t3" "f9" initialState)
    as (t & H1 & H2 & _).
  - intros H. discriminate H.
  - exists t. split; [exact H1|exact H2].
Defined.

Lemma add_then_delete_table_witness :
  tables (handleTableDelete "t3"
            (handleAddTable 1600 900 "t3" "f9" initialState))
  = tables initialState
  /\ relationships (handleTableDelete "t3"
                      (handleAddTable 1600 900 "t3" "f9" initialState))
     = relationships initialState.
Proof.
  apply (add_then_delete_table 1600 900 "t3" "f9" initialState).
  - intros t [<-|[<-|[]]]; discriminate.
  - intros r [<-|[]]. split; discriminate.
Defined.

Lemma handleAddField_keeps_anchors_witness :
  getFieldPosition (withFields postsTable (addedFields postsTable "p4"))
                   (Some "p1")
  = getFieldPosition postsTable (Some "p1").
Proof.
  destruct (handleAddField_keeps_anchors postsTable "p4" initialState)
    as (_ & _ & _ & H).
  apply H; [discriminate|reflexivity].
Defined.

Lemma handleUpdateField_keeps_layout_witness :
  calculateTableHeight
    (withFields postsTable
       (updatedFields postsTable "p1"
          (mkFieldUpdates None (Some "renamed") None None None None None)))
  = calculateTableHeight postsTable.
Proof.
  destruct (handleUpdateField_keeps_layout postsTable "p1"
              (mkFieldUpdates None (Some "renamed") None None None None None)
              initialState eq_refl) as (_ & H & _).
  exact H.
Defined.


Lemma foreignKeyLines_resolved_witness :
  exists r sf tbl tf,
    In r (relationships initialState)
    /\ Relationship.sourceTableId r = Table.id usersTable
    /\ In sf (Table.fields usersTable)
    /\ Relationship.sourceFieldId r = Some (Field.id sf)
    /\ In tbl (tables initialState)
    /\ Relationship.targetTableId r = Table.id tbl
    /\ In tf (Table.fields tbl)
    /\ Relationship.targetFieldId r = Some (Field.id tf)
    /\ "  FOREIGN KEY (id) REFERENCES Posts(programs)"
       = foreignKeyLine sf tbl tf.
Proof.
  apply (foreignKeyLines_resolved initialState usersTable).
  left. reflexivity.
Defined.
